(** * King Phisher client: the plugin manager window

    A shallow embedding of [king_phisher/client/windows/plugin_manager.py]:
    the persisted configuration ([plugins.installed], [plugins.enabled],
    [catalogs]), the tree store of display rows, the module error record and
    the handlers that move a plugin between its states.  The plugin registry,
    the catalog manager, the transport and the dialogs are collaborators that
    live outside this module; they enter as interfaces. *)

From stdpp Require Import gmap strings list fin_maps.
From Stdlib Require Import ZArith Lia.

Local Set Warnings "-register-all".
Local Open Scope string_scope.
Local Open Scope list_scope.

(** ** Module constants *)

Inductive row_type := ROW_TYPE_PLUGIN | ROW_TYPE_REPOSITORY | ROW_TYPE_CATALOG.

Definition _LOCAL_REPOSITORY_ID : string := "local".
Definition _LOCAL_REPOSITORY_TITLE : string := "[Locally Installed]".

#[global] Instance row_type_eq_dec : EqDecision row_type.
Proof. solve_decision. Defined.

(** ** Exceptions that cross the code of this module *)

Inductive exn :=
| ValueError        (* list.remove(x): x not in list *)
| KeyError          (* del d[k], d[k]: missing key *)
| TypeError         (* _named_model( *None ) *)
| IndexError        (* store[path]: no such row *)
| AttributeError    (* attribute lookup on a class *)
| ConnectionError   (* requests.exceptions.ConnectionError *)
| OtherException.   (* any other Exception *)

#[global] Instance exn_eq_dec : EqDecision exn.
Proof. solve_decision. Defined.

Inductive result (A : Type) :=
| Ok (a : A)
| Raise (e : exn).
Arguments Ok {A} a.
Arguments Raise {A} e.

(** ** Persisted configuration *)

(** The value written by the install handler:
    [{'catalog_id': ..., 'repo_id': ..., 'plugin_id': ...}]. *)
Record install_src := InstallSrc {
  src_catalog_id : string;
  src_repo_id : string;
  src_plugin_id : string
}.

#[global] Instance install_src_eq_dec : EqDecision install_src.
Proof. solve_decision. Defined.

Record config := Config {
  catalogs : list string;                              (* config['catalogs'] *)
  plugins_installed : gmap string (option install_src); (* config['plugins.installed'] *)
  plugins_enabled : list string                        (* config['plugins.enabled'] *)
}.

(** [l.remove(x)]: drops the first occurrence, [ValueError] when there is
    none. *)
Fixpoint list_remove (x : string) (l : list string) : option (list string) :=
  match l with
  | [] => None
  | y :: l' =>
      if decide (x = y) then Some l'
      else match list_remove x l' with
           | Some r => Some (y :: r)
           | None => None
           end
  end.

(** [x in l] for a Python list of strings. *)
Definition list_in (x : string) (l : list string) : bool :=
  bool_decide (x ∈ l).

(** ** Display rows and the tree store *)

(** The [model_row] named tuple.  [installed] is [None] on catalog and
    repository rows. *)
Record model_row := ModelRow {
  r_id : string;
  r_installed : option bool;
  r_enabled : bool;
  r_title : string;
  r_compatibility : option string;
  r_version : option string;
  r_visible_enabled : bool;
  r_visible_installed : bool;
  r_sensitive_installed : bool;
  r_type : row_type
}.

(** Truth value of the [installed] column. *)
Definition installed_truthy (r : model_row) : bool :=
  match r_installed r with Some true => true | _ => false end.

Definition set_installed (v : bool) (r : model_row) : model_row :=
  ModelRow (r_id r) (Some v) (r_enabled r) (r_title r) (r_compatibility r)
    (r_version r) (r_visible_enabled r) (r_visible_installed r)
    (r_sensitive_installed r) (r_type r).

Definition set_enabled (v : bool) (r : model_row) : model_row :=
  ModelRow (r_id r) (r_installed r) v (r_title r) (r_compatibility r)
    (r_version r) (r_visible_enabled r) (r_visible_installed r)
    (r_sensitive_installed r) (r_type r).

Definition set_title (v : string) (r : model_row) : model_row :=
  ModelRow (r_id r) (r_installed r) (r_enabled r) v (r_compatibility r)
    (r_version r) (r_visible_enabled r) (r_visible_installed r)
    (r_sensitive_installed r) (r_type r).

Definition set_compatibility (v : string) (r : model_row) : model_row :=
  ModelRow (r_id r) (r_installed r) (r_enabled r) (r_title r) (Some v)
    (r_version r) (r_visible_enabled r) (r_visible_installed r)
    (r_sensitive_installed r) (r_type r).

Definition set_version (v : string) (r : model_row) : model_row :=
  ModelRow (r_id r) (r_installed r) (r_enabled r) (r_title r)
    (r_compatibility r) (Some v) (r_visible_enabled r) (r_visible_installed r)
    (r_sensitive_installed r) (r_type r).

(** A row of the [Gtk.TreeStore] with its children.  A tree path (a list of
    child indices from the root) stands for both [Gtk.TreePath] and
    [Gtk.TreeIter]; rows are kept in insertion order (the view sorts them by
    title, which no handler depends on). *)
Inductive tree_row := TreeRow (m : model_row) (children : list tree_row).

Definition row_model (t : tree_row) : model_row :=
  match t with TreeRow m _ => m end.
Definition iterchildren (t : tree_row) : list tree_row :=
  match t with TreeRow _ c => c end.

Definition tree_path := list nat.

(** [store[path]] *)
Fixpoint store_get (store : list tree_row) (path : tree_path) : option tree_row :=
  match path with
  | [] => None
  | i :: rest =>
      match store !! i with
      | None => None
      | Some t =>
          match rest with
          | [] => Some t
          | _ :: _ => store_get (iterchildren t) rest
          end
      end
  end.

(** [store[path][column] = value] *)
Fixpoint store_alter (f : model_row → model_row) (store : list tree_row)
    (path : tree_path) : list tree_row :=
  match path with
  | [] => store
  | i :: rest =>
      match store !! i with
      | None => store
      | Some (TreeRow m c) =>
          match rest with
          | [] => <[i := TreeRow (f m) c]> store
          | _ :: _ => <[i := TreeRow m (store_alter f c rest)]> store
          end
      end
  end.

(** [del store[path]] (also [store.remove(iter)]) *)
Fixpoint store_delete (store : list tree_row) (path : tree_path) : list tree_row :=
  match path with
  | [] => store
  | i :: rest =>
      match rest with
      | [] => delete i store
      | _ :: _ =>
          match store !! i with
          | None => store
          | Some (TreeRow m c) => <[i := TreeRow m (store_delete c rest)]> store
          end
      end
  end.

(** [store.append(parent, model)]: the new row is the last child of
    [parent] ([None]: a new top-level row); returns the store and the place
    of the new row. *)
Fixpoint store_append (store : list tree_row) (parent : tree_path)
    (model : model_row) : list tree_row * tree_path :=
  match parent with
  | [] => (store ++ [TreeRow model []], [length store])
  | i :: rest =>
      match store !! i with
      | None => (store, [])
      | Some (TreeRow m c) =>
          let '(c', p) := store_append c rest model in
          (<[i := TreeRow m c']> store, i :: p)
      end
  end.

(** [row.parent] as a path: [None] for a top-level row. *)
Definition path_parent (path : tree_path) : option tree_path :=
  match path with
  | [] | [_] => None
  | _ => Some (removelast path)
  end.

(** ** Collaborators *)

(** What a loaded plugin class exposes to this window. *)
Record plugin_class := PluginClass {
  plugin_name : string;
  plugin_title : string;
  plugin_version : string;
  plugin_is_compatible : bool
}.

(** Modelled from the spec: the Plugin Registry collaborator
    ([application.plugin_manager], section 6 of the specification), as the
    signature this window calls.  Only [load] is documented to raise;
    [load_all] reports each failure to its [on_error] callback. *)
Class PluginManager (R : Type) := {
  pm_loaded_plugins : R → gmap string plugin_class;
  pm_enabled_plugins : R → list string;
  pm_contains : R → string → bool;
  pm_getitem : R → string → option plugin_class;
  pm_load_all : R → R * list (string * exn);
  pm_load : R → string → R * result plugin_class;
  pm_unload : R → string → R;
  pm_enable : R → string → R * bool;
  pm_disable : R → string → R
}.

(** A repository as the tree building code reads it. *)
Record repository := Repository {
  repo_id : string;
  repo_title : string
}.

(** An entry of a repository's plugin collection. *)
Record plugin_info := PluginInfo {
  info_name : string;
  info_title : string;
  info_version : string
}.

(** An entry of the catalog cache: [{'created', 'value', 'url'}]; [created]
    and every other instant are in microseconds. *)
Record cache_entry (Doc : Type) := CacheEntry {
  created : Z;
  value : Doc;
  url : string
}.
Arguments CacheEntry {Doc} _ _ _.
Arguments created {Doc} _.
Arguments value {Doc} _.
Arguments url {Doc} _.

(** Modelled from the spec: the catalog manager, its cache and the catalog
    transport ([plugins.ClientCatalogManager] and [catalog.Catalog], sections
    4.1 and 6 of the specification), as the signature this window calls.
    [C] is the manager with its cache, [Doc] a cached catalog document and
    [Cat] a parsed catalog. *)
Class CatalogManager (C Doc Cat : Type) := {
  ClientCatalogManager : C → C;       (* a new manager over the persisted cache *)
  Catalog : Doc → result Cat;         (* Catalog(value) *)
  Catalog_from_url : string → result Cat;
  get_catalog_by_url : C → string → option (cache_entry Doc);
  get_catalog_by_id : C → string → option (cache_entry Doc);
  cache_ids : C → list string;        (* iteration over the cache *)
  cache_repositories : C → string → list repository;
  add_catalog : C → Cat → string → bool → C;
  catalog_ids : C → list string;
  catalogs_get : C → string → bool;   (* truth of catalogs.get(id, None) *)
  get_repositories : C → string → list repository;
  get_collection : C → string → string → list (string * plugin_info);
  is_compatible : C → string → string → string → bool;
  install_plugin :
    C → string → string → string → string → gset string → result (gset string)
}.

(** ** What the window does to the outside, in order *)

Inductive pm_call :=
| PmLoadAll
| PmLoad (name : string)
| PmUnload (name : string)
| PmEnable (name : string)
| PmDisable (name : string).

Inductive log_level := DEBUG | INFO | WARNING.

Inductive event :=
| EvStatus (msg : string)                (* status bar text *)
| EvDialogError (title msg : string)     (* gui_utilities.show_dialog_error *)
| EvDialogYesNo (title msg : string)     (* gui_utilities.show_dialog_yes_no *)
| EvLog (level : log_level) (msg : string)
| EvFetch (catalog_url : string)         (* Catalog.from_url *)
| EvInstall (catalog_id repo_id plugin_id : string)
| EvRegistry (c : pm_call)
| EvSetInfo (id : string)                (* the info pane is redrawn *)
| EvUnselect.

#[global] Instance pm_call_eq_dec : EqDecision pm_call.
Proof. solve_decision. Defined.
#[global] Instance log_level_eq_dec : EqDecision log_level.
Proof. solve_decision. Defined.
#[global] Instance event_eq_dec : EqDecision event.
Proof. solve_decision. Defined.

(** ** Filesystem under the plugins directory *)

(** The files that exist, by path. *)
Definition isfile (disk : gset string) (p : string) : bool := bool_decide (p ∈ disk).

Definition path_join (a b : string) : string := a +:+ "/" +:+ b.

(** [shutil.rmtree(dir)]: every file below [dir] goes. *)
Definition rmtree (disk : gset string) (dir : string) : gset string :=
  filter (λ p, String.prefix (dir +:+ "/") p = false) disk.

(** [os.remove(p)] *)
Definition os_remove (disk : gset string) (p : string) : gset string :=
  disk ∖ {[p]}.

(** ** The window and its state *)

Section Window.
Context {R C Doc Cat : Type} {PM : PluginManager R} {CM : CatalogManager C Doc Cat}.

(** [self.plugin_path] *)
Variable plugin_path : string.
(** The user's answer to a yes/no dialog, by dialog title. *)
Variable answer : string → bool.

Record window := Window {
  cfg : config;
  _module_errors : gmap string exn;
  _model : list tree_row;
  plugin_manager : R;
  catalog_plugins : C;
  disk : gset string;
  trace : list event
}.

Definition M (A : Type) : Type := window → result A * window.

#[global] Instance M_ret : MRet M := λ A a w, (Ok a, w).
#[global] Instance M_bind : MBind M := λ A B f m w,
  match m w with
  | (Ok a, w') => f a w'
  | (Raise e, w') => (Raise e, w')
  end.

Definition raise {A} (e : exn) : M A := λ w, (Raise e, w).
Definition gets {A} (f : window → A) : M A := λ w, (Ok (f w), w).
Definition modify (f : window → window) : M unit := λ w, (Ok tt, f w).

(** [for x in l: body x] *)
Fixpoint for_each {A} (l : list A) (body : A → M unit) : M unit :=
  match l with
  | [] => mret tt
  | x :: l' => body x ;; for_each l' body
  end.

Definition set_cfg (c : config) (w : window) : window :=
  Window c (_module_errors w) (_model w) (plugin_manager w)
    (catalog_plugins w) (disk w) (trace w).
Definition set_module_errors (e : gmap string exn) (w : window) : window :=
  Window (cfg w) e (_model w) (plugin_manager w) (catalog_plugins w)
    (disk w) (trace w).
Definition set_model (s : list tree_row) (w : window) : window :=
  Window (cfg w) (_module_errors w) s (plugin_manager w) (catalog_plugins w)
    (disk w) (trace w).
Definition set_plugin_manager (r : R) (w : window) : window :=
  Window (cfg w) (_module_errors w) (_model w) r (catalog_plugins w)
    (disk w) (trace w).
Definition set_catalog_plugins (c : C) (w : window) : window :=
  Window (cfg w) (_module_errors w) (_model w) (plugin_manager w) c
    (disk w) (trace w).
Definition set_disk (d : gset string) (w : window) : window :=
  Window (cfg w) (_module_errors w) (_model w) (plugin_manager w)
    (catalog_plugins w) d (trace w).

Definition emit (e : event) : M unit := λ w,
  (Ok tt, Window (cfg w) (_module_errors w) (_model w) (plugin_manager w)
            (catalog_plugins w) (disk w) (trace w ++ [e])).

Definition set_installed_cfg (m : gmap string (option install_src)) : M unit :=
  modify (λ w, set_cfg (Config (catalogs (cfg w)) m (plugins_enabled (cfg w))) w).
Definition set_enabled_cfg (l : list string) : M unit :=
  modify (λ w, set_cfg (Config (catalogs (cfg w)) (plugins_installed (cfg w)) l) w).

(** *** Small helpers of the class *)

Definition _update_status_bar (s : string) : M unit := emit (EvStatus s).
Definition logger (l : log_level) (s : string) : M unit := emit (EvLog l s).
Definition show_dialog_error (title msg : string) : M unit :=
  emit (EvDialogError title msg).
Definition show_dialog_yes_no (title msg : string) : M bool :=
  emit (EvDialogYesNo title msg) ;; mret (answer title).

(** [self._model[path]] *)
Definition model_getitem (path : tree_path) : M tree_row :=
  s ← gets _model;
  match store_get s path with
  | Some t => mret t
  | None => raise IndexError
  end.

Definition _set_model_item (model_path : tree_path)
    (item : model_row → model_row) : M unit :=
  _ ← model_getitem model_path;
  modify (λ w, set_model (store_alter item (_model w) model_path) w).

Definition _on_plugin_load_error (name : string) (error : exn) : M unit :=
  modify (λ w, set_module_errors (<[name := error]> (_module_errors w)) w).

(** Calls into the registry, each one recorded. *)
Definition registry_unload (name : string) : M unit :=
  emit (EvRegistry (PmUnload name)) ;;
  modify (λ w, set_plugin_manager (pm_unload (plugin_manager w) name) w).
Definition registry_disable (name : string) : M unit :=
  emit (EvRegistry (PmDisable name)) ;;
  modify (λ w, set_plugin_manager (pm_disable (plugin_manager w) name) w).
Definition registry_enable (name : string) : M bool :=
  emit (EvRegistry (PmEnable name)) ;;
  pm ← gets plugin_manager;
  let '(pm', ok) := pm_enable pm name in
  modify (set_plugin_manager pm') ;; mret ok.
(** [pm.load(name, reload_module=True)]: the registry moves on either way. *)
Definition registry_load (name : string) : M plugin_class :=
  emit (EvRegistry (PmLoad name)) ;;
  pm ← gets plugin_manager;
  let '(pm', r) := pm_load pm name in
  modify (set_plugin_manager pm') ;;
  match r with
  | Ok klass => mret klass
  | Raise e => raise e
  end.
(** [pm.load_all(on_error=self._on_plugin_load_error)] *)
Definition registry_load_all : M unit :=
  emit (EvRegistry PmLoadAll) ;;
  pm ← gets plugin_manager;
  let '(pm', errors) := pm_load_all pm in
  modify (set_plugin_manager pm') ;;
  for_each errors (λ '(name, error), _on_plugin_load_error name error).

(** [try: body except Exception as error: handler error] *)
Definition try_except {A} (body : M A) (handler : exn → M A) : M A := λ w,
  match body w with
  | (Ok a, w') => (Ok a, w')
  | (Raise e, w') => handler e w'
  end.

(** *** Transitions *)

Definition _disable_plugin (path : tree_path) (is_path : bool) : M unit :=
  row ← model_getitem path;
  let named_row := row_model row in
  registry_disable (r_id named_row) ;;
  enabled ← gets (λ w, plugins_enabled (cfg w));
  match list_remove (r_id named_row) enabled with
  | None => raise ValueError
  | Some enabled' =>
      set_enabled_cfg enabled' ;;
      if is_path then _set_model_item path (set_enabled false)
      else modify (λ w, set_model (store_alter (set_enabled false) (_model w) path) w)
  end.

(** The part of [_uninstall_plugin] after the files are gone. *)
Definition _uninstall_plugin_finish (model_path : tree_path)
    (plugin_id : string) : M bool :=
  registry_unload plugin_id ;;
  installed ← gets (λ w, plugins_installed (cfg w));
  match installed !! plugin_id with
  | None => raise KeyError
  | Some _ =>
      set_installed_cfg (delete plugin_id installed) ;;
      parent ← match path_parent model_path with
               | None => mret None
               | Some pp => p ← model_getitem pp; mret (Some p)
               end;
      (match parent with
       | Some p =>
           if decide (r_id (row_model p) = _LOCAL_REPOSITORY_ID)
           then modify (λ w, set_model (store_delete (_model w) model_path) w)
           else _set_model_item model_path (set_installed false)
       | None => _set_model_item model_path (set_installed false)
       end) ;;
      logger INFO ("successfully uninstalled plugin " +:+ plugin_id) ;;
      mret true
  end.

Definition _uninstall_plugin (model_path : tree_path) : M bool :=
  model_row ← model_getitem model_path;
  let plugin_id := r_id (row_model model_row) in
  d ← gets disk;
  if isfile d (path_join (path_join plugin_path plugin_id) "__init__.py") then
    modify (set_disk (rmtree d (path_join plugin_path plugin_id))) ;;
    _uninstall_plugin_finish model_path plugin_id
  else if isfile d (path_join plugin_path (plugin_id +:+ ".py")) then
    modify (set_disk (os_remove d (path_join plugin_path (plugin_id +:+ ".py")))) ;;
    _uninstall_plugin_finish model_path plugin_id
  else
    logger WARNING ("failed to find plugin " +:+ plugin_id +:+ " on disk for removal") ;;
    mret false.

(** [(repo row, catalog row)] of a plugin row; a row less than three levels
    deep has no such parents and unpacking [None] raises. *)
Definition _get_plugin_model_parents (plugin_model : tree_path)
    : M (model_row * model_row) :=
  match path_parent plugin_model with
  | None => raise TypeError
  | Some pp =>
      match path_parent pp with
      | None => raise TypeError
      | Some gp =>
          repo ← model_getitem pp;
          catalog ← model_getitem gp;
          mret (row_model repo, row_model catalog)
      end
  end.

(** The row under which [_remove_matching_plugin] looks for the installed
    copy: the repository row named by [plugin_src] below the first catalog
    row with its catalog id, or the local catalog row when [plugin_src] is
    [None]. *)
Definition matching_repo_model (store : list tree_row)
    (plugin_src : option install_src) : option (tree_path * tree_row) :=
  match plugin_src with
  | Some src =>
      match list_find (λ t, r_id (row_model t) = src_catalog_id src) store with
      | Some (ci, catalog_model) =>
          match list_find (λ t, r_id (row_model t) = src_repo_id src)
                  (iterchildren catalog_model) with
          | Some (ri, rm) => Some ([ci; ri], rm)
          | None => None
          end
      | None => None
      end
  | None =>
      match list_find (λ t, r_id (row_model t) = _LOCAL_REPOSITORY_ID) store with
      | Some (ci, catalog_model) => Some ([ci], catalog_model)
      | None => None
      end
  end.

Definition _remove_matching_plugin (path : tree_path)
    (plugin_src : option install_src) : M bool :=
  row ← model_getitem path;
  let named_row := row_model row in
  store ← gets _model;
  match matching_repo_model store plugin_src with
  | None => mret false
  | Some (repo_path, repo_model) =>
      match list_find (λ t, r_id (row_model t) = r_id named_row)
              (iterchildren repo_model) with
      | None => mret false
      | Some (pi, plugin_model) =>
          let plugin_path' := repo_path ++ [pi] in
          (if r_enabled (row_model plugin_model)
           then _disable_plugin plugin_path' false
           else mret tt) ;;
          _uninstall_plugin plugin_path' ;;
          mret true
      end
  end.

Definition signal_renderer_toggled_enable (path : tree_path) : M unit :=
  row ← model_getitem path;
  let named_row := row_model row in
  if negb (bool_decide (r_type named_row = ROW_TYPE_PLUGIN)) then mret tt
  else
    pm ← gets plugin_manager;
    match pm_loaded_plugins pm !! r_id named_row with
    | None => mret tt
    | Some klass =>
        errors ← gets _module_errors;
        if bool_decide (is_Some (errors !! r_id named_row)) then
          show_dialog_error "Can Not Enable Plugin"
            "Can not enable a plugin which failed to load."
        else if r_enabled named_row then
          _disable_plugin path true
        else if negb (plugin_is_compatible klass) then
          show_dialog_error "Incompatible Plugin" "This plugin is not compatible."
        else
          ok ← registry_enable (r_id named_row);
          if negb ok then mret tt
          else
            _set_model_item path (set_enabled true) ;;
            enabled ← gets (λ w, plugins_enabled (cfg w));
            set_enabled_cfg (enabled ++ [r_id named_row])
    end.

(** [collection[plugin_id]['version']] *)
Definition collection_version (collection : list (string * plugin_info))
    (plugin_id : string) : option string :=
  match list_find (λ kv, fst kv = plugin_id) collection with
  | Some (_, (_, info)) => Some (info_version info)
  | None => None
  end.

(** The tail of the install handler, from the download on. *)
Definition install_from (path : tree_path) (catalog_model repo_model named_row : model_row)
    : M unit :=
  _update_status_bar ("Installing plugin " +:+ r_title named_row +:+ "...") ;;
  installed_ok ← try_except
    (emit (EvInstall (r_id catalog_model) (r_id repo_model) (r_id named_row)) ;;
     cp ← gets catalog_plugins;
     d ← gets disk;
     match install_plugin cp (r_id catalog_model) (r_id repo_model)
             (r_id named_row) plugin_path d with
     | Ok d' => modify (set_disk d') ;; mret true
     | Raise e => raise e
     end)
    (λ e,
      if decide (e = ConnectionError) then
        logger WARNING ("failed to download plugin " +:+ r_id named_row) ;;
        show_dialog_error "Failed To Install"
          ("Failed to download " +:+ r_id named_row
             +:+ " plugin, check your internet connection.") ;;
        mret false
      else
        logger WARNING ("failed to install plugin " +:+ r_id named_row) ;;
        show_dialog_error "Failed To Install"
          ("Failed to install " +:+ r_id named_row +:+ " plugin.") ;;
        _update_status_bar ("Installing plugin " +:+ r_title named_row +:+ " failed.") ;;
        mret false);
  if negb installed_ok then mret tt
  else
    installed ← gets (λ w, plugins_installed (cfg w));
    set_installed_cfg
      (<[r_id named_row :=
           Some (InstallSrc (r_id catalog_model) (r_id repo_model) (r_id named_row))]>
         installed) ;;
    _set_model_item path (set_installed true) ;;
    cp ← gets catalog_plugins;
    match collection_version
            (get_collection cp (r_id catalog_model) (r_id repo_model))
            (r_id named_row) with
    | None => raise KeyError
    | Some v =>
        _set_model_item path (set_version v) ;;
        logger INFO ("installed plugin " +:+ r_id named_row +:+ " from catalog:"
                       +:+ r_id catalog_model +:+ ", repository:" +:+ r_id repo_model) ;;
        _update_status_bar ("Installing plugin " +:+ r_title named_row +:+ " completed.") ;;
        registry_load_all
    end.

Definition signal_renderer_toggled_install (path : tree_path) : M unit :=
  _ ← model_getitem path;
  '(repo_model, catalog_model) ← _get_plugin_model_parents path;
  row ← model_getitem path;
  let named_row := row_model row in
  if installed_truthy named_row then
    _update_status_bar ("Uninstalling plugin " +:+ r_id named_row +:+ "...") ;;
    go_on ← (if r_enabled named_row then
               yes ← show_dialog_yes_no "Plugin is Enabled"
                       "This will disable the plugin, do you want to continue?";
               if negb yes then mret false
               else _disable_plugin path true ;; mret true
             else mret true);
    if negb go_on then mret tt
    else
      _uninstall_plugin path ;;
      _update_status_bar ("Uninstalling plugin " +:+ r_id named_row +:+ " completed.")
  else
    installed ← gets (λ w, plugins_installed (cfg w));
    go_on ← match installed !! r_id named_row with
            | None => mret true
            | Some plugin_src =>
                if decide (plugin_src = Some (InstallSrc (r_id catalog_model)
                                                (r_id repo_model) (r_id named_row)))
                then mret true
                else
                  yes ← show_dialog_yes_no "Plugin installed from another source"
                          "A plugin with this name is already installed from another
repository. Do you want to replace it with this one?";
                  if negb yes then mret false
                  else
                    removed ← _remove_matching_plugin path plugin_src;
                    if negb removed then
                      logger WARNING ("failed to uninstall plugin " +:+ r_id named_row) ;;
                      mret false
                    else mret true
            end;
    if negb go_on then mret tt
    else install_from path catalog_model repo_model named_row.

(** [_set_info]: the info pane is redrawn for the row. *)
Definition _set_info (id : string) : M unit := emit (EvSetInfo id).

Definition _reload_plugin (tree_iter : tree_path)
    (selected_plugin : option string) : M unit :=
  model_row ← model_getitem tree_iter;
  let named_row := row_model model_row in
  pm ← gets plugin_manager;
  let enabled := list_in (r_id named_row) (pm_enabled_plugins pm) in
  registry_unload (r_id named_row) ;;
  loaded ← try_except
    (klass ← registry_load (r_id named_row); mret (Some klass))
    (λ error,
      _on_plugin_load_error (r_id named_row) error ;;
      (if decide (Some (r_id named_row) = selected_plugin)
       then _set_info (r_id named_row) else mret tt) ;;
      _set_model_item tree_iter (set_title (r_id named_row +:+ " (Reload Failed)")) ;;
      mret None);
  match loaded with
  | None => mret tt
  | Some klass =>
      modify (λ w, set_module_errors (delete (r_id named_row) (_module_errors w)) w) ;;
      _set_model_item tree_iter (set_title (plugin_title klass)) ;;
      _set_model_item tree_iter
        (set_compatibility (if plugin_is_compatible klass then "Yes" else "No")) ;;
      _set_model_item tree_iter (set_version (plugin_version klass)) ;;
      (if decide (Some (r_id named_row) = selected_plugin)
       then _set_info (r_id named_row) else mret tt) ;;
      if enabled then _ ← registry_enable (r_id named_row); mret tt
      else mret tt
  end.

(** *** Reconciliation: building the tree of rows *)

(** [store.append] run on the GTK loop; the rows arrive in the order they
    were handed over. *)
Definition _store_append (parent : tree_path) (model : model_row) : M tree_path :=
  λ w, let '(s, p) := store_append (_model w) parent model in (Ok p, set_model s w).

Definition _store_extend (parent : tree_path) (models : list model_row) : M unit :=
  for_each models (λ model, _ ← _store_append parent model; mret tt).

(** The models list that the loop of [_add_plugins_to_tree] builds. *)
Definition _add_plugins_to_tree_models (c : config) (cp : C)
    (catalog_id : string) (repo : repository)
    (plugin_list : list (string * plugin_info)) : list model_row :=
  map (λ '(_, plugin_info),
    let plugin_name := info_name plugin_info in
    let install_src := plugins_installed c !! plugin_name in
    let installed :=
      match install_src with
      | Some (Some src) =>
          bool_decide (repo_id repo = src_repo_id src)
            && bool_decide (catalog_id = src_catalog_id src)
      | _ => false
      end in
    let enabled := if installed then list_in plugin_name (plugins_enabled c) else false in
    ModelRow plugin_name (Some installed) enabled (info_title plugin_info)
      (Some (if is_compatible cp catalog_id (repo_id repo) plugin_name then "Yes" else "No"))
      (Some (info_version plugin_info))
      true true (is_compatible cp catalog_id (repo_id repo) plugin_name)
      ROW_TYPE_PLUGIN) plugin_list.

Definition _add_plugins_to_tree (catalog_id : string) (repo : repository)
    (parent : tree_path) (plugin_list : list (string * plugin_info)) : M unit :=
  c ← gets cfg;
  cp ← gets catalog_plugins;
  _store_extend parent (_add_plugins_to_tree_models c cp catalog_id repo plugin_list).

(** The models list that the loop of [_add_plugins_offline] builds; reading
    [plugin_manager[name]] raises when the registry has no such plugin. *)
Fixpoint _add_plugins_offline_models (c : config) (pm : R)
    (catalog_id repo_id : string)
    (items : list (string * option install_src)) : result (list model_row) :=
  match items with
  | [] => Ok []
  | (plugin_name, plugin_src) :: items' =>
      let continue := _add_plugins_offline_models c pm catalog_id repo_id items' in
      match plugin_src with
      | None => continue
      | Some src =>
          if negb (pm_contains pm plugin_name) then continue
          else if negb (bool_decide (src_catalog_id src = catalog_id)) then continue
          else if negb (bool_decide (src_repo_id src = repo_id)) then continue
          else
            match pm_getitem pm plugin_name with
            | None => Raise KeyError
            | Some klass =>
                match continue with
                | Raise e => Raise e
                | Ok models =>
                    Ok (ModelRow plugin_name (Some true)
                          (list_in plugin_name (plugins_enabled c))
                          (plugin_title klass)
                          (Some (if plugin_is_compatible klass then "Yes" else "No"))
                          (Some (plugin_version klass))
                          true true false ROW_TYPE_PLUGIN :: models)
                end
            end
      end
  end.

Definition _add_plugins_offline (catalog_id repo_id : string)
    (parent : tree_path) : M unit :=
  c ← gets cfg;
  pm ← gets plugin_manager;
  match _add_plugins_offline_models c pm catalog_id repo_id
          (map_to_list (plugins_installed c)) with
  | Raise e => raise e
  | Ok models => _store_extend parent models
  end.

Definition _add_catalog_to_tree (catalog_id : string) : M unit :=
  catalog_row ← _store_append []
    (ModelRow catalog_id None true catalog_id None None false false false
       ROW_TYPE_CATALOG);
  cp ← gets catalog_plugins;
  for_each (get_repositories cp catalog_id) (λ repo,
    repo_row ← _store_append catalog_row
      (ModelRow (repo_id repo) None true (repo_title repo) None None
         false false false ROW_TYPE_REPOSITORY);
    let plugin_collections := get_collection cp catalog_id (repo_id repo) in
    match plugin_collections with
    | [] => mret tt
    | _ :: _ => _add_plugins_to_tree catalog_id repo repo_row plugin_collections
    end).

(** The first loop of [_load_plugins]: every loaded plugin without a truthy
    installation record is recorded as installed from no source and gets a
    row under the local catalog. *)
Fixpoint _load_plugins_local_models (items : list (string * plugin_class))
    : M (list model_row) :=
  match items with
  | [] => mret []
  | (name, plugin) :: items' =>
      installed ← gets (λ w, plugins_installed (cfg w));
      match installed !! name with
      | Some (Some _) => _load_plugins_local_models items'
      | _ =>
          set_installed_cfg (<[name := None]> installed) ;;
          pm ← gets plugin_manager;
          models ← _load_plugins_local_models items';
          mret (ModelRow (plugin_name plugin) (Some true)
                  (list_in (plugin_name plugin) (pm_enabled_plugins pm))
                  (plugin_title plugin)
                  (Some (if plugin_is_compatible plugin then "Yes" else "No"))
                  (Some (plugin_version plugin))
                  true true false ROW_TYPE_PLUGIN :: models)
      end
  end.

Definition _load_plugins : M unit :=
  logger DEBUG "loading plugins" ;;
  _update_status_bar "Loading plugins..." ;;
  modify (set_model []) ;;
  modify (set_module_errors ∅) ;;
  registry_load_all ;;
  catalog_row ← _store_append []
    (ModelRow _LOCAL_REPOSITORY_ID None true _LOCAL_REPOSITORY_TITLE None None
       false false false ROW_TYPE_CATALOG);
  pm ← gets plugin_manager;
  models ← _load_plugins_local_models (map_to_list (pm_loaded_plugins pm));
  _store_extend catalog_row models ;;
  errors ← gets _module_errors;
  for_each (map_to_list errors) (λ '(name, _),
    _ ← _store_append catalog_row
          (ModelRow name (Some true) false (name +:+ " (Load Failed)") (Some "No")
             (Some "Unknown") true true false ROW_TYPE_PLUGIN);
    mret tt) ;;
  logger DEBUG "loading catalog into plugin treeview" ;;
  cp ← gets catalog_plugins;
  for_each (catalog_ids cp) _add_catalog_to_tree ;;
  for_each (cache_ids cp) (λ catalog_id,
    if catalogs_get cp catalog_id then mret tt
    else
      catalog_row ← _store_append []
        (ModelRow catalog_id None true catalog_id None None false false false
           ROW_TYPE_CATALOG);
      for_each (cache_repositories cp catalog_id) (λ repo,
        repo_row ← _store_append catalog_row
          (ModelRow (repo_id repo) None true (repo_title repo) None None
             false false false ROW_TYPE_REPOSITORY);
        _add_plugins_offline catalog_id (repo_id repo) repo_row)) ;;
  emit EvUnselect ;;
  _update_status_bar "Loading completed".

(** *** Loading the catalogs *)

Definition _load_catalog_from_url (catalog_url : string) : M (option Cat) :=
  emit (EvFetch catalog_url) ;;
  match Catalog_from_url catalog_url with
  | Ok catalog => mret (Some catalog)
  | Raise e =>
      if decide (e = ConnectionError) then
        logger WARNING ("connection error trying to download catalog url: " +:+ catalog_url) ;;
        show_dialog_error "Catalog Loading Error"
          "Failed to download catalog, check your internet connection." ;;
        mret None
      else
        logger WARNING "failed to add catalog by url" ;;
        show_dialog_error "Catalog Loading Error" "Failed to add catalog" ;;
        mret None
  end.

(** [datetime.timedelta(hours=4)], in microseconds. *)
Definition expiration : Z := 4 * 3600 * 1000000.

(** [error.__class__.__name]: inside the class body the name is mangled to
    [_PluginManagerWindow__name], an attribute no exception class has. *)
Definition error___class_____name (error : exn) : M string := raise AttributeError.

Definition download_catalog (catalog_url : string) : M unit :=
  logger DEBUG ("downloading catalog: " +:+ catalog_url) ;;
  _update_status_bar ("Loading, downloading catalog: " +:+ catalog_url) ;;
  catalog ← _load_catalog_from_url catalog_url;
  match catalog with
  | None => mret tt
  | Some catalog =>
      modify (λ w, set_catalog_plugins
                     (add_catalog (catalog_plugins w) catalog catalog_url true) w)
  end.

(** One round of the loop of [_load_catalogs]. *)
Definition _load_catalogs_url (refresh : bool) (now : Z) (catalog_url : string)
    : M unit :=
  cp ← gets catalog_plugins;
  let catalog_cache_dict := get_catalog_by_url cp catalog_url in
  match catalog_cache_dict with
  | Some entry =>
      if negb refresh && bool_decide (now < created entry + expiration)%Z then
        match Catalog (value entry) with
        | Ok catalog =>
            modify (λ w, set_catalog_plugins
                           (add_catalog (catalog_plugins w) catalog (url entry) false) w)
        | Raise error =>
            if bool_decide (error = KeyError ∨ error = TypeError) then
              name ← error___class_____name error;
              logger WARNING (name +:+ " error when trying to add catalog dict to manager") ;;
              download_catalog catalog_url
            else raise error
        end
      else download_catalog catalog_url
  | None => download_catalog catalog_url
  end.

(** [_reload_catalog]: the catalog's row is removed first and stays removed
    when the catalog cannot be fetched again. *)
Definition _reload_catalog (named_row : model_row) (tree_iter : tree_path) : M unit :=
  modify (λ w, set_model (store_delete (_model w) tree_iter) w) ;;
  cp ← gets catalog_plugins;
  match get_catalog_by_id cp (r_id named_row) with
  | None => raise TypeError
  | Some entry =>
      let catalog_url := url entry in
      if decide (catalog_url = "") then mret tt
      else
        catalog ← _load_catalog_from_url catalog_url;
        match catalog with
        | None => mret tt
        | Some catalog =>
            modify (λ w, set_catalog_plugins
                           (add_catalog (catalog_plugins w) catalog catalog_url true) w) ;;
            _load_plugins
        end
  end.

Definition _load_catalogs (refresh : bool) (now : Z) : M unit :=
  _update_status_bar "Loading, catalogs..." ;;
  modify (λ w, set_catalog_plugins (ClientCatalogManager (catalog_plugins w)) w) ;;
  urls ← gets (λ w, catalogs (cfg w));
  for_each urls (_load_catalogs_url refresh now) ;;
  _load_plugins.

(** *** Reloading what is selected *)

Definition _reload_repository (model_row : tree_path) : M unit :=
  match path_parent model_row with
  | None => raise TypeError
  | Some parent_row =>
      parent ← model_getitem parent_row;
      let parent_named_row := row_model parent in
      if negb (bool_decide (r_type parent_named_row = ROW_TYPE_CATALOG)) then
        logger WARNING "repository treeview row's parent is not a catalog"
      else _reload_catalog parent_named_row parent_row
  end.

(** One round of the loop of [_reload]. *)
Definition _reload_row (tree_iter : tree_path) (selected_plugin : option string)
    : M unit :=
  model_row ← model_getitem tree_iter;
  let named_row := row_model model_row in
  if bool_decide (r_type named_row = ROW_TYPE_CATALOG)
     && negb (bool_decide (r_id named_row = _LOCAL_REPOSITORY_ID)) then
    _reload_catalog named_row tree_iter
  else if bool_decide (r_type named_row = ROW_TYPE_REPOSITORY) then
    _reload_repository tree_iter
  else if bool_decide (r_type named_row = ROW_TYPE_PLUGIN) then
    if negb (installed_truthy named_row) then
      _update_status_bar "Cannot reload a plugin that is not installed."
    else _reload_plugin tree_iter selected_plugin
  else logger WARNING "reload selected for an unsupported row type".

(** [_reload] over the selected rows, each taken at the place it has when
    its turn comes; [selected_plugin] is the id of the first of them. *)
Definition _reload (selection : list tree_path) : M unit :=
  _update_status_bar "Reloading... " ;;
  selected_plugin ← match selection with
                    | [] => mret None
                    | first :: _ =>
                        row ← model_getitem first;
                        mret (Some (r_id (row_model row)))
                    end;
  for_each selection (λ tree_iter, _reload_row tree_iter selected_plugin).

End Window.

Arguments window : clear implicits.
Arguments Window {R C} _ _ _ _ _ _ _.
Arguments M : clear implicits.

(** ** A small registry and a small catalog manager *)

(** Modelled from the spec: a Plugin Registry (section 6) over a table of
    what importing each plugin gives.  [load] imports one plugin, [load_all]
    every plugin of the table and reports the ones that raise, [unload]
    forgets a plugin and with it its enabled state, [enable] accepts a
    loaded, compatible plugin. *)
Record registry := Registry {
  importable : list (string * result plugin_class);
  loaded : gmap string plugin_class;
  enabled : list string
}.

Definition registry_import (r : registry) (name : string) : result plugin_class :=
  match list_find (λ kv, fst kv = name) (importable r) with
  | Some (_, (_, res)) => res
  | None => Raise OtherException
  end.

Definition registry_load_all_fn (r : registry) : registry * list (string * exn) :=
  foldl (λ '(r, errors) '(name, res),
           match res with
           | Ok klass =>
               (Registry (importable r) (<[name := klass]> (loaded r)) (enabled r), errors)
           | Raise e => (r, errors ++ [(name, e)])
           end)
        (r, []) (importable r).

(** Modelled from the spec: the operations of the Plugin Registry (section 6)
    on the table above. *)
#[global] Instance registry_plugin_manager : PluginManager registry := {
  pm_loaded_plugins := loaded;
  pm_enabled_plugins := enabled;
  pm_contains r name := bool_decide (is_Some (loaded r !! name));
  pm_getitem r name := loaded r !! name;
  pm_load_all := registry_load_all_fn;
  pm_load r name :=
    match registry_import r name with
    | Ok klass =>
        (Registry (importable r) (<[name := klass]> (loaded r)) (enabled r), Ok klass)
    | Raise e => (r, Raise e)
    end;
  pm_unload r name :=
    Registry (importable r) (delete name (loaded r))
      (filter (λ n, n ≠ name) (enabled r));
  pm_enable r name :=
    match loaded r !! name with
    | Some klass =>
        if plugin_is_compatible klass
        then (Registry (importable r) (loaded r) (enabled r ++ [name]), true)
        else (r, false)
    | None => (r, false)
    end;
  pm_disable r name :=
    Registry (importable r) (loaded r) (filter (λ n, n ≠ name) (enabled r))
}.

(** A parsed catalog: its id and, per repository, the plugin collection. *)
Record catalog := MkCatalog {
  catalog_id : string;
  repositories : list (repository * list (string * plugin_info))
}.

(** Modelled from the spec: the catalog manager with its cache (sections 4.1
    and 6).  A cached document is a catalog, or [None] when it is not one;
    [network] is what the transport answers for a URL and for a plugin
    download. *)
Record catalog_manager := CatalogMgr {
  live : list catalog;
  cache : list (cache_entry (option catalog));
  clock : Z
}.

Definition find_catalog (l : list catalog) (id : string) : option catalog :=
  match list_find (λ c, catalog_id c = id) l with
  | Some (_, c) => Some c
  | None => None
  end.

Definition cache_entry_id (e : cache_entry (option catalog)) : option string :=
  catalog_id <$> value e.

Definition find_collection (m : catalog_manager) (cid rid : string)
    : list (string * plugin_info) :=
  match find_catalog (live m) cid with
  | Some c =>
      match list_find (λ rc, repo_id (fst rc) = rid) (repositories c) with
      | Some (_, (_, coll)) => coll
      | None => []
      end
  | None => []
  end.

(** Modelled from the spec: the operations of the catalog manager, of its
    cache ([get], [put], [get_by_id], section 4.1) and of the transport
    (section 6) on the record above. *)
Definition catalog_manager_instance
    (network : string → result catalog)
    (download : string → result unit)
    : CatalogManager catalog_manager (option catalog) catalog := {|
  ClientCatalogManager m := CatalogMgr [] (cache m) (clock m);
  Catalog doc := match doc with Some c => Ok c | None => Raise KeyError end;
  Catalog_from_url := network;
  get_catalog_by_url m u :=
    match list_find (λ e, url e = u) (cache m) with
    | Some (_, e) => Some e
    | None => None
    end;
  get_catalog_by_id m id :=
    match list_find (λ e, cache_entry_id e = Some id) (cache m) with
    | Some (_, e) => Some e
    | None => None
    end;
  cache_ids m := omap cache_entry_id (cache m);
  cache_repositories m id :=
    match list_find (λ e, cache_entry_id e = Some id) (cache m) with
    | Some (_, e) =>
        match value e with
        | Some c => map fst (repositories c)
        | None => []
        end
    | None => []
    end;
  add_catalog m c u to_cache :=
    CatalogMgr (filter (λ c', catalog_id c' ≠ catalog_id c) (live m) ++ [c])
      (if to_cache
       then filter (λ e, url e ≠ u) (cache m) ++ [CacheEntry (clock m) (Some c) u]
       else cache m)
      (clock m);
  catalog_ids m := map catalog_id (live m);
  catalogs_get m id := bool_decide (is_Some (find_catalog (live m) id));
  get_repositories m id :=
    match find_catalog (live m) id with
    | Some c => map fst (repositories c)
    | None => []
    end;
  get_collection := find_collection;
  is_compatible _ _ _ _ := true;
  install_plugin m cid rid pid plugin_path disk :=
    match download pid with
    | Ok _ => Ok ({[path_join plugin_path (pid +:+ ".py")]} ∪ disk)
    | Raise e => Raise e
    end
|}.

(** ** Vocabulary of the statements *)

(** Between [w] and [w'] nothing happened but the events [evs]: the
    configuration, the module errors, the rows, the registry, the catalog
    manager and the disk are the same. *)
Definition only_emitted {R C : Type} (w w' : window R C) (evs : list event) : Prop :=
  cfg w' = cfg w ∧ _module_errors w' = _module_errors w ∧ _model w' = _model w
  ∧ plugin_manager w' = plugin_manager w ∧ catalog_plugins w' = catalog_plugins w
  ∧ disk w' = disk w ∧ trace w' = trace w ++ evs.

(** Truth value of [config['plugins.installed'].get(name)]. *)
Definition record_truthy (entry : option (option install_src)) : bool :=
  match entry with Some (Some _) => true | _ => false end.

(** The Installation Record after the first loop of [_load_plugins] ran over
    [items]. *)
Definition record_loaded (items : list (string * plugin_class))
    (installed : gmap string (option install_src)) : gmap string (option install_src) :=
  foldl (λ inst '(name, _),
           if record_truthy (inst !! name) then inst else <[name := None]> inst)
        installed items.

(** [m] leaves the configuration and the registry alone, whatever it
    returns or raises. *)
Definition keeps_cfg {R C A : Type} (m : M R C A) : Prop :=
  ∀ w, cfg (m w).2 = cfg w ∧ plugin_manager (m w).2 = plugin_manager w.

(** The flags of a plugin row shown under catalog [catalog_id], repository
    [repo_id], against the persisted configuration [c]. *)
Definition row_flags_match (c : config) (catalog_id repo_id : string)
    (row : model_row) : Prop :=
  (r_installed row = Some true ∨ r_installed row = Some false)
  ∧ (r_installed row = Some true ↔
       ∃ src, plugins_installed c !! r_id row = Some (Some src)
              ∧ src_catalog_id src = catalog_id ∧ src_repo_id src = repo_id)
  ∧ (r_enabled row = true ↔
       r_installed row = Some true ∧ r_id row ∈ plugins_enabled c).

(** A leaf row of the store. *)
Definition leaf (m : model_row) : tree_row := TreeRow m [].



(** ** Example windows *)

Definition foo_class : plugin_class := PluginClass "foo" "Foo" "1.0" true.

Definition catalog_A : catalog :=
  MkCatalog "A" [(Repository "B" "Repo B", [("foo", PluginInfo "foo" "Foo" "1.0")])].
Definition catalog_C : catalog :=
  MkCatalog "C" [(Repository "D" "Repo D", [("foo", PluginInfo "foo" "Foo" "1.1")])].

(** A transport without a network. *)
Definition offline : CatalogManager catalog_manager (option catalog) catalog :=
  catalog_manager_instance (λ _, Raise ConnectionError) (λ _, Raise ConnectionError).

(** A transport that answers every request. *)
Definition online : CatalogManager catalog_manager (option catalog) catalog :=
  catalog_manager_instance (λ _, Ok catalog_A) (λ _, Ok tt).

Definition foo_registry (enabled : list string) : registry :=
  Registry [("foo", Ok foo_class)] {["foo" := foo_class]} enabled.

(** Before reconciliation: [foo] is installed from catalog A, repository B,
    with its file in the plugins directory, and is also offered by catalog C,
    repository D. *)
Definition two_sources_initial (enabled : list string)
    : window registry catalog_manager :=
  Window (Config [] {["foo" := Some (InstallSrc "A" "B" "foo")]} enabled)
    ∅ [] (foo_registry enabled) (CatalogMgr [catalog_A; catalog_C] [] 0)
    {[ "/plugins/foo.py" ]} [].

(** After reconciliation without a network: row [[1;0;0]] is [foo] under
    A/B, row [[2;0;0]] is [foo] under C/D. *)
Definition two_sources (enabled : list string) : window registry catalog_manager :=
  (_load_plugins (CM:=offline) (two_sources_initial enabled)).2.

(** The row of [foo] as reconciliation builds it under a repository. *)
Definition foo_row (installed enabled : bool) (version : string) : tree_row :=
  leaf (ModelRow "foo" (Some installed) enabled "Foo" (Some "Yes") (Some version)
          true true true ROW_TYPE_PLUGIN).

Definition repository_row (id title : string) (children : list tree_row) : tree_row :=
  TreeRow (ModelRow id None true title None None false false false ROW_TYPE_REPOSITORY)
    children.

Definition catalog_row (id : string) (children : list tree_row) : tree_row :=
  TreeRow (ModelRow id None true id None None false false false ROW_TYPE_CATALOG)
    children.

(** Nothing is installed and catalog C, repository D offers [foo]; after
    reconciliation row [[1;0;0]] is [foo] under C/D. *)
Definition offered : window registry catalog_manager :=
  (_load_plugins (CM:=offline)
     (Window (Config [] ∅ []) ∅ [] (Registry [] ∅ []) (CatalogMgr [catalog_C] [] 0) ∅ [])).2.

(** [foo] is a local plugin (record [None]) that is loaded and enabled, in
    the registry and in the Enabled Set, and whose file in the plugins
    directory no longer imports; catalog C, repository D offers [foo]. *)
Definition broken_plugin_initial : window registry catalog_manager :=
  Window (Config [] {["foo" := None]} ["foo"]) ∅ []
    (Registry [("foo", Raise OtherException)] {["foo" := foo_class]} ["foo"])
    (CatalogMgr [catalog_C] [] 0) {[ "/plugins/foo.py" ]} [].

(** What the user does next: the window is filled, the local row of [foo]
    ([[0;0]]) is reloaded, which fails, the tree is refreshed, and [foo] is
    installed from C/D (row [[1;0;0]]) in place of the local copy, the user
    confirming the replacement. *)
Definition replace_broken_plugin : M registry catalog_manager unit :=
  _load_plugins (CM:=online) ;;
  _reload_plugin [0; 0]%nat None ;;
  _load_plugins (CM:=online) ;;
  signal_renderer_toggled_install (CM:=online) "/plugins" (λ _, true) [1; 0; 0]%nat.

(** The reloaded module of [foo] declares requirements that are not met. *)
Definition foo_class_incompatible : plugin_class := PluginClass "foo" "Foo" "2.0" false.

(** [two_sources ["foo"]] with the registry's table changed: [foo] is loaded
    and enabled, and importing its module again gives [again]. *)
Definition enabled_then (again : result plugin_class) : window registry catalog_manager :=
  set_plugin_manager (Registry [("foo", again)] {["foo" := foo_class]} ["foo"])
    (two_sources ["foo"]).

(** [two_sources ["foo"]] with a module error on record for [foo]. *)
Definition enabled_with_error : window registry catalog_manager :=
  set_module_errors {["foo" := OtherException]} (two_sources ["foo"]).

(** Every member of the Enabled Set has an Installation Record. *)
Definition enabled_have_records (c : config) : Prop :=
  ∀ p, p ∈ plugins_enabled c → is_Some (plugins_installed c !! p).

(** A window whose cache holds, for one configured URL, a document that is
    not a catalog, stored one hour before the instant 7200000000. *)
Definition stale_doc_window : window registry catalog_manager :=
  Window (Config ["https://x/catalog.json"] ∅ []) ∅ [] (foo_registry [])
    (CatalogMgr [] [CacheEntry 3600000000 None "https://x/catalog.json"] 0) ∅ [].

(** The plugin's files are in the plugins directory, in either form. *)
Definition on_disk (plugin_path : string) (disk : gset string) (plugin_id : string) : bool :=
  isfile disk (path_join (path_join plugin_path plugin_id) "__init__.py")
  || isfile disk (path_join plugin_path (plugin_id +:+ ".py")).

(** [path] leads to a row with a repository row and a catalog row above it. *)
Definition plugin_row_at (s : list tree_row) (path : tree_path)
    (row repo catalog : tree_row) : Prop :=
  store_get s path = Some row
  ∧ ∃ pp gp, path_parent path = Some pp ∧ path_parent pp = Some gp
             ∧ store_get s pp = Some repo ∧ store_get s gp = Some catalog.

(** The source that the install handler records for a row under the given
    repository and catalog rows. *)
Definition new_src (row repo catalog : tree_row) : install_src :=
  InstallSrc (r_id (row_model catalog)) (r_id (row_model repo)) (r_id (row_model row)).

(** The Enabled Set without the first occurrence of [id], if there is one. *)
Definition without_first (id : string) (enabled : list string) : list string :=
  default enabled (list_remove id enabled).

(** ** Vocabulary of the further properties *)

(** The URLs that the transport was asked for, in order. *)
Definition fetches (evs : list event) : list string :=
  omap (λ e, match e with EvFetch u => Some u | _ => None end) evs.

(** [m] touches nothing but the rows of the store and the trace, where it
    asks the transport for nothing, whatever it returns or raises. *)
Definition quiet {R C A : Type} (m : M R C A) : Prop :=
  ∀ w, cfg (m w).2 = cfg w ∧ _module_errors (m w).2 = _module_errors w
       ∧ plugin_manager (m w).2 = plugin_manager w
       ∧ catalog_plugins (m w).2 = catalog_plugins w
       ∧ disk (m w).2 = disk w
       ∧ ∃ evs, trace (m w).2 = trace w ++ evs ∧ fetches evs = [].

(** The module errors that [load_all] reports, the last report of a name
    winning. *)
Definition reported_errors (errors : list (string * exn)) : gmap string exn :=
  foldl (λ m '(name, error), <[name := error]> m) ∅ errors.




(** The row at [path] hangs under a row whose id is that of the local
    catalog. *)
Definition parent_is_local (s : list tree_row) (path : tree_path) : bool :=
  match path_parent path with
  | Some pp =>
      match store_get s pp with
      | Some parent => bool_decide (r_id (row_model parent) = _LOCAL_REPOSITORY_ID)
      | None => false
      end
  | None => false
  end.

(** The disk after [_uninstall_plugin] found the plugin: the package
    directory goes when its marker file exists, else the single file. *)
Definition disk_without (plugin_path : string) (disk : gset string)
    (plugin_id : string) : gset string :=
  if isfile disk (path_join (path_join plugin_path plugin_id) "__init__.py")
  then rmtree disk (path_join plugin_path plugin_id)
  else os_remove disk (path_join plugin_path (plugin_id +:+ ".py")).

(** [m] leaves the Enabled Set, the configured catalog URLs and the disk
    alone, whatever it returns or raises. *)
Definition keeps_settings {R C A : Type} (m : M R C A) : Prop :=
  ∀ w, plugins_enabled (cfg (m w).2) = plugins_enabled (cfg w)
       ∧ catalogs (cfg (m w).2) = catalogs (cfg w)
       ∧ disk (m w).2 = disk w.

(** The catalog manager after [catalog_url] was asked for: the catalog is
    added and written to the cache when the transport delivers it. *)
Definition after_download {C Doc Cat : Type} {CM : CatalogManager C Doc Cat}
    (cp : C) (catalog_url : string) : C :=
  match Catalog_from_url catalog_url with
  | Ok catalog => add_catalog cp catalog catalog_url true
  | Raise _ => cp
  end.

(** ** Example windows of the further properties *)


(** [offered], with catalog C also in the cache under its URL. *)
Definition cached_C : window registry catalog_manager :=
  set_catalog_plugins
    (CatalogMgr [catalog_C] [CacheEntry 0 (Some catalog_C) "https://x/C.json"] 0)
    offered.

(** ** Properties *)

(** *** The tree store *)

Lemma store_get_parent (s : list tree_row) (p pp : tree_path) (t : tree_row) :
  store_get s p = Some t → path_parent p = Some pp →
  ∃ t', store_get s pp = Some t'.
Proof.
  revert s pp. induction p as [|i rest IH]; intros s pp Hget Hpp; [done|].
  destruct rest as [|j rest']; [done|].
  simpl in Hget. destruct (s !! i) as [ti|] eqn:Hi; [|done].
  injection Hpp as <-.
  destruct rest' as [|k rest''].
  - exists ti. simpl. by rewrite Hi.
  - change (removelast (i :: j :: k :: rest'')) with (i :: removelast (j :: k :: rest'')).
    destruct (IH (iterchildren ti) (removelast (j :: k :: rest'')) Hget eq_refl)
      as [t' Ht'].
    exists t'. simpl. rewrite Hi. simpl in Ht'. exact Ht'.
Qed.

Lemma store_get_alter (f : model_row → model_row) (s : list tree_row) (p : tree_path)
    (t : tree_row) :
  store_get s p = Some t →
  store_get (store_alter f s p) p = Some (TreeRow (f (row_model t)) (iterchildren t)).
Proof.
  revert s. induction p as [|i rest IH]; intros s Hget; [done|].
  simpl in *. destruct (s !! i) as [[m c]|] eqn:Hi; [|done].
  assert (i < length s)%nat by (by eapply lookup_lt_Some).
  destruct rest as [|j rest'].
  - injection Hget as <-. by rewrite list_lookup_insert_eq.
  - rewrite list_lookup_insert_eq by done. simpl. by apply IH.
Qed.

Lemma store_get_snoc (s : list tree_row) (p : tree_path) (t : tree_row) (i : nat) :
  store_get s p = Some t → store_get s (p ++ [i]) = iterchildren t !! i.
Proof.
  revert s. induction p as [|j rest IH]; intros s Hget; [done|].
  simpl in *. destruct (s !! j) as [tj|]; [|done].
  destruct rest as [|k rest'].
  - injection Hget as ->. simpl. by destruct (iterchildren t !! i).
  - simpl. simpl in IH. by apply IH.
Qed.

Lemma matching_repo_model_get (s : list tree_row)
    (plugin_src : option install_src) (repo_path : tree_path) (repo_model : tree_row) :
  matching_repo_model s plugin_src = Some (repo_path, repo_model) →
  store_get s repo_path = Some repo_model.
Proof.
  unfold matching_repo_model. destruct plugin_src as [src|].
  - destruct (list_find _ s) as [[ci cm]|] eqn:Hc; [|done].
    destruct (list_find _ (iterchildren cm)) as [[ri rm]|] eqn:Hr; [|done].
    intros ?; simplify_eq.
    apply list_find_Some in Hc as (Hc & _). apply list_find_Some in Hr as (Hr & _).
    simpl. rewrite Hc. simpl. by rewrite Hr.
  - destruct (list_find _ s) as [[ci cm]|] eqn:Hc; [|done].
    intros ?; simplify_eq. apply list_find_Some in Hc as (Hc & _). simpl. by rewrite Hc.
Qed.

(** *** The pieces of the monad *)

Section Properties.
Context {R C Doc Cat : Type} {PM : PluginManager R} {CM : CatalogManager C Doc Cat}.
Variable plugin_path : string.
Variable answer : string → bool.

Set Default Proof Using "Type".

Lemma model_getitem_Some (w : window R C) (path : tree_path) (t : tree_row) :
  store_get (_model w) path = Some t → model_getitem path w = (Ok t, w).
Proof. intros H. unfold model_getitem, gets, mbind, M_bind. by rewrite H. Qed.

Lemma model_getitem_None (w : window R C) (path : tree_path) :
  store_get (_model w) path = None → model_getitem path w = (Raise IndexError, w).
Proof. intros H. unfold model_getitem, gets, mbind, M_bind. by rewrite H. Qed.

(** *** [list.remove] *)

Lemma list_remove_Some (x : string) (l r : list string) :
  list_remove x l = Some r ↔ ∃ l1 l2, l = l1 ++ x :: l2 ∧ (x ∉ l1) ∧ r = l1 ++ l2.
Proof.
  revert r. induction l as [|y l IH]; intros r; simpl.
  - split; [done|]. intros (l1 & l2 & Hl & _). by destruct l1.
  - destruct (decide (x = y)) as [->|Hne].
    + split.
      * intros [= <-]. exists [], l. split_and!; [done| |done]. apply not_elem_of_nil.
      * intros (l1 & l2 & Hl & Hnin & ->). destruct l1 as [|z l1].
        -- by injection Hl as ->.
        -- injection Hl as -> _. exfalso. apply Hnin. left.
    + destruct (list_remove x l) as [r'|] eqn:Hr.
      * split.
        -- intros [= <-]. destruct (proj1 (IH r') eq_refl) as (l1 & l2 & -> & Hnin & ->).
           exists (y :: l1), l2. split_and!; [done| |done].
           rewrite elem_of_cons. intros [?|?]; done.
        -- intros (l1 & l2 & Hl & Hnin & ->). destruct l1 as [|z l1].
           ++ injection Hl as ? _. done.
           ++ injection Hl as <- ->. f_equal. simpl. f_equal.
              apply not_elem_of_cons in Hnin as [_ Hnin].
              assert (Some r' = Some (l1 ++ l2)) as [= ->]; [|done].
              apply IH. by exists l1, l2.
      * split; [done|]. intros (l1 & l2 & Hl & Hnin & ->). destruct l1 as [|z l1].
        -- injection Hl as ? _. done.
        -- injection Hl as <- ->.
           apply not_elem_of_cons in Hnin as [_ Hnin].
           assert (None = Some (l1 ++ l2)) as [=]. apply IH. by exists l1, l2.
Qed.

Lemma list_remove_None (x : string) (l : list string) :
  list_remove x l = None ↔ x ∉ l.
Proof.
  induction l as [|y l IH]; simpl.
  - split; [intros _; apply not_elem_of_nil|done].
  - destruct (decide (x = y)) as [->|Hne].
    + split; [done|]. intros H. exfalso. apply H. left.
    + rewrite not_elem_of_cons. destruct (list_remove x l); split; try done.
      * intros [_ H]. by apply IH in H.
      * intros _. split; [done|]. by apply IH.
Qed.

Lemma list_remove_subseteq (x : string) (l r : list string) :
  list_remove x l = Some r → r ⊆ l.
Proof.
  clear plugin_path answer.
  intros (l1 & l2 & -> & _ & ->)%list_remove_Some y.
  rewrite !elem_of_app, elem_of_cons. tauto.
Qed.

Lemma list_remove_NoDup (x : string) (l r : list string) :
  list_remove x l = Some r → NoDup l → x ∉ r.
Proof.
  clear plugin_path answer.
  intros (l1 & l2 & -> & Hnin & ->)%list_remove_Some Hnd.
  apply NoDup_app in Hnd as (_ & _ & Hnd). apply NoDup_cons in Hnd as [Hx _].
  rewrite elem_of_app. tauto.
Qed.

(** *** Disable *)

Lemma _disable_plugin_spec (w : window R C) (path : tree_path) (is_path : bool)
    (row : tree_row) :
  store_get (_model w) path = Some row →
  let id := r_id (row_model row) in
  ∃ w', _disable_plugin path is_path w =
          (match list_remove id (plugins_enabled (cfg w)) with
           | Some _ => Ok tt
           | None => Raise ValueError
           end, w')
    ∧ catalogs (cfg w') = catalogs (cfg w)
    ∧ plugins_installed (cfg w') = plugins_installed (cfg w)
    ∧ plugins_enabled (cfg w') =
        default (plugins_enabled (cfg w)) (list_remove id (plugins_enabled (cfg w)))
    ∧ _module_errors w' = _module_errors w
    ∧ _model w' =
        match list_remove id (plugins_enabled (cfg w)) with
        | Some _ => store_alter (set_enabled false) (_model w) path
        | None => _model w
        end
    ∧ plugin_manager w' = pm_disable (plugin_manager w) id
    ∧ catalog_plugins w' = catalog_plugins w
    ∧ disk w' = disk w
    ∧ trace w' = trace w ++ [EvRegistry (PmDisable id)].
Proof.
  intros Hget id.
  unfold _disable_plugin, mbind, M_bind.
  rewrite (model_getitem_Some _ _ _ Hget). simpl. fold id.
  destruct (list_remove id (plugins_enabled (cfg w))) as [enabled'|] eqn:Hrm.
  - simpl. destruct is_path.
    + unfold _set_model_item, mbind, M_bind.
      erewrite model_getitem_Some by (simpl; exact Hget). simpl.
      eexists. split; [reflexivity|]. simpl. done.
    + simpl. eexists. split; [reflexivity|]. simpl. done.
  - simpl. eexists. split; [reflexivity|]. simpl. done.
Qed.

(** C7, as the code has it: [_disable_plugin] asks the registry to disable
    the plugin and then removes the first occurrence of its id from the
    Enabled Set; it succeeds when the id is there (and the id is gone when
    it was listed once).  When the id is not there the registry has been
    asked all the same and [list.remove] raises [ValueError], the Enabled
    Set being as before.  The Installation Record is not touched. *)
Theorem disable_removes_first_occurrence (w : window R C) (path : tree_path)
    (is_path : bool) (row : tree_row) :
  store_get (_model w) path = Some row →
  let id := r_id (row_model row) in
  let enabled := plugins_enabled (cfg w) in
  ∃ w',
    (id ∈ enabled →
       _disable_plugin path is_path w = (Ok tt, w')
       ∧ (∃ l1 l2, enabled = l1 ++ id :: l2 ∧ (id ∉ l1)
                   ∧ plugins_enabled (cfg w') = l1 ++ l2)
       ∧ (NoDup enabled → id ∉ plugins_enabled (cfg w')))
    ∧ (id ∉ enabled →
         _disable_plugin path is_path w = (Raise ValueError, w')
         ∧ plugins_enabled (cfg w') = enabled)
    ∧ plugins_installed (cfg w') = plugins_installed (cfg w)
    ∧ plugin_manager w' = pm_disable (plugin_manager w) id.
Proof.
  intros Hget id enabled.
  destruct (_disable_plugin_spec w path is_path row Hget)
    as (w' & Hrun & _ & Hinst & Hen & _ & _ & Hpm & _).
  fold id in Hrun, Hen, Hpm. fold enabled in Hrun, Hen.
  exists w'. split_and!; [| |done|done].
  - intros Hin. destruct (list_remove id enabled) as [r|] eqn:Hrm.
    + split_and!; [done| |].
      * apply list_remove_Some in Hrm as (l1 & l2 & H1 & H2 & H3).
        exists l1, l2. by rewrite Hen, H3.
      * intros Hnd. rewrite Hen. simpl. by eapply list_remove_NoDup.
    + by apply list_remove_None in Hrm.
  - intros Hnin. apply list_remove_None in Hnin. rewrite Hnin in Hrun, Hen. done.
Qed.

(** *** Uninstall *)

(** C6: when neither the package directory with its marker file nor the
    single file [<id>.py] exists, [_uninstall_plugin] returns [False] and
    nothing happens but the logged warning: the Installation Record entry of
    the plugin is as before and the registry is not asked to unload it. *)
Theorem uninstall_not_on_disk (w : window R C) (model_path : tree_path)
    (model_row : tree_row) :
  store_get (_model w) model_path = Some model_row →
  let plugin_id := r_id (row_model model_row) in
  isfile (disk w) (path_join (path_join plugin_path plugin_id) "__init__.py") = false →
  isfile (disk w) (path_join plugin_path (plugin_id +:+ ".py")) = false →
  ∃ w', _uninstall_plugin plugin_path model_path w = (Ok false, w')
    ∧ only_emitted w w'
        [EvLog WARNING ("failed to find plugin " +:+ plugin_id +:+ " on disk for removal")]
    ∧ plugins_installed (cfg w') !! plugin_id = plugins_installed (cfg w) !! plugin_id
    ∧ plugin_manager w' = plugin_manager w
    ∧ EvRegistry (PmUnload plugin_id) ∉ drop (length (trace w)) (trace w').
Proof.
  intros Hget plugin_id Hpkg Hpy.
  unfold _uninstall_plugin, mbind, M_bind.
  rewrite (model_getitem_Some _ _ _ Hget). simpl.
  fold plugin_id. rewrite Hpkg, Hpy. simpl.
  eexists. split; [reflexivity|]. unfold only_emitted. simpl. split_and!; try done.
  rewrite drop_app_length. by intros [=]%list_elem_of_singleton.
Qed.

(** *** Enable *)

(** What the enable toggle does on a row that is not shown as enabled. *)
Lemma signal_renderer_toggled_enable_spec (w : window R C) (path : tree_path) (row : tree_row)
    (klass : plugin_class) :
  store_get (_model w) path = Some row →
  r_type (row_model row) = ROW_TYPE_PLUGIN →
  r_enabled (row_model row) = false →
  let id := r_id (row_model row) in
  pm_loaded_plugins (plugin_manager w) !! id = Some klass →
  ∃ w', signal_renderer_toggled_enable path w = (Ok tt, w')
    ∧ (is_Some (_module_errors w !! id) →
         only_emitted w w'
           [EvDialogError "Can Not Enable Plugin"
              "Can not enable a plugin which failed to load."])
    ∧ (_module_errors w !! id = None → plugin_is_compatible klass = false →
         only_emitted w w'
           [EvDialogError "Incompatible Plugin" "This plugin is not compatible."])
    ∧ (_module_errors w !! id = None → plugin_is_compatible klass = true →
         (pm_enable (plugin_manager w) id).2 = true →
         plugins_enabled (cfg w') = plugins_enabled (cfg w) ++ [id]
         ∧ plugins_installed (cfg w') = plugins_installed (cfg w)
         ∧ store_get (_model w') path
             = Some (TreeRow (set_enabled true (row_model row)) (iterchildren row))
         ∧ plugin_manager w' = (pm_enable (plugin_manager w) id).1
         ∧ trace w' = trace w ++ [EvRegistry (PmEnable id)])
    ∧ (_module_errors w !! id = None → plugin_is_compatible klass = true →
         (pm_enable (plugin_manager w) id).2 = false →
         cfg w' = cfg w ∧ _model w' = _model w
         ∧ plugin_manager w' = (pm_enable (plugin_manager w) id).1
         ∧ trace w' = trace w ++ [EvRegistry (PmEnable id)]).
Proof.
  intros Hget Htype Hen id Hloaded.
  unfold signal_renderer_toggled_enable, mbind, M_bind.
  rewrite (model_getitem_Some _ _ _ Hget). simpl. fold id.
  rewrite Htype, Hen. simpl. rewrite Hloaded. simpl.
  destruct (_module_errors w !! id) as [e|] eqn:Herr.
  - rewrite bool_decide_eq_true_2 by eauto. simpl.
    eexists. split; [reflexivity|]. unfold only_emitted. simpl.
    split_and!; done.
  - rewrite bool_decide_eq_false_2 by (by intros [? [=]]). simpl.
    destruct (plugin_is_compatible klass) eqn:Hcompat; simpl.
    + unfold registry_enable, mbind, M_bind. simpl.
      destruct (pm_enable (plugin_manager w) id) as [pm' ok] eqn:Hpm. simpl.
      destruct ok; simpl.
      * unfold _set_model_item, mbind, M_bind.
        erewrite model_getitem_Some by (simpl; exact Hget). simpl.
        eexists. split; [reflexivity|]. simpl.
        split_and!; try done. intros _ _ _. split_and!; try done.
        by apply store_get_alter.
      * eexists. split; [reflexivity|]. simpl.
        split_and!; try done.
    + eexists. split; [reflexivity|]. unfold only_emitted. simpl.
      split_and!; try done.
Qed.

(** *** Reload *)

Lemma append_assoc (a b c : string) : (a +:+ b) +:+ c = a +:+ (b +:+ c).
Proof.
  induction a as [|x a IH]; [done|].
  change (String x ((a +:+ b) +:+ c) = String x (a +:+ b +:+ c)). by rewrite IH.
Qed.

(** What [_reload_plugin] does, by the outcome of the import. *)
Lemma _reload_plugin_spec (w : window R C) (tree_iter : tree_path) (row : tree_row)
    (selected_plugin : option string) :
  store_get (_model w) tree_iter = Some row →
  let id := r_id (row_model row) in
  let was_enabled := list_in id (pm_enabled_plugins (plugin_manager w)) in
  let unloaded := pm_unload (plugin_manager w) id in
  ∃ w', _reload_plugin tree_iter selected_plugin w = (Ok tt, w')
    ∧ cfg w' = cfg w
    ∧ match (pm_load unloaded id).2 with
      | Raise error =>
          _module_errors w' = <[id := error]> (_module_errors w)
          ∧ (r_title ∘ row_model) <$> store_get (_model w') tree_iter
              = Some (id +:+ " (Reload Failed)")
          ∧ (∃ before after,
               (r_title ∘ row_model) <$> store_get (_model w') tree_iter
                 = Some (before +:+ "Reload Failed" +:+ after))
          ∧ plugin_manager w' = (pm_load unloaded id).1
          ∧ EvRegistry (PmEnable id) ∉ drop (length (trace w)) (trace w')
      | Ok klass =>
          _module_errors w' = delete id (_module_errors w)
          ∧ row_model <$> store_get (_model w') tree_iter
              = Some (set_version (plugin_version klass)
                        (set_compatibility
                           (if plugin_is_compatible klass then "Yes" else "No")
                           (set_title (plugin_title klass) (row_model row))))
          ∧ plugin_manager w' =
              (if was_enabled then (pm_enable (pm_load unloaded id).1 id).1
               else (pm_load unloaded id).1)
          ∧ (EvRegistry (PmEnable id) ∈ drop (length (trace w)) (trace w')
             ↔ was_enabled = true)
      end.
Proof.
  clear plugin_path answer.
  intros Hget id was_enabled unloaded.
  unfold _reload_plugin, mbind, M_bind.
  rewrite (model_getitem_Some _ _ _ Hget). simpl. fold id.
  unfold try_except, registry_load, mbind, M_bind. simpl.
  fold unloaded.
  destruct (pm_load unloaded id) as [pm2 [klass|error]] eqn:Hload; simpl.
  - unfold _set_model_item, mbind, M_bind.
    erewrite model_getitem_Some by (simpl; exact Hget). simpl.
    erewrite model_getitem_Some by (simpl; by apply store_get_alter). simpl.
    erewrite model_getitem_Some
      by (simpl; apply store_get_alter; by apply store_get_alter). simpl.
    assert (store_get
              (store_alter (set_version (plugin_version klass))
                 (store_alter
                    (set_compatibility (if plugin_is_compatible klass then "Yes" else "No"))
                    (store_alter (set_title (plugin_title klass)) (_model w) tree_iter)
                    tree_iter) tree_iter) tree_iter
            = Some (TreeRow
                      (set_version (plugin_version klass)
                         (set_compatibility
                            (if plugin_is_compatible klass then "Yes" else "No")
                            (set_title (plugin_title klass) (row_model row))))
                      (iterchildren row))) as Hfinal.
    { pose proof (store_get_alter (set_title (plugin_title klass)) _ _ _ Hget) as H1.
      pose proof (store_get_alter
                    (set_compatibility (if plugin_is_compatible klass then "Yes" else "No"))
                    _ _ _ H1) as H2.
      exact (store_get_alter (set_version (plugin_version klass)) _ _ _ H2). }
    fold was_enabled.
    destruct (decide (Some id = selected_plugin)); simpl;
      destruct was_enabled eqn:Hwas; simpl;
      unfold registry_enable, mbind, M_bind; simpl;
      try (destruct (pm_enable pm2 id) as [pm3 ok] eqn:Hen; simpl);
      (eexists; split; [reflexivity|]); simpl;
      (split_and!; [done|done|by rewrite Hfinal|done|]);
      rewrite <- ?app_assoc, drop_app_length;
      rewrite ?elem_of_app, ?elem_of_cons, ?list_elem_of_singleton, ?elem_of_nil;
      (split; [|first [done|tauto]]); intros H; decompose [or] H; done.
  - unfold _set_model_item, mbind, M_bind.
    destruct (decide (Some id = selected_plugin)); simpl;
      (erewrite model_getitem_Some by (simpl; exact Hget)); simpl;
      (eexists; split; [reflexivity|]); simpl;
      (split_and!; [done|done| | | |]).
    all: try (erewrite store_get_alter by done; done).
    all: try done.
    all: try (exists (id +:+ " ("), ")"; erewrite store_get_alter by done; simpl;
              by rewrite append_assoc).
    all: rewrite <- !app_assoc, drop_app_length;
      rewrite ?elem_of_app, ?elem_of_cons, ?list_elem_of_singleton, ?elem_of_nil;
      intros H; decompose [or] H; done.
Qed.

(** *** Install *)

Lemma _get_plugin_model_parents_Some (w : window R C) (path pp gp : tree_path)
    (repo catalog : tree_row) :
  path_parent path = Some pp → path_parent pp = Some gp →
  store_get (_model w) pp = Some repo → store_get (_model w) gp = Some catalog →
  _get_plugin_model_parents path w = (Ok (row_model repo, row_model catalog), w).
Proof.
  intros Hpp Hgp Hrepo Hcat. unfold _get_plugin_model_parents, mbind, M_bind.
  rewrite Hpp, Hgp.
  rewrite (model_getitem_Some _ _ _ Hrepo), (model_getitem_Some _ _ _ Hcat). done.
Qed.

(** What the install handler does from the download on when the transport
    raises: the two dialogs differ, the state does not change. *)
Lemma install_from_raises (w : window R C) (path : tree_path)
    (catalog_model repo_model named_row : model_row) (e : exn) :
  install_plugin (catalog_plugins w) (r_id catalog_model) (r_id repo_model)
    (r_id named_row) plugin_path (disk w) = Raise e →
  ∃ w', install_from plugin_path path catalog_model repo_model named_row w = (Ok tt, w')
    ∧ only_emitted w w'
        ([EvStatus ("Installing plugin " +:+ r_title named_row +:+ "...");
          EvInstall (r_id catalog_model) (r_id repo_model) (r_id named_row)] ++
         (if decide (e = ConnectionError) then
            [EvLog WARNING ("failed to download plugin " +:+ r_id named_row);
             EvDialogError "Failed To Install"
               ("Failed to download " +:+ r_id named_row
                  +:+ " plugin, check your internet connection.")]
          else
            [EvLog WARNING ("failed to install plugin " +:+ r_id named_row);
             EvDialogError "Failed To Install"
               ("Failed to install " +:+ r_id named_row +:+ " plugin.");
             EvStatus ("Installing plugin " +:+ r_title named_row +:+ " failed.")])).
Proof.
  intros Hraise. unfold install_from, try_except, mbind, M_bind. simpl.
  rewrite Hraise. simpl.
  destruct (decide (e = ConnectionError)); simpl;
    (eexists; split; [reflexivity|]); unfold only_emitted; simpl;
    split_and!; try done; by rewrite <- !app_assoc.
Qed.

(** C9: installing a plugin that has no Installation Record while the
    transport raises a connection error.  The handler returns normally, the
    error dialog that tells the user to check the internet connection is
    shown, and nothing else changes: the Installation Record has no entry
    for the plugin afterwards. *)
Theorem install_connectivity_error (w : window R C) (path pp gp : tree_path)
    (row repo catalog : tree_row) :
  store_get (_model w) path = Some row →
  path_parent path = Some pp → path_parent pp = Some gp →
  store_get (_model w) pp = Some repo → store_get (_model w) gp = Some catalog →
  installed_truthy (row_model row) = false →
  let id := r_id (row_model row) in
  plugins_installed (cfg w) !! id = None →
  install_plugin (catalog_plugins w) (r_id (row_model catalog)) (r_id (row_model repo))
    id plugin_path (disk w) = Raise ConnectionError →
  ∃ w', signal_renderer_toggled_install plugin_path answer path w = (Ok tt, w')
    ∧ plugins_installed (cfg w') !! id = None
    ∧ cfg w' = cfg w
    ∧ EvDialogError "Failed To Install"
        ("Failed to download " +:+ id +:+ " plugin, check your internet connection.")
        ∈ drop (length (trace w)) (trace w').
Proof.
  intros Hget Hpp Hgp Hrepo Hcat Hinst id Hrec Hraise.
  unfold signal_renderer_toggled_install, mbind, M_bind.
  rewrite (model_getitem_Some _ _ _ Hget).
  rewrite (_get_plugin_model_parents_Some _ _ _ _ _ _ Hpp Hgp Hrepo Hcat).
  rewrite (model_getitem_Some _ _ _ Hget). simpl.
  rewrite Hinst. simpl. fold id. rewrite Hrec. simpl.
  destruct (install_from_raises w path _ _ _ _ Hraise)
    as (w' & -> & Hcfg & _ & _ & _ & _ & _ & Htrace).
  exists w'. split_and!; [done|by rewrite Hcfg|done|].
  rewrite Htrace, drop_app_length. fold id.
  rewrite decide_True by done.
  rewrite !elem_of_app, !elem_of_cons. tauto.
Qed.

(** *** Reconciliation *)

Lemma keeps_ret {A} (a : A) : keeps_cfg (mret a : M R C A).
Proof. done. Qed.

Lemma keeps_raise {A} (e : exn) : keeps_cfg (raise e : M R C A).
Proof. done. Qed.

Lemma keeps_gets {A} (f : window R C → A) : keeps_cfg (gets f).
Proof. done. Qed.

Lemma keeps_emit (e : event) : keeps_cfg (emit (R:=R) (C:=C) e).
Proof. done. Qed.

Lemma keeps_bind {A B} (m : M R C A) (k : A → M R C B) :
  keeps_cfg m → (∀ a, keeps_cfg (k a)) → keeps_cfg (m ≫= k).
Proof.
  intros Hm Hk w. unfold mbind, M_bind. specialize (Hm w).
  destruct (m w) as [[a|e] w1]; simpl in *; [|done].
  destruct (Hk a w1) as [-> ->]. done.
Qed.

Lemma keeps_for_each {A} (l : list A) (body : A → M R C unit) :
  (∀ a, keeps_cfg (body a)) → keeps_cfg (for_each l body).
Proof.
  intros Hbody. induction l as [|a l IH]; simpl; [apply keeps_ret|].
  apply keeps_bind; [apply Hbody|]. intros _. apply IH.
Qed.

Lemma keeps_store_append (parent : tree_path) (model : model_row) :
  keeps_cfg (_store_append (R:=R) (C:=C) parent model).
Proof.
  intros w. unfold _store_append. by destruct (store_append _ _ _).
Qed.

Lemma keeps_store_extend (parent : tree_path) (models : list model_row) :
  keeps_cfg (_store_extend (R:=R) (C:=C) parent models).
Proof.
  apply keeps_for_each. intros m. apply keeps_bind; [apply keeps_store_append|].
  intros _. apply keeps_ret.
Qed.

Lemma keeps_add_plugins_to_tree (catalog_id : string) (repo : repository)
    (parent : tree_path) (plugin_list : list (string * plugin_info)) :
  keeps_cfg (_add_plugins_to_tree (R:=R) catalog_id repo parent plugin_list).
Proof.
  unfold _add_plugins_to_tree.
  apply keeps_bind; [apply keeps_gets|]. intros c.
  apply keeps_bind; [apply keeps_gets|]. intros cp. apply keeps_store_extend.
Qed.

Lemma keeps_add_plugins_offline (catalog_id repo_id : string) (parent : tree_path) :
  keeps_cfg (_add_plugins_offline (C:=C) catalog_id repo_id parent).
Proof.
  unfold _add_plugins_offline.
  apply keeps_bind; [apply keeps_gets|]. intros c.
  apply keeps_bind; [apply keeps_gets|]. intros pm.
  destruct (_add_plugins_offline_models _ _ _ _ _);
    [apply keeps_store_extend|apply keeps_raise].
Qed.

Lemma keeps_add_catalog_to_tree (catalog_id : string) :
  keeps_cfg (_add_catalog_to_tree (R:=R) catalog_id).
Proof.
  unfold _add_catalog_to_tree.
  apply keeps_bind; [apply keeps_store_append|]. intros catalog_row.
  apply keeps_bind; [apply keeps_gets|]. intros cp.
  apply keeps_for_each. intros repo.
  apply keeps_bind; [apply keeps_store_append|]. intros repo_row.
  destruct (get_collection _ _ _); [apply keeps_ret|apply keeps_add_plugins_to_tree].
Qed.

Lemma for_each_load_errors (errors : list (string * exn)) (w : window R C) :
  ∃ w', for_each errors (λ '(name, error), _on_plugin_load_error name error) w
          = (Ok tt, w')
    ∧ cfg w' = cfg w ∧ plugin_manager w' = plugin_manager w
    ∧ _model w' = _model w.
Proof.
  revert w. induction errors as [|[name e] errors IH]; intros w; simpl.
  - by exists w.
  - unfold mbind, M_bind. simpl.
    destruct (IH (set_module_errors (<[name := e]> (_module_errors w)) w))
      as (w' & -> & ? & ? & ?).
    by exists w'.
Qed.

Lemma registry_load_all_spec (w : window R C) :
  ∃ w', registry_load_all w = (Ok tt, w')
    ∧ cfg w' = cfg w
    ∧ plugin_manager w' = (pm_load_all (plugin_manager w)).1
    ∧ _model w' = _model w.
Proof.
  unfold registry_load_all, mbind, M_bind. simpl.
  destruct (pm_load_all (plugin_manager w)) as [pm' errors]. simpl.
  match goal with
  | |- context [for_each errors ?f ?w0] =>
      destruct (for_each_load_errors errors w0) as (w' & -> & ? & ? & ?)
  end.
  by exists w'.
Qed.

Lemma _load_plugins_local_models_spec (items : list (string * plugin_class))
    (w : window R C) :
  ∃ models w', _load_plugins_local_models items w = (Ok models, w')
    ∧ catalogs (cfg w') = catalogs (cfg w)
    ∧ plugins_installed (cfg w') = record_loaded items (plugins_installed (cfg w))
    ∧ plugins_enabled (cfg w') = plugins_enabled (cfg w)
    ∧ plugin_manager w' = plugin_manager w.
Proof.
  revert w. induction items as [|[name plugin] items IH]; intros w; simpl.
  - by exists [], w.
  - unfold mbind, M_bind. simpl.
    destruct (plugins_installed (cfg w) !! name) as [[src|]|] eqn:Hrec; simpl.
    + apply IH.
    + match goal with
      | |- context [_load_plugins_local_models items ?w0] =>
          destruct (IH w0) as (models & w' & -> & ? & ? & ? & ?)
      end.
      eexists _, w'. split; [reflexivity|]. done.
    + match goal with
      | |- context [_load_plugins_local_models items ?w0] =>
          destruct (IH w0) as (models & w' & -> & ? & ? & ? & ?)
      end.
      eexists _, w'. split; [reflexivity|]. done.
Qed.

Lemma record_loaded_truthy (items : list (string * plugin_class))
    (installed : gmap string (option install_src)) (name : string) :
  record_truthy (installed !! name) = true →
  record_loaded items installed !! name = installed !! name.
Proof.
  revert installed. induction items as [|[n p] items IH]; intros installed Ht; [done|].
  simpl. destruct (record_truthy (installed !! n)) eqn:Hn; [by apply IH|].
  destruct (decide (n = name)) as [->|Hne]; [congruence|].
  rewrite IH; rewrite lookup_insert_ne by done; done.
Qed.

Lemma record_loaded_not_listed (items : list (string * plugin_class))
    (installed : gmap string (option install_src)) (name : string) :
  name ∉ items.*1 →
  record_loaded items installed !! name = installed !! name.
Proof.
  revert installed. induction items as [|[n p] items IH]; intros installed Hn; [done|].
  simpl in *. apply not_elem_of_cons in Hn as [Hne Hn].
  destruct (record_truthy (installed !! n)); [by apply IH|].
  rewrite IH by done. by rewrite lookup_insert_ne.
Qed.

Lemma record_loaded_is_Some (items : list (string * plugin_class))
    (installed : gmap string (option install_src)) (name : string) :
  is_Some (installed !! name) → is_Some (record_loaded items installed !! name).
Proof.
  revert installed. induction items as [|[n p] items IH]; intros installed Hs; [done|].
  simpl. destruct (record_truthy (installed !! n)); [by apply IH|].
  apply IH. destruct (decide (n = name)) as [->|Hne].
  - rewrite lookup_insert_eq. eauto.
  - by rewrite lookup_insert_ne.
Qed.

Lemma record_loaded_falsy (items : list (string * plugin_class))
    (installed : gmap string (option install_src)) (name : string) :
  name ∈ items.*1 → record_truthy (installed !! name) = false →
  record_loaded items installed !! name = Some None.
Proof.
  revert installed. induction items as [|[n p] items IH]; intros installed Hin Hf.
  - by apply elem_of_nil in Hin.
  - simpl in *.
    assert (∀ inst : gmap string (option install_src),
              inst !! name = Some None → record_loaded items inst !! name = Some None)
      as Hkeep.
    { intros inst Hi. destruct (decide (name ∈ items.*1)) as [Hl|Hl].
      - apply IH; [done|]. by rewrite Hi.
      - by rewrite record_loaded_not_listed. }
    destruct (decide (n = name)) as [->|Hne].
    + rewrite Hf. apply Hkeep. by rewrite lookup_insert_eq.
    + apply elem_of_cons in Hin as [?|Hin]; [done|].
      destruct (record_truthy (installed !! n)); [by apply IH|].
      apply IH; [done|]. by rewrite lookup_insert_ne.
Qed.

(** The configuration and the registry after [_load_plugins], whatever
    the rest of the tree building does. *)
Lemma _load_plugins_cfg (w : window R C) :
  let w' := (_load_plugins w).2 in
  let pm1 := (pm_load_all (plugin_manager w)).1 in
  plugin_manager w' = pm1
  ∧ catalogs (cfg w') = catalogs (cfg w)
  ∧ plugins_installed (cfg w')
      = record_loaded (map_to_list (pm_loaded_plugins pm1)) (plugins_installed (cfg w))
  ∧ plugins_enabled (cfg w') = plugins_enabled (cfg w).
Proof.
  intros w' pm1.
  assert (∃ (w3 : window R C) (rest : M R C unit),
            _load_plugins w = rest w3 ∧ keeps_cfg rest
            ∧ plugin_manager w3 = pm1
            ∧ catalogs (cfg w3) = catalogs (cfg w)
            ∧ plugins_installed (cfg w3)
                = record_loaded (map_to_list (pm_loaded_plugins pm1))
                    (plugins_installed (cfg w))
            ∧ plugins_enabled (cfg w3) = plugins_enabled (cfg w))
    as (w3 & rest & Hrun & Hkeep & Hp & Hc & Hi & He).
  { unfold _load_plugins. unfold mbind at 1 2 3 4 5. unfold M_bind. simpl.
    match goal with
    | |- context [registry_load_all ?w0] =>
        destruct (registry_load_all_spec w0) as (w1 & -> & Hc1 & Hp1 & Hm1)
    end.
    simpl in Hc1, Hp1, Hm1.
    unfold mbind at 1. unfold _store_append at 1.
    destruct (store_append (_model w1) [] _) as [s2 p2] eqn:Happ.
    unfold mbind at 1. unfold gets at 1.
    cbn [plugin_manager set_model].
    unfold mbind at 1.
    destruct (_load_plugins_local_models_spec
                (map_to_list (pm_loaded_plugins (plugin_manager w1))) (set_model s2 w1))
      as (models & w3 & -> & Hc3 & Hi3 & He3 & Hp3).
    simpl in Hc3, Hi3, He3, Hp3.
    eexists w3, _. split; [reflexivity|].
    split.
    { apply keeps_bind; [apply keeps_store_extend|]. intros _.
      apply keeps_bind; [apply keeps_gets|]. intros errors.
      apply keeps_bind.
      { apply keeps_for_each. intros [name e].
        apply keeps_bind; [apply keeps_store_append|]. intros _. apply keeps_ret. }
      intros _. apply keeps_bind; [apply keeps_emit|]. intros _.
      apply keeps_bind; [apply keeps_gets|]. intros cp.
      apply keeps_bind.
      { apply keeps_for_each. intros cid. apply keeps_add_catalog_to_tree. }
      intros _. apply keeps_bind.
      { apply keeps_for_each. intros cid.
        destruct (catalogs_get cp cid); [apply keeps_ret|].
        apply keeps_bind; [apply keeps_store_append|]. intros catalog_row.
        apply keeps_for_each. intros repo.
        apply keeps_bind; [apply keeps_store_append|]. intros repo_row.
        apply keeps_add_plugins_offline. }
      intros _. apply keeps_bind; [apply keeps_emit|]. intros _. apply keeps_emit. }
    unfold pm1. rewrite Hp3, Hc3, Hi3, He3, Hp1, Hc1. done. }
  unfold w'. rewrite Hrun. destruct (Hkeep w3) as [-> ->]. done.
Qed.

(** C10: reconciliation writes to the persisted Installation Record.
    Every plugin the registry has loaded after [load_all] is a key of the
    record afterwards; an id without a truthy entry beforehand is mapped to
    [None]; truthy entries and the entries of plugins that are not loaded
    are as before; the Enabled Set is as before.  This holds for the state
    [_load_plugins] leaves behind whether or not its tree building
    completes. *)
Theorem load_plugins_records_loaded_plugins (w : window R C) (name : string) :
  let w' := (_load_plugins w).2 in
  let loaded := pm_loaded_plugins (plugin_manager w') in
  let before := plugins_installed (cfg w) in
  let after := plugins_installed (cfg w') in
  plugin_manager w' = (pm_load_all (plugin_manager w)).1
  ∧ (is_Some (loaded !! name) → is_Some (after !! name))
  ∧ (is_Some (loaded !! name) → record_truthy (before !! name) = false →
       after !! name = Some None)
  ∧ (record_truthy (before !! name) = true → after !! name = before !! name)
  ∧ (loaded !! name = None → after !! name = before !! name)
  ∧ plugins_enabled (cfg w') = plugins_enabled (cfg w).
Proof.
  intros w' loaded before after.
  destruct (_load_plugins_cfg w) as (Hpm & _ & Hinst & Hen).
  fold w' in Hpm, Hinst, Hen. fold before in Hinst. fold after in Hinst.
  assert (∀ n, is_Some (loaded !! n)
               ↔ n ∈ (map_to_list (pm_loaded_plugins (pm_load_all (plugin_manager w)).1)).*1)
    as Hlisted.
  { intros n. unfold loaded. rewrite Hpm. split.
    - intros [k Hk]. apply list_elem_of_fmap. exists (n, k). split; [done|].
      by apply elem_of_map_to_list.
    - intros ([n' k] & -> & Hk)%list_elem_of_fmap.
      apply elem_of_map_to_list in Hk. eauto. }
  split_and!; [done| | | | |done].
  - intros Hl. rewrite Hinst.
    destruct (record_truthy (before !! name)) eqn:Ht.
    + rewrite record_loaded_truthy by done.
      destruct (before !! name) as [[?|]|]; simpl in Ht; try done; eauto.
    + rewrite record_loaded_falsy; [eauto| |done]. by apply Hlisted.
  - intros Hl Hf. rewrite Hinst. apply record_loaded_falsy; [|done]. by apply Hlisted.
  - intros Ht. rewrite Hinst. by apply record_loaded_truthy.
  - intros Hn. rewrite Hinst. apply record_loaded_not_listed.
    intros Hin%Hlisted. rewrite Hn in Hin. by destruct Hin.
Qed.

Lemma store_append_children (s : list tree_row) (parent : tree_path)
    (model m : model_row) (c : list tree_row) :
  store_get s parent = Some (TreeRow m c) →
  store_get (store_append s parent model).1 parent
    = Some (TreeRow m (c ++ [leaf model])).
Proof.
  revert s. induction parent as [|i rest IH]; intros s Hget; [done|].
  simpl in *. destruct (s !! i) as [[mi ci]|] eqn:Hi; [|done].
  assert (i < length s)%nat by (by eapply lookup_lt_Some).
  destruct rest as [|j rest'].
  - injection Hget as -> ->. simpl. by rewrite list_lookup_insert_eq.
  - specialize (IH ci Hget).
    destruct (store_append ci (j :: rest') model) as [c' p] eqn:Happ. simpl in *.
    by rewrite list_lookup_insert_eq.
Qed.

Lemma _store_extend_cons (w : window R C) (parent : tree_path)
    (model : model_row) (models : list model_row) :
  _store_extend parent (model :: models) w
  = _store_extend parent models
      (set_model (store_append (_model w) parent model).1 w).
Proof.
  unfold _store_extend. simpl. unfold mbind, M_bind, _store_append.
  by destruct (store_append (_model w) parent model).
Qed.

Lemma _store_extend_children (w : window R C) (parent : tree_path)
    (models : list model_row) (m : model_row) (c : list tree_row) :
  store_get (_model w) parent = Some (TreeRow m c) →
  ∃ w', _store_extend parent models w = (Ok tt, w')
    ∧ store_get (_model w') parent = Some (TreeRow m (c ++ map leaf models))
    ∧ cfg w' = cfg w ∧ trace w' = trace w.
Proof.
  revert w c. induction models as [|model models IH]; intros w c Hget.
  - exists w. by rewrite app_nil_r.
  - rewrite _store_extend_cons.
    pose proof (store_append_children _ _ model _ _ Hget) as Hget'.
    destruct (IH (set_model (store_append (_model w) parent model).1 w) _ Hget')
      as (w' & Hrun & Hch & Hcfg & Htr).
    exists w'. split_and!; [done| |done|done].
    by rewrite Hch, <- app_assoc.
Qed.

Lemma _add_plugins_to_tree_models_flags (c : config) (cp : C)
    (catalog_id : string) (repo : repository)
    (plugin_list : list (string * plugin_info)) (row : model_row) :
  row ∈ _add_plugins_to_tree_models c cp catalog_id repo plugin_list →
  row_flags_match c catalog_id (repo_id repo) row.
Proof.
  clear plugin_path answer.
  unfold _add_plugins_to_tree_models.
  intros ([key info] & -> & _)%list_elem_of_fmap. unfold row_flags_match. simpl.
  destruct (plugins_installed c !! info_name info) as [[src|]|] eqn:Hrec.
  - destruct (decide (repo_id repo = src_repo_id src)) as [Hr|Hr];
      destruct (decide (catalog_id = src_catalog_id src)) as [Hc|Hc];
      rewrite ?(bool_decide_eq_true_2 _ Hr), ?(bool_decide_eq_false_2 _ Hr),
        ?(bool_decide_eq_true_2 _ Hc), ?(bool_decide_eq_false_2 _ Hc); simpl.
    + split_and!; [by left| |].
      * split; [|done]. intros _. by exists src.
      * unfold list_in. rewrite bool_decide_eq_true. tauto.
    + split_and!; [by right| |].
      * split; [done|]. intros (src' & [= <-] & ? & ?). done.
      * split; [done|]. by intros [[=] _].
    + split_and!; [by right| |].
      * split; [done|]. intros (src' & [= <-] & ? & ?). done.
      * split; [done|]. by intros [[=] _].
    + split_and!; [by right| |].
      * split; [done|]. intros (src' & [= <-] & ? & ?). done.
      * split; [done|]. by intros [[=] _].
  - split_and!; [by right| |].
    + split; [done|]. by intros (src' & [=] & _).
    + split; [done|]. by intros [[=] _].
  - split_and!; [by right| |].
    + split; [done|]. by intros (src' & [=] & _).
    + split; [done|]. by intros [[=] _].
Qed.

Lemma _add_plugins_offline_models_flags (c : config) (pm : R)
    (catalog_id repo_id : string) (items : list (string * option install_src))
    (models : list model_row) (row : model_row) :
  (∀ name src, (name, src) ∈ items → plugins_installed c !! name = Some src) →
  _add_plugins_offline_models c pm catalog_id repo_id items = Ok models →
  row ∈ models → row_flags_match c catalog_id repo_id row.
Proof.
  clear plugin_path answer.
  revert models. induction items as [|[name src] items IH]; intros models Hitems Hrun Hin.
  - injection Hrun as <-. by apply elem_of_nil in Hin.
  - assert (∀ n s, (n, s) ∈ items → plugins_installed c !! n = Some s) as Hitems'.
    { intros n s Hn. apply Hitems. by right. }
    simpl in Hrun. destruct src as [src|]; [|by eapply IH].
    destruct (pm_contains pm name); simpl in Hrun; [|by eapply IH].
    destruct (decide (src_catalog_id src = catalog_id)) as [Hc|Hc];
      [rewrite (bool_decide_eq_true_2 _ Hc) in Hrun
      |rewrite (bool_decide_eq_false_2 _ Hc) in Hrun]; simpl in Hrun; [|by eapply IH].
    destruct (decide (src_repo_id src = repo_id)) as [Hr|Hr];
      [rewrite (bool_decide_eq_true_2 _ Hr) in Hrun
      |rewrite (bool_decide_eq_false_2 _ Hr) in Hrun]; simpl in Hrun; [|by eapply IH].
    destruct (pm_getitem pm name) as [klass|]; [|done].
    destruct (_add_plugins_offline_models c pm catalog_id repo_id items)
      as [models'|] eqn:Hrest; [|done].
    injection Hrun as <-. apply elem_of_cons in Hin as [->|Hin]; [|by eapply IH].
    unfold row_flags_match. simpl. split_and!; [by left| |].
    + split; [|done]. intros _. exists src. split_and!; [|done|done].
      apply Hitems. by left.
    + unfold list_in. rewrite bool_decide_eq_true. tauto.
Qed.

(** C3: the plugin rows that reconciliation puts under a catalog and one of
    its repositories.  [_add_plugins_to_tree] appends one row per entry of
    the collection under the repository row, and [_add_plugins_offline]
    (for a catalog that is only in the cache) either raises without adding
    a row or appends its rows; in both cases a row's installed flag is set
    exactly when the Installation Record of its plugin id names this catalog
    and this repository, and its enabled flag exactly when moreover the id
    is in the Enabled Set.  So a plugin recorded as installed from another
    catalog or repository is shown with installed and enabled unset here. *)
Theorem remote_plugin_rows (w : window R C) (catalog_id : string) (repo : repository)
    (parent : tree_path) (plugin_list : list (string * plugin_info))
    (m : model_row) (children : list tree_row) :
  store_get (_model w) parent = Some (TreeRow m children) →
  (∃ w' rows,
     _add_plugins_to_tree catalog_id repo parent plugin_list w = (Ok tt, w')
     ∧ store_get (_model w') parent = Some (TreeRow m (children ++ map leaf rows))
     ∧ map r_id rows = map (info_name ∘ snd) plugin_list
     ∧ cfg w' = cfg w
     ∧ ∀ row, row ∈ rows →
         row_flags_match (cfg w) catalog_id (repo_id repo) row
         ∧ ∀ src, plugins_installed (cfg w) !! r_id row = Some (Some src) →
                  (src_catalog_id src ≠ catalog_id ∨ src_repo_id src ≠ repo_id repo) →
                  r_installed row = Some false ∧ r_enabled row = false)
  ∧ (∃ w' rows,
       ((_add_plugins_offline catalog_id (repo_id repo) parent w = (Ok tt, w')
         ∧ store_get (_model w') parent = Some (TreeRow m (children ++ map leaf rows)))
        ∨ (_add_plugins_offline catalog_id (repo_id repo) parent w = (Raise KeyError, w')
           ∧ _model w' = _model w ∧ rows = []))
       ∧ cfg w' = cfg w
       ∧ ∀ row, row ∈ rows → row_flags_match (cfg w) catalog_id (repo_id repo) row).
Proof.
  clear plugin_path answer.
  intros Hget. split.
  - unfold _add_plugins_to_tree, mbind, M_bind. simpl.
    destruct (_store_extend_children w parent
                (_add_plugins_to_tree_models (cfg w) (catalog_plugins w) catalog_id
                   repo plugin_list) m children Hget)
      as (w' & Hrun & Hch & Hcfg & _).
    exists w', (_add_plugins_to_tree_models (cfg w) (catalog_plugins w) catalog_id
                  repo plugin_list).
    split_and!; [done|done| |done|].
    + unfold _add_plugins_to_tree_models. rewrite map_map.
      apply map_ext. by intros [key info].
    + intros row Hrow.
      pose proof (_add_plugins_to_tree_models_flags _ _ _ _ _ _ Hrow) as Hflags.
      split; [done|]. intros src Hsrc Hother.
      destruct Hflags as (Hbool & Hinst & Hen).
      assert (r_installed row ≠ Some true) as Hnot.
      { intros (src' & Hsrc' & ? & ?)%Hinst. rewrite Hsrc in Hsrc'.
        injection Hsrc' as <-. tauto. }
      split; [by destruct Hbool|].
      destruct (r_enabled row) eqn:He; [|done]. by destruct (proj1 Hen eq_refl).
  - unfold _add_plugins_offline, mbind, M_bind. simpl.
    destruct (_add_plugins_offline_models (cfg w) (plugin_manager w) catalog_id
                (repo_id repo) (map_to_list (plugins_installed (cfg w))))
      as [models|e] eqn:Hmodels.
    + destruct (_store_extend_children w parent models m children Hget)
        as (w' & Hrun & Hch & Hcfg & _).
      exists w', models. split_and!; [by left|done|].
      intros row Hrow. eapply _add_plugins_offline_models_flags; [|done|done].
      intros name src Hin. by apply elem_of_map_to_list.
    + exists w, []. split_and!; [|done|by intros row ?%elem_of_nil].
      right. split_and!; [|done|done]. unfold raise. f_equal.
      clear -Hmodels. revert Hmodels.
      generalize (map_to_list (plugins_installed (cfg w))). intros items.
      induction items as [|[name [src|]] items IH]; simpl; [done| |done].
      destruct (pm_contains _ _); simpl; [|done].
      destruct (bool_decide _); simpl; [|done].
      destruct (bool_decide _); simpl; [|done].
      destruct (pm_getitem _ _); [|by intros [= <-]].
      destruct (_add_plugins_offline_models _ _ _ _ items); [done|].
      intros [= <-]. by apply IH.
Qed.

(** *** Catalog cache *)



(** *** What uninstalling does to the configuration *)

Lemma _uninstall_plugin_spec (w : window R C) (model_path : tree_path)
    (model_row : tree_row) :
  store_get (_model w) model_path = Some model_row →
  let plugin_id := r_id (row_model model_row) in
  let found := on_disk plugin_path (disk w) plugin_id in
  ∃ w', _uninstall_plugin plugin_path model_path w =
          (if found then
             match plugins_installed (cfg w) !! plugin_id with
             | Some _ => Ok true
             | None => Raise KeyError
             end
           else Ok false, w')
    ∧ catalogs (cfg w') = catalogs (cfg w)
    ∧ plugins_enabled (cfg w') = plugins_enabled (cfg w)
    ∧ plugins_installed (cfg w') =
        (if found then delete plugin_id (plugins_installed (cfg w))
         else plugins_installed (cfg w))
    ∧ catalog_plugins w' = catalog_plugins w
    ∧ (found = false →
         only_emitted w w'
           [EvLog WARNING ("failed to find plugin " +:+ plugin_id +:+ " on disk for removal")]).
Proof.
  intros Hget plugin_id found.
  assert (∀ d, ∃ w',
            _uninstall_plugin_finish model_path plugin_id (set_disk d w) =
              (match plugins_installed (cfg w) !! plugin_id with
               | Some _ => Ok true
               | None => Raise KeyError
               end, w')
            ∧ catalogs (cfg w') = catalogs (cfg w)
            ∧ plugins_enabled (cfg w') = plugins_enabled (cfg w)
            ∧ plugins_installed (cfg w') = delete plugin_id (plugins_installed (cfg w))
            ∧ catalog_plugins w' = catalog_plugins w) as Hfinish.
  { intros d. unfold _uninstall_plugin_finish, mbind, M_bind. simpl.
    destruct (plugins_installed (cfg w) !! plugin_id) as [entry|] eqn:Hrec.
    - simpl. destruct (path_parent model_path) as [pp|] eqn:Hpp.
      + destruct (store_get_parent _ _ _ _ Hget Hpp) as [parent Hparent].
        erewrite model_getitem_Some by (simpl; exact Hparent). simpl.
        destruct (decide (r_id (row_model parent) = _LOCAL_REPOSITORY_ID)); simpl.
        * eexists. split; [reflexivity|]. done.
        * unfold _set_model_item, mbind, M_bind.
          erewrite model_getitem_Some by (simpl; exact Hget). simpl.
          eexists. split; [reflexivity|]. done.
      + simpl. unfold _set_model_item, mbind, M_bind.
        erewrite model_getitem_Some by (simpl; exact Hget). simpl.
        eexists. split; [reflexivity|]. done.
    - eexists. split; [reflexivity|]. simpl. split_and!; try done.
      by rewrite delete_id. }
  unfold _uninstall_plugin, mbind, M_bind.
  rewrite (model_getitem_Some _ _ _ Hget). simpl. fold plugin_id.
  unfold found, on_disk.
  destruct (isfile (disk w) (path_join (path_join plugin_path plugin_id) "__init__.py"))
    eqn:Hpkg; simpl.
  - destruct (Hfinish (rmtree (disk w) (path_join plugin_path plugin_id)))
      as (w' & -> & ? & ? & ? & ?).
    exists w'. split_and!; done.
  - destruct (isfile (disk w) (path_join plugin_path (plugin_id +:+ ".py"))) eqn:Hpy; simpl.
    + destruct (Hfinish (os_remove (disk w) (path_join plugin_path (plugin_id +:+ ".py"))))
        as (w' & -> & ? & ? & ? & ?).
      exists w'. split_and!; done.
    + eexists. split; [reflexivity|]. unfold only_emitted. simpl. done.
Qed.

Lemma _remove_matching_plugin_none (w : window R C) (path : tree_path)
    (row : tree_row) (plugin_src : option install_src) :
  store_get (_model w) path = Some row →
  match matching_repo_model (_model w) plugin_src with
  | None => True
  | Some (_, repo_model) =>
      list_find (λ t, r_id (row_model t) = r_id (row_model row))
        (iterchildren repo_model) = None
  end →
  _remove_matching_plugin plugin_path path plugin_src w = (Ok false, w).
Proof.
  intros Hget Hnone. unfold _remove_matching_plugin, mbind, M_bind.
  rewrite (model_getitem_Some _ _ _ Hget). simpl.
  destruct (matching_repo_model (_model w) plugin_src) as [[rp rm]|]; [|done].
  by rewrite Hnone.
Qed.

Lemma _remove_matching_plugin_found (w : window R C) (path : tree_path)
    (row : tree_row) (plugin_src : option install_src)
    (repo_path : tree_path) (repo_model : tree_row) (pi : nat) (plugin_model : tree_row) :
  store_get (_model w) path = Some row →
  let id := r_id (row_model row) in
  matching_repo_model (_model w) plugin_src = Some (repo_path, repo_model) →
  list_find (λ t, r_id (row_model t) = id) (iterchildren repo_model)
    = Some (pi, plugin_model) →
  let was_enabled := r_enabled (row_model plugin_model) in
  (was_enabled = true → id ∈ plugins_enabled (cfg w)) →
  is_Some (plugins_installed (cfg w) !! id) →
  ∃ w', _remove_matching_plugin plugin_path path plugin_src w = (Ok true, w')
    ∧ catalogs (cfg w') = catalogs (cfg w)
    ∧ plugins_enabled (cfg w') =
        (if was_enabled then without_first id (plugins_enabled (cfg w))
         else plugins_enabled (cfg w))
    ∧ plugins_installed (cfg w') =
        (if on_disk plugin_path (disk w) id then delete id (plugins_installed (cfg w))
         else plugins_installed (cfg w))
    ∧ catalog_plugins w' = catalog_plugins w.
Proof.
  intros Hget id Hrepo Hfind was_enabled Hen [entry Hrec].
  pose proof (matching_repo_model_get _ _ _ _ Hrepo) as Hrp.
  apply list_find_Some in Hfind as Hf. destruct Hf as (Hpi & Hid & _).
  pose proof (store_get_snoc _ _ _ pi Hrp) as Hold. rewrite Hpi in Hold.
  unfold _remove_matching_plugin, mbind, M_bind.
  rewrite (model_getitem_Some _ _ _ Hget). simpl. fold id.
  rewrite Hrepo, Hfind. fold was_enabled.
  destruct was_enabled eqn:Hwas.
  - destruct (_disable_plugin_spec w (repo_path ++ [pi]) false plugin_model Hold)
      as (w1 & Hrun1 & Hc1 & Hi1 & He1 & _ & Hm1 & _ & Hcp1 & Hd1 & _).
    rewrite Hid in Hrun1, He1, Hm1.
    destruct (list_remove id (plugins_enabled (cfg w))) as [enabled'|] eqn:Hrm.
    2: { apply list_remove_None in Hrm. destruct Hrm. by apply Hen. }
    rewrite Hrun1.
    assert (store_get (_model w1) (repo_path ++ [pi])
            = Some (TreeRow (set_enabled false (row_model plugin_model))
                      (iterchildren plugin_model))) as Hold1.
    { rewrite Hm1. by apply store_get_alter. }
    destruct (_uninstall_plugin_spec w1 _ _ Hold1) as (w2 & Hrun2 & Hc2 & He2 & Hi2 & Hcp2 & _).
    simpl in Hrun2, Hi2. rewrite Hid, Hd1, Hi1, Hrec in Hrun2. rewrite Hid, Hd1, Hi1 in Hi2.
    rewrite Hrun2. exists w2.
    destruct (on_disk plugin_path (disk w) id); simpl;
      (split_and!; [done|congruence| |done|congruence]);
      rewrite He2, He1; unfold without_first; by rewrite Hrm.
  - destruct (_uninstall_plugin_spec w _ _ Hold) as (w2 & Hrun2 & Hc2 & He2 & Hi2 & Hcp2 & _).
    simpl in Hrun2, Hi2. rewrite Hid, Hrec in Hrun2. rewrite Hid in Hi2.
    simpl. rewrite Hrun2. exists w2.
    destruct (on_disk plugin_path (disk w) id); simpl; done.
Qed.

(** *** The install toggle, case by case *)

Lemma toggled_install_start (w : window R C) (path : tree_path)
    (row repo catalog : tree_row) :
  plugin_row_at (_model w) path row repo catalog →
  model_getitem path w = (Ok row, w)
  ∧ _get_plugin_model_parents path w = (Ok (row_model repo, row_model catalog), w).
Proof.
  intros (Hget & pp & gp & Hpp & Hgp & Hrepo & Hcat). split.
  - by apply model_getitem_Some.
  - by eapply _get_plugin_model_parents_Some.
Qed.

Ltac install_start Hat :=
  let Hrow := fresh "Hrow" in
  let Hparents := fresh "Hparents" in
  destruct (toggled_install_start _ _ _ _ _ Hat) as [Hrow Hparents];
  unfold signal_renderer_toggled_install, mbind, M_bind;
  rewrite Hrow; simpl; rewrite Hparents; simpl; rewrite Hrow; simpl.

Lemma toggled_install_uninstall_missing (w : window R C) (path : tree_path)
    (row repo catalog : tree_row) :
  plugin_row_at (_model w) path row repo catalog →
  let id := r_id (row_model row) in
  installed_truthy (row_model row) = true →
  r_enabled (row_model row) = false →
  on_disk plugin_path (disk w) id = false →
  ∃ w', signal_renderer_toggled_install plugin_path answer path w = (Ok tt, w')
    ∧ cfg w' = cfg w.
Proof.
  intros Hat id Hinst Hen Hdisk. subst id. install_start Hat.
  rewrite Hinst, Hen. simpl.
  match goal with
  | |- context [_uninstall_plugin plugin_path path ?w0] =>
      destruct (_uninstall_plugin_spec w0 path row (proj1 Hat))
        as (w1 & Hrun & _ & _ & _ & _ & Hquiet)
  end.
  simpl in Hrun, Hquiet. rewrite Hdisk in Hrun.
  rewrite Hrun. simpl. destruct (Hquiet Hdisk) as (Hcfg & _).
  eexists. split; [reflexivity|]. simpl. by rewrite Hcfg.
Qed.

Lemma toggled_install_uninstall_declined (w : window R C) (path : tree_path)
    (row repo catalog : tree_row) :
  plugin_row_at (_model w) path row repo catalog →
  installed_truthy (row_model row) = true →
  r_enabled (row_model row) = true →
  answer "Plugin is Enabled" = false →
  ∃ w', signal_renderer_toggled_install plugin_path answer path w = (Ok tt, w')
    ∧ cfg w' = cfg w.
Proof.
  intros Hat Hinst Hen Hno. install_start Hat.
  rewrite Hinst, Hen. simpl. rewrite Hno. simpl.
  eexists. split; [reflexivity|]. done.
Qed.

Lemma toggled_install_uninstall_missing_enabled (w : window R C) (path : tree_path)
    (row repo catalog : tree_row) :
  plugin_row_at (_model w) path row repo catalog →
  let id := r_id (row_model row) in
  installed_truthy (row_model row) = true →
  r_enabled (row_model row) = true →
  answer "Plugin is Enabled" = true →
  id ∈ plugins_enabled (cfg w) →
  on_disk plugin_path (disk w) id = false →
  ∃ w', signal_renderer_toggled_install plugin_path answer path w = (Ok tt, w')
    ∧ plugins_installed (cfg w') = plugins_installed (cfg w)
    ∧ plugins_enabled (cfg w') = without_first id (plugins_enabled (cfg w)).
Proof.
  intros Hat id Hinst Hen Hyes Hin Hdisk. subst id. install_start Hat.
  rewrite Hinst, Hen. simpl. rewrite Hyes. simpl.
  match goal with
  | |- context [_disable_plugin path true ?w0] =>
      destruct (_disable_plugin_spec w0 path true row (proj1 Hat))
        as (w1 & Hrun1 & _ & Hi1 & He1 & _ & Hm1 & _ & _ & Hd1 & _)
  end.
  simpl in Hrun1, Hi1, He1, Hm1, Hd1.
  destruct (list_remove (r_id (row_model row)) (plugins_enabled (cfg w)))
    as [enabled'|] eqn:Hrm.
  2: { apply list_remove_None in Hrm. done. }
  rewrite Hrun1.
  assert (store_get (_model w1) path
          = Some (TreeRow (set_enabled false (row_model row)) (iterchildren row))) as Hget1.
  { rewrite Hm1. apply store_get_alter. apply Hat. }
  destruct (_uninstall_plugin_spec w1 path _ Hget1) as (w2 & Hrun2 & _ & He2 & Hi2 & _ & _).
  simpl in Hrun2, Hi2. rewrite Hd1, Hdisk in Hrun2, Hi2.
  simpl. rewrite Hrun2. simpl. eexists. split; [reflexivity|]. simpl.
  rewrite Hi2, Hi1, He2, He1. unfold without_first. by rewrite Hrm.
Qed.

Lemma toggled_install_install_raises (w : window R C) (path : tree_path)
    (row repo catalog : tree_row) (e : exn) :
  plugin_row_at (_model w) path row repo catalog →
  let id := r_id (row_model row) in
  installed_truthy (row_model row) = false →
  plugins_installed (cfg w) !! id = None
    ∨ plugins_installed (cfg w) !! id = Some (Some (new_src row repo catalog)) →
  install_plugin (catalog_plugins w) (r_id (row_model catalog)) (r_id (row_model repo))
    id plugin_path (disk w) = Raise e →
  ∃ w', signal_renderer_toggled_install plugin_path answer path w = (Ok tt, w')
    ∧ cfg w' = cfg w.
Proof.
  intros Hat id Hinst Hrec Hraise. subst id. install_start Hat.
  rewrite Hinst. simpl.
  assert (∃ w', install_from plugin_path path (row_model catalog) (row_model repo)
                  (row_model row) w = (Ok tt, w') ∧ cfg w' = cfg w) as (w' & Hrun & Hcfg).
  { destruct (install_from_raises w path _ _ _ _ Hraise) as (w' & ? & ? & _). eauto. }
  destruct Hrec as [Hrec|Hrec]; rewrite Hrec; simpl.
  - exists w'. by rewrite Hrun.
  - unfold new_src. rewrite decide_True by done. simpl.
    exists w'. by rewrite Hrun.
Qed.

Lemma toggled_install_replace_not_done (w : window R C) (path : tree_path)
    (row repo catalog : tree_row) (old : option install_src) :
  plugin_row_at (_model w) path row repo catalog →
  let id := r_id (row_model row) in
  installed_truthy (row_model row) = false →
  plugins_installed (cfg w) !! id = Some old →
  old ≠ Some (new_src row repo catalog) →
  answer "Plugin installed from another source" = false
    ∨ match matching_repo_model (_model w) old with
      | None => True
      | Some (_, repo_model) =>
          list_find (λ t, r_id (row_model t) = id) (iterchildren repo_model) = None
      end →
  ∃ w', signal_renderer_toggled_install plugin_path answer path w = (Ok tt, w')
    ∧ cfg w' = cfg w
    ∧ EvInstall (r_id (row_model catalog)) (r_id (row_model repo)) id
        ∉ drop (length (trace w)) (trace w').
Proof.
  intros Hat id Hinst Hrec Hold Hwhy. subst id. install_start Hat.
  rewrite Hinst. simpl. rewrite Hrec. simpl.
  unfold new_src in Hold. rewrite decide_False by done. simpl.
  destruct (answer "Plugin installed from another source") eqn:Hans; simpl.
  - destruct Hwhy as [?|Hnone]; [done|].
    match goal with
    | |- context [_remove_matching_plugin plugin_path path old ?w0] =>
        rewrite (_remove_matching_plugin_none w0 path row old (proj1 Hat) Hnone)
    end.
    simpl. eexists. split; [reflexivity|]. simpl. split; [done|].
    rewrite <- !app_assoc, drop_app_length.
    rewrite !elem_of_app, !list_elem_of_singleton. by intros [|].
  - eexists. split; [reflexivity|]. simpl. split; [done|].
    rewrite drop_app_length. by rewrite list_elem_of_singleton.
Qed.

Lemma toggled_install_replace_install_raises (w : window R C) (path : tree_path)
    (row repo catalog : tree_row) (old : option install_src)
    (repo_path : tree_path) (repo_model : tree_row) (pi : nat) (plugin_model : tree_row) :
  plugin_row_at (_model w) path row repo catalog →
  let id := r_id (row_model row) in
  installed_truthy (row_model row) = false →
  plugins_installed (cfg w) !! id = Some old →
  old ≠ Some (new_src row repo catalog) →
  answer "Plugin installed from another source" = true →
  matching_repo_model (_model w) old = Some (repo_path, repo_model) →
  list_find (λ t, r_id (row_model t) = id) (iterchildren repo_model)
    = Some (pi, plugin_model) →
  (r_enabled (row_model plugin_model) = true → id ∈ plugins_enabled (cfg w)) →
  (∀ d, ∃ e, install_plugin (catalog_plugins w) (r_id (row_model catalog))
               (r_id (row_model repo)) id plugin_path d = Raise e) →
  ∃ w', signal_renderer_toggled_install plugin_path answer path w = (Ok tt, w')
    ∧ plugins_installed (cfg w') =
        (if on_disk plugin_path (disk w) id then delete id (plugins_installed (cfg w))
         else plugins_installed (cfg w))
    ∧ plugins_enabled (cfg w') =
        (if r_enabled (row_model plugin_model)
         then without_first id (plugins_enabled (cfg w))
         else plugins_enabled (cfg w)).
Proof.
  intros Hat id Hinst Hrec Hold Hyes Hrepo Hfind Hen Hraise. subst id. install_start Hat.
  rewrite Hinst. simpl. rewrite Hrec. simpl.
  unfold new_src in Hold. rewrite decide_False by done. simpl.
  rewrite Hyes. simpl.
  match goal with
  | |- context [_remove_matching_plugin plugin_path path old ?w0] =>
      destruct (_remove_matching_plugin_found w0 path row old repo_path repo_model
                  pi plugin_model (proj1 Hat) Hrepo Hfind Hen (mk_is_Some _ _ Hrec))
        as (w1 & Hrun1 & _ & He1 & Hi1 & Hcp1)
  end.
  simpl in Hrun1, He1, Hi1, Hcp1.
  rewrite Hrun1. simpl.
  destruct (Hraise (disk w1)) as [e He]. rewrite <- Hcp1 in He.
  destruct (install_from_raises w1 path _ _ _ _ He) as (w' & Hrun & Hcfg & _).
  rewrite Hrun. exists w'. rewrite Hcfg. done.
Qed.

(** *** Where the Enabled Set keeps its records *)

(** The transitions under which every member of the Enabled Set keeps an
    Installation Record: a disable, an enable when every loaded plugin has a
    record (which reconciliation establishes), a reload, a reconciliation,
    and an uninstall through a row whose enabled flag is set whenever its id
    is in the Enabled Set, the Enabled Set listing no id twice. *)
Lemma enabled_have_records_preserved (w : window R C) (path : tree_path)
    (row : tree_row) :
  store_get (_model w) path = Some row →
  enabled_have_records (cfg w) →
  let id := r_id (row_model row) in
  (∀ is_path w', _disable_plugin path is_path w = (Ok tt, w') →
     enabled_have_records (cfg w'))
  ∧ (∀ w', (∀ p, is_Some (pm_loaded_plugins (plugin_manager w) !! p) →
                 is_Some (plugins_installed (cfg w) !! p)) →
       signal_renderer_toggled_enable path w = (Ok tt, w') →
       enabled_have_records (cfg w'))
  ∧ (∀ selected_plugin,
       enabled_have_records (cfg (_reload_plugin path selected_plugin w).2))
  ∧ enabled_have_records (cfg (_load_plugins w).2)
  ∧ (∀ repo catalog w', plugin_row_at (_model w) path row repo catalog →
       installed_truthy (row_model row) = true →
       NoDup (plugins_enabled (cfg w)) →
       (id ∈ plugins_enabled (cfg w) → r_enabled (row_model row) = true) →
       signal_renderer_toggled_install plugin_path answer path w = (Ok tt, w') →
       enabled_have_records (cfg w')).
Proof.
  intros Hget Hinv id.
  assert (∀ is_path w', _disable_plugin path is_path w = (Ok tt, w') →
            enabled_have_records (cfg w')) as Hdisable.
  { intros is_path w' Hrun.
    destruct (_disable_plugin_spec w path is_path row Hget)
      as (w1 & Hrun1 & _ & Hi & He & _).
    rewrite Hrun in Hrun1. injection Hrun1 as Hres <-.
    intros p Hp. rewrite Hi. apply Hinv. rewrite He in Hp.
    destruct (list_remove (r_id (row_model row)) (plugins_enabled (cfg w)))
      as [r|] eqn:Hrm; [|done].
    by eapply list_remove_subseteq. }
  split_and!.
  - exact Hdisable.
  - intros w' Hloaded. unfold signal_renderer_toggled_enable, mbind, M_bind.
    rewrite (model_getitem_Some _ _ _ Hget). simpl.
    destruct (bool_decide (r_type (row_model row) = ROW_TYPE_PLUGIN)); simpl;
      [|by intros [= <-]].
    destruct (pm_loaded_plugins (plugin_manager w) !! r_id (row_model row))
      as [klass|] eqn:Hl; simpl; [|by intros [= <-]].
    destruct (bool_decide (is_Some (_module_errors w !! r_id (row_model row)))); simpl;
      [by intros [= <-]|].
    destruct (r_enabled (row_model row)); [apply Hdisable|].
    destruct (plugin_is_compatible klass); simpl; [|by intros [= <-]].
    unfold registry_enable, mbind, M_bind. simpl.
    destruct (pm_enable (plugin_manager w) (r_id (row_model row))) as [pm' ok]. simpl.
    destruct ok; simpl; [|by intros [= <-]].
    unfold _set_model_item, mbind, M_bind.
    erewrite model_getitem_Some by (simpl; exact Hget). simpl.
    intros [= <-]. intros p. simpl. rewrite elem_of_app, list_elem_of_singleton.
    intros [Hp| ->]; [by apply Hinv|]. apply Hloaded. by rewrite Hl.
  - intros selected_plugin.
    destruct (_reload_plugin_spec w path row selected_plugin Hget)
      as (w' & Hrun & Hcfg & _).
    rewrite Hrun. simpl. rewrite Hcfg. exact Hinv.
  - destruct (_load_plugins_cfg w) as (_ & _ & Hi & He).
    intros p Hp. rewrite He in Hp. rewrite Hi. apply record_loaded_is_Some. by apply Hinv.
  - intros repo catalog w' Hat Hinst Hnd Hflag.
    install_start Hat. rewrite Hinst. simpl.
    destruct (r_enabled (row_model row)) eqn:Hen; simpl.
    + destruct (answer "Plugin is Enabled"); simpl; [|by intros [= <-]].
      match goal with
      | |- context [_disable_plugin path true ?w0] =>
          destruct (_disable_plugin_spec w0 path true row (proj1 Hat))
            as (w1 & Hrun1 & _ & Hi1 & He1 & _ & Hm1 & _ & _ & Hd1 & _)
      end.
      simpl in Hrun1, Hi1, He1, Hm1, Hd1. rewrite Hrun1.
      destruct (list_remove (r_id (row_model row)) (plugins_enabled (cfg w)))
        as [enabled'|] eqn:Hrm; [|done].
      simpl in He1. simpl.
      assert (store_get (_model w1) path
              = Some (TreeRow (set_enabled false (row_model row)) (iterchildren row)))
        as Hget1.
      { rewrite Hm1. apply store_get_alter. apply Hat. }
      destruct (_uninstall_plugin_spec w1 path _ Hget1)
        as (w2 & Hrun2 & _ & He2 & Hi2 & _ & _).
      simpl in Hrun2, Hi2. rewrite Hrun2.
      destruct (on_disk plugin_path (disk w1) (r_id (row_model row))); simpl.
      * destruct (plugins_installed (cfg w1) !! r_id (row_model row)); [|done].
        simpl. intros [= <-]. simpl. intros p Hp. rewrite Hi2, Hi1.
        rewrite He2, He1 in Hp.
        assert (p ≠ r_id (row_model row)) as Hne.
        { intros ->. by eapply list_remove_NoDup. }
        rewrite lookup_delete_ne by done. apply Hinv. by eapply list_remove_subseteq.
      * intros [= <-]. simpl. intros p Hp. rewrite Hi2, Hi1. rewrite He2, He1 in Hp.
        apply Hinv. by eapply list_remove_subseteq.
    + match goal with
      | |- context [_uninstall_plugin plugin_path path ?w0] =>
          destruct (_uninstall_plugin_spec w0 path row (proj1 Hat))
            as (w2 & Hrun2 & _ & He2 & Hi2 & _ & _)
      end.
      simpl in Hrun2, He2, Hi2. rewrite Hrun2.
      destruct (on_disk plugin_path (disk w) (r_id (row_model row))); simpl.
      * destruct (plugins_installed (cfg w) !! r_id (row_model row)); [|done].
        simpl. intros [= <-]. simpl. intros p Hp. rewrite Hi2. rewrite He2 in Hp.
        assert (p ≠ r_id (row_model row)) as Hne.
        { intros ->. apply Hflag in Hp. congruence. }
        rewrite lookup_delete_ne by done. by apply Hinv.
      * intros [= <-]. simpl. intros p Hp. rewrite Hi2. rewrite He2 in Hp. by apply Hinv.
Qed.

(** *** The claims about single transitions *)

(** C5: an enable attempt (a toggle on a plugin row of a loaded plugin that
    is not shown as enabled).  With a module error on record the handler
    shows its dialog and nothing else happens, the registry is not called;
    otherwise an incompatible plugin gets the incompatibility dialog and
    nothing else; otherwise the registry is asked, and its acceptance
    appends the id to the Enabled Set (and sets the row's flag), while its
    refusal changes nothing and shows nothing. *)
Theorem enable_attempt (w : window R C) (path : tree_path) (row : tree_row)
    (klass : plugin_class) :
  store_get (_model w) path = Some row →
  r_type (row_model row) = ROW_TYPE_PLUGIN →
  r_enabled (row_model row) = false →
  let id := r_id (row_model row) in
  pm_loaded_plugins (plugin_manager w) !! id = Some klass →
  ∃ w', signal_renderer_toggled_enable path w = (Ok tt, w')
    ∧ (is_Some (_module_errors w !! id) →
         only_emitted w w'
           [EvDialogError "Can Not Enable Plugin"
              "Can not enable a plugin which failed to load."])
    ∧ (_module_errors w !! id = None → plugin_is_compatible klass = false →
         only_emitted w w'
           [EvDialogError "Incompatible Plugin" "This plugin is not compatible."])
    ∧ (_module_errors w !! id = None → plugin_is_compatible klass = true →
         (pm_enable (plugin_manager w) id).2 = true →
         plugins_enabled (cfg w') = plugins_enabled (cfg w) ++ [id]
         ∧ plugins_installed (cfg w') = plugins_installed (cfg w)
         ∧ store_get (_model w') path
             = Some (TreeRow (set_enabled true (row_model row)) (iterchildren row))
         ∧ plugin_manager w' = (pm_enable (plugin_manager w) id).1
         ∧ trace w' = trace w ++ [EvRegistry (PmEnable id)])
    ∧ (_module_errors w !! id = None → plugin_is_compatible klass = true →
         (pm_enable (plugin_manager w) id).2 = false →
         cfg w' = cfg w ∧ _model w' = _model w
         ∧ plugin_manager w' = (pm_enable (plugin_manager w) id).1
         ∧ trace w' = trace w ++ [EvRegistry (PmEnable id)]).
Proof. apply signal_renderer_toggled_enable_spec. Qed.

(** C8, as the code has it: reloading the plugin of a row.  When the import
    raises, the error is recorded under the plugin id, the row's title
    becomes ["<id> (Reload Failed)"], the registry is left as the failed load
    left it (no enable is asked for) and the configuration, hence the
    Enabled Set, is as before.  When the import succeeds, the module error of
    the id is dropped, the row shows the reloaded title, compatibility and
    version, and the registry is asked to enable the plugin again exactly
    when it was enabled before the unload.  The answer of that call is not
    looked at: a plugin that was enabled is enabled afterwards exactly when
    the registry's [enable] leaves it so, a plugin that was not enabled is
    left as the load left it, and the configuration is as before either
    way. *)
Theorem reload_plugin (w : window R C) (tree_iter : tree_path) (row : tree_row)
    (selected_plugin : option string) :
  store_get (_model w) tree_iter = Some row →
  let id := r_id (row_model row) in
  let was_enabled := list_in id (pm_enabled_plugins (plugin_manager w)) in
  let unloaded := pm_unload (plugin_manager w) id in
  ∃ w', _reload_plugin tree_iter selected_plugin w = (Ok tt, w')
    ∧ cfg w' = cfg w
    ∧ match (pm_load unloaded id).2 with
      | Raise error =>
          _module_errors w' = <[id := error]> (_module_errors w)
          ∧ (r_title ∘ row_model) <$> store_get (_model w') tree_iter
              = Some (id +:+ " (Reload Failed)")
          ∧ (∃ before after,
               (r_title ∘ row_model) <$> store_get (_model w') tree_iter
                 = Some (before +:+ "Reload Failed" +:+ after))
          ∧ plugin_manager w' = (pm_load unloaded id).1
          ∧ EvRegistry (PmEnable id) ∉ drop (length (trace w)) (trace w')
      | Ok klass =>
          _module_errors w' = delete id (_module_errors w)
          ∧ row_model <$> store_get (_model w') tree_iter
              = Some (set_version (plugin_version klass)
                        (set_compatibility
                           (if plugin_is_compatible klass then "Yes" else "No")
                           (set_title (plugin_title klass) (row_model row))))
          ∧ (EvRegistry (PmEnable id) ∈ drop (length (trace w)) (trace w')
             ↔ was_enabled = true)
          ∧ plugin_manager w' =
              (if was_enabled then (pm_enable (pm_load unloaded id).1 id).1
               else (pm_load unloaded id).1)
          ∧ (was_enabled = true →
               (id ∈ pm_enabled_plugins (plugin_manager w')
                ↔ id ∈ pm_enabled_plugins (pm_enable (pm_load unloaded id).1 id).1))
          ∧ (was_enabled = false →
               (id ∈ pm_enabled_plugins (plugin_manager w')
                ↔ id ∈ pm_enabled_plugins (pm_load unloaded id).1))
      end.
Proof.
  intros Hget id was_enabled unloaded.
  destruct (_reload_plugin_spec w tree_iter row selected_plugin Hget)
    as (w' & Hrun & Hcfg & Hcase).
  fold id in Hcase. fold was_enabled unloaded in Hcase.
  exists w'. split; [exact Hrun|]. split; [exact Hcfg|].
  destruct (pm_load unloaded id) as [pm2 [klass|error]]; simpl in *; [|exact Hcase].
  destruct Hcase as (Herr & Hrow & Hpm & Hasked).
  split; [exact Herr|]. split; [exact Hrow|]. split; [exact Hasked|].
  split; [exact Hpm|]. rewrite Hpm.
  split; intros Hwas; rewrite Hwas; reflexivity.
Qed.

(** C1, as the code has it: no handler rolls back, so a failing transition
    leaves the Installation Record and the Enabled Set as they were exactly
    when it fails before the handler's first write.  That is the case for an
    enable that is rejected (module error on record, incompatible plugin,
    refusal of the registry), a disable of an id that is not in the Enabled
    Set, a reload whose import raises, an uninstall of a row not shown as
    enabled whose files are not on disk, an uninstall that the user declines,
    an install with no differently sourced installation on record whose
    download or installation raises, and a replace-source that the user
    declines or whose old copy is not found in the tree (no install is then
    attempted).  The writes made before a later failure stay: an uninstall
    of a row shown as enabled whose files are missing leaves the plugin
    disabled, and in the replace-source flow, where the old installation is
    removed before the new install is attempted, a failing install leaves the
    old record deleted (when its files were on disk) and the id dropped from
    the Enabled Set (when the old row was shown as enabled). *)
Theorem failed_transition_configuration (w : window R C) (path : tree_path)
    (row : tree_row) :
  store_get (_model w) path = Some row →
  let id := r_id (row_model row) in
  let installed := plugins_installed (cfg w) in
  let enabled := plugins_enabled (cfg w) in
  (∀ klass, r_type (row_model row) = ROW_TYPE_PLUGIN →
     r_enabled (row_model row) = false →
     pm_loaded_plugins (plugin_manager w) !! id = Some klass →
     is_Some (_module_errors w !! id) ∨ plugin_is_compatible klass = false
       ∨ (pm_enable (plugin_manager w) id).2 = false →
     ∃ w', signal_renderer_toggled_enable path w = (Ok tt, w') ∧ cfg w' = cfg w)
  ∧ (id ∉ enabled →
       ∃ w', _disable_plugin path true w = (Raise ValueError, w') ∧ cfg w' = cfg w)
  ∧ (∀ selected_plugin e,
       (pm_load (pm_unload (plugin_manager w) id) id).2 = Raise e →
       ∃ w', _reload_plugin path selected_plugin w = (Ok tt, w') ∧ cfg w' = cfg w)
  ∧ (∀ repo catalog, plugin_row_at (_model w) path row repo catalog →
       let toggled := signal_renderer_toggled_install plugin_path answer path w in
       let cid := r_id (row_model catalog) in
       let rid := r_id (row_model repo) in
       (installed_truthy (row_model row) = true → r_enabled (row_model row) = false →
          on_disk plugin_path (disk w) id = false →
          ∃ w', toggled = (Ok tt, w') ∧ cfg w' = cfg w)
       ∧ (installed_truthy (row_model row) = true → r_enabled (row_model row) = true →
            answer "Plugin is Enabled" = false →
            ∃ w', toggled = (Ok tt, w') ∧ cfg w' = cfg w)
       ∧ (installed_truthy (row_model row) = true → r_enabled (row_model row) = true →
            answer "Plugin is Enabled" = true → id ∈ enabled →
            on_disk plugin_path (disk w) id = false →
            ∃ w', toggled = (Ok tt, w')
              ∧ plugins_installed (cfg w') = installed
              ∧ plugins_enabled (cfg w') = without_first id enabled)
       ∧ (∀ e, installed_truthy (row_model row) = false →
            installed !! id = None
              ∨ installed !! id = Some (Some (new_src row repo catalog)) →
            install_plugin (catalog_plugins w) cid rid id plugin_path (disk w) = Raise e →
            ∃ w', toggled = (Ok tt, w') ∧ cfg w' = cfg w)
       ∧ (∀ old, installed_truthy (row_model row) = false →
            installed !! id = Some old → old ≠ Some (new_src row repo catalog) →
            answer "Plugin installed from another source" = false
              ∨ match matching_repo_model (_model w) old with
                | None => True
                | Some (_, repo_model) =>
                    list_find (λ t, r_id (row_model t) = id) (iterchildren repo_model)
                      = None
                end →
            ∃ w', toggled = (Ok tt, w') ∧ cfg w' = cfg w
              ∧ EvInstall cid rid id ∉ drop (length (trace w)) (trace w'))
       ∧ (∀ old repo_path repo_model pi plugin_model,
            installed_truthy (row_model row) = false →
            installed !! id = Some old → old ≠ Some (new_src row repo catalog) →
            answer "Plugin installed from another source" = true →
            matching_repo_model (_model w) old = Some (repo_path, repo_model) →
            list_find (λ t, r_id (row_model t) = id) (iterchildren repo_model)
              = Some (pi, plugin_model) →
            (r_enabled (row_model plugin_model) = true → id ∈ enabled) →
            (∀ d, ∃ e, install_plugin (catalog_plugins w) cid rid id plugin_path d
                         = Raise e) →
            ∃ w', toggled = (Ok tt, w')
              ∧ plugins_installed (cfg w') =
                  (if on_disk plugin_path (disk w) id then delete id installed
                   else installed)
              ∧ plugins_enabled (cfg w') =
                  (if r_enabled (row_model plugin_model)
                   then without_first id enabled else enabled))).
Proof.
  intros Hget id installed enabled. split_and!.
  - intros klass Htype Hen Hloaded Hwhy.
    destruct (signal_renderer_toggled_enable_spec w path row klass Hget Htype Hen Hloaded)
      as (w' & Hrun & Herr & Hcompat & _ & Hrefused).
    exists w'. split; [done|].
    destruct (_module_errors w !! r_id (row_model row)) as [err|] eqn:Herrs.
    { by destruct (Herr (mk_is_Some _ _ eq_refl)). }
    destruct Hwhy as [Hsome|Hwhy].
    { destruct Hsome as [? Hsome]. unfold id in Hsome. congruence. }
    destruct (plugin_is_compatible klass) eqn:Hc.
    + destruct Hwhy as [Hno|Hr]; [discriminate Hno|].
      by destruct (Hrefused eq_refl eq_refl Hr).
    + by destruct (Hcompat eq_refl eq_refl).
  - intros Hnin.
    destruct (_disable_plugin_spec w path true row Hget)
      as (w' & Hrun & Hc & Hi & He & _).
    apply list_remove_None in Hnin. fold id in Hrun, He. unfold enabled in Hnin.
    rewrite Hnin in Hrun, He. exists w'. split; [done|].
    destruct (cfg w'), (cfg w). simpl in *. congruence.
  - intros selected_plugin e Hload.
    destruct (_reload_plugin_spec w path row selected_plugin Hget) as (w' & Hrun & Hcfg & _).
    by exists w'.
  - intros repo catalog Hat toggled cid rid. split_and!.
    + exact (toggled_install_uninstall_missing w path row repo catalog Hat).
    + exact (toggled_install_uninstall_declined w path row repo catalog Hat).
    + exact (toggled_install_uninstall_missing_enabled w path row repo catalog Hat).
    + intros e. exact (toggled_install_install_raises w path row repo catalog e Hat).
    + intros old. exact (toggled_install_replace_not_done w path row repo catalog old Hat).
    + intros old repo_path repo_model pi plugin_model.
      exact (toggled_install_replace_install_raises w path row repo catalog old
               repo_path repo_model pi plugin_model Hat).
Qed.

End Properties.

(** ** Further properties *)

Section Further.
Context {R C Doc Cat : Type} {PM : PluginManager R} {CM : CatalogManager C Doc Cat}.
Variable plugin_path : string.
Variable answer : string → bool.

Set Default Proof Using "Type".

Lemma bind_Ok {A B} (m : M R C A) (k : A → M R C B) (w w1 : window R C) (a : A) :
  m w = (Ok a, w1) → (m ≫= k) w = k a w1.
Proof. intros H. unfold mbind, M_bind. by rewrite H. Qed.

Lemma bind_Raise {A B} (m : M R C A) (k : A → M R C B) (w w1 : window R C) (e : exn) :
  m w = (Raise e, w1) → (m ≫= k) w = (Raise e, w1).
Proof. intros H. unfold mbind, M_bind. by rewrite H. Qed.

Lemma quiet_ret {A} (a : A) : quiet (mret a : M R C A).
Proof. intros w. split_and!; try done. exists []. by rewrite app_nil_r. Qed.

Lemma quiet_raise {A} (e : exn) : quiet (raise e : M R C A).
Proof. intros w. split_and!; try done. exists []. by rewrite app_nil_r. Qed.

Lemma quiet_gets {A} (f : window R C → A) : quiet (gets f).
Proof. intros w. split_and!; try done. exists []. by rewrite app_nil_r. Qed.

Lemma quiet_emit (e : event) :
  fetches [e] = [] → quiet (emit (R:=R) (C:=C) e).
Proof. intros He w. split_and!; try done. by exists [e]. Qed.

Lemma fetches_app (evs1 evs2 : list event) :
  fetches (evs1 ++ evs2) = fetches evs1 ++ fetches evs2.
Proof. apply omap_app. Qed.

Lemma quiet_bind {A B} (m : M R C A) (k : A → M R C B) :
  quiet m → (∀ a, quiet (k a)) → quiet (m ≫= k).
Proof.
  intros Hm Hk w. unfold mbind, M_bind. specialize (Hm w).
  destruct (m w) as [[a|e] w1]; simpl in *; [|done].
  destruct Hm as (<- & <- & <- & <- & <- & evs1 & Ht1 & Hf1).
  destruct (Hk a w1) as (-> & -> & -> & -> & -> & evs2 & -> & Hf2).
  split_and!; try done. exists (evs1 ++ evs2).
  by rewrite Ht1, app_assoc, fetches_app, Hf1, Hf2.
Qed.

Lemma quiet_for_each {A} (l : list A) (body : A → M R C unit) :
  (∀ a, quiet (body a)) → quiet (for_each l body).
Proof.
  intros Hbody. induction l as [|a l IH]; simpl; [apply quiet_ret|].
  apply quiet_bind; [apply Hbody|]. intros _. apply IH.
Qed.

Lemma quiet_store_append (parent : tree_path) (model : model_row) :
  quiet (_store_append (R:=R) (C:=C) parent model).
Proof.
  intros w. unfold _store_append. destruct (store_append _ _ _). simpl.
  split_and!; try done. exists []. by rewrite app_nil_r.
Qed.

Lemma quiet_store_extend (parent : tree_path) (models : list model_row) :
  quiet (_store_extend (R:=R) (C:=C) parent models).
Proof.
  apply quiet_for_each. intros m. apply quiet_bind; [apply quiet_store_append|].
  intros _. apply quiet_ret.
Qed.

Lemma quiet_add_plugins_to_tree (catalog_id : string) (repo : repository)
    (parent : tree_path) (plugin_list : list (string * plugin_info)) :
  quiet (_add_plugins_to_tree (R:=R) catalog_id repo parent plugin_list).
Proof.
  unfold _add_plugins_to_tree.
  apply quiet_bind; [apply quiet_gets|]. intros c.
  apply quiet_bind; [apply quiet_gets|]. intros cp. apply quiet_store_extend.
Qed.

Lemma quiet_add_plugins_offline (catalog_id repo_id : string) (parent : tree_path) :
  quiet (_add_plugins_offline (C:=C) catalog_id repo_id parent).
Proof.
  unfold _add_plugins_offline.
  apply quiet_bind; [apply quiet_gets|]. intros c.
  apply quiet_bind; [apply quiet_gets|]. intros pm.
  destruct (_add_plugins_offline_models _ _ _ _ _);
    [apply quiet_store_extend|apply quiet_raise].
Qed.

Lemma quiet_add_catalog_to_tree (catalog_id : string) :
  quiet (_add_catalog_to_tree (R:=R) catalog_id).
Proof.
  unfold _add_catalog_to_tree.
  apply quiet_bind; [apply quiet_store_append|]. intros catalog_row.
  apply quiet_bind; [apply quiet_gets|]. intros cp.
  apply quiet_for_each. intros repo.
  apply quiet_bind; [apply quiet_store_append|]. intros repo_row.
  destruct (get_collection _ _ _); [apply quiet_ret|apply quiet_add_plugins_to_tree].
Qed.

Lemma for_each_load_errors_effects (errors : list (string * exn)) (w : window R C) :
  ∃ w', for_each errors (λ '(name, error), _on_plugin_load_error name error) w
          = (Ok tt, w')
    ∧ cfg w' = cfg w ∧ plugin_manager w' = plugin_manager w ∧ _model w' = _model w
    ∧ catalog_plugins w' = catalog_plugins w ∧ disk w' = disk w ∧ trace w' = trace w
    ∧ _module_errors w'
        = foldl (λ m '(name, error), <[name := error]> m) (_module_errors w) errors.
Proof.
  revert w. induction errors as [|[name e] errors IH]; intros w; simpl.
  - by exists w.
  - unfold mbind, M_bind. simpl.
    destruct (IH (set_module_errors (<[name := e]> (_module_errors w)) w))
      as (w' & -> & ? & ? & ? & ? & ? & ? & ?).
    by exists w'.
Qed.

Lemma registry_load_all_effects (w : window R C) :
  ∃ w', registry_load_all w = (Ok tt, w')
    ∧ cfg w' = cfg w
    ∧ plugin_manager w' = (pm_load_all (plugin_manager w)).1
    ∧ _model w' = _model w
    ∧ catalog_plugins w' = catalog_plugins w ∧ disk w' = disk w
    ∧ trace w' = trace w ++ [EvRegistry PmLoadAll]
    ∧ _module_errors w'
        = foldl (λ m '(name, error), <[name := error]> m) (_module_errors w)
            (pm_load_all (plugin_manager w)).2.
Proof.
  unfold registry_load_all, mbind, M_bind. simpl.
  destruct (pm_load_all (plugin_manager w)) as [pm' errors]. simpl.
  match goal with
  | |- context [for_each errors ?f ?w0] =>
      destruct (for_each_load_errors_effects errors w0)
        as (w' & -> & ? & ? & ? & ? & ? & ? & ?)
  end.
  by exists w'.
Qed.

Lemma _load_plugins_local_models_effects (items : list (string * plugin_class))
    (w : window R C) :
  ∃ models w', _load_plugins_local_models items w = (Ok models, w')
    ∧ _module_errors w' = _module_errors w ∧ _model w' = _model w
    ∧ plugin_manager w' = plugin_manager w
    ∧ catalog_plugins w' = catalog_plugins w ∧ disk w' = disk w ∧ trace w' = trace w.
Proof.
  revert w. induction items as [|[name plugin] items IH]; intros w; simpl.
  - by exists [], w.
  - unfold mbind, M_bind. simpl.
    destruct (plugins_installed (cfg w) !! name) as [[src|]|] eqn:Hrec; simpl.
    + apply IH.
    + match goal with
      | |- context [_load_plugins_local_models items ?w0] =>
          destruct (IH w0) as (models & w' & -> & ? & ? & ? & ? & ? & ?)
      end.
      eexists _, w'. split; [reflexivity|]. done.
    + match goal with
      | |- context [_load_plugins_local_models items ?w0] =>
          destruct (IH w0) as (models & w' & -> & ? & ? & ? & ? & ? & ?)
      end.
      eexists _, w'. split; [reflexivity|]. done.
Qed.

(** What [_load_plugins] leaves behind besides the rows and the
    configuration. *)
Lemma _load_plugins_effects (w : window R C) :
  let w' := (_load_plugins w).2 in
  _module_errors w' = reported_errors (pm_load_all (plugin_manager w)).2
  ∧ catalog_plugins w' = catalog_plugins w
  ∧ disk w' = disk w
  ∧ ∃ evs, trace w' = trace w ++ evs ∧ fetches evs = [].
Proof.
  intros w'.
  assert (∃ (w3 : window R C) (rest : M R C unit),
            _load_plugins w = rest w3 ∧ quiet rest
            ∧ _module_errors w3 = reported_errors (pm_load_all (plugin_manager w)).2
            ∧ catalog_plugins w3 = catalog_plugins w
            ∧ disk w3 = disk w
            ∧ ∃ evs, trace w3 = trace w ++ evs ∧ fetches evs = [])
    as (w3 & rest & Hrun & Hquiet & He & Hcp & Hd & evs & Ht & Hf).
  { unfold _load_plugins. unfold mbind at 1 2 3 4 5. unfold M_bind. simpl.
    match goal with
    | |- context [registry_load_all ?w0] =>
        destruct (registry_load_all_effects w0)
          as (w1 & -> & Hc1 & Hp1 & Hm1 & Hcp1 & Hd1 & Ht1 & He1)
    end.
    simpl in Hc1, Hp1, Hm1, Hcp1, Hd1, Ht1, He1.
    unfold mbind at 1. unfold _store_append at 1.
    destruct (store_append (_model w1) [] _) as [s2 p2] eqn:Happ.
    unfold mbind at 1. unfold gets at 1.
    cbn [plugin_manager set_model].
    unfold mbind at 1.
    destruct (_load_plugins_local_models_effects
                (map_to_list (pm_loaded_plugins (plugin_manager w1))) (set_model s2 w1))
      as (models & w3 & -> & He3 & Hm3 & Hp3 & Hcp3 & Hd3 & Ht3).
    simpl in He3, Hm3, Hp3, Hcp3, Hd3, Ht3.
    eexists w3, _. split; [reflexivity|].
    split.
    { apply quiet_bind; [apply quiet_store_extend|]. intros _.
      apply quiet_bind; [apply quiet_gets|]. intros errors.
      apply quiet_bind.
      { apply quiet_for_each. intros [name e].
        apply quiet_bind; [apply quiet_store_append|]. intros _. apply quiet_ret. }
      intros _. apply quiet_bind; [by apply quiet_emit|]. intros _.
      apply quiet_bind; [apply quiet_gets|]. intros cp.
      apply quiet_bind.
      { apply quiet_for_each. intros cid. apply quiet_add_catalog_to_tree. }
      intros _. apply quiet_bind.
      { apply quiet_for_each. intros cid.
        destruct (catalogs_get cp cid); [apply quiet_ret|].
        apply quiet_bind; [apply quiet_store_append|]. intros catalog_row.
        apply quiet_for_each. intros repo.
        apply quiet_bind; [apply quiet_store_append|]. intros repo_row.
        apply quiet_add_plugins_offline. }
      intros _. apply quiet_bind; [by apply quiet_emit|]. intros _. by apply quiet_emit. }
    rewrite He3, Hcp3, Hd3, Ht3, He1, Hcp1, Hd1, Ht1.
    split_and!; try done. eexists. rewrite <- !app_assoc. split; [reflexivity|done]. }
  unfold w'. rewrite Hrun.
  destruct (Hquiet w3) as (_ & -> & _ & -> & -> & evs' & -> & Hf').
  split_and!; try done. exists (evs ++ evs').
  by rewrite Ht, app_assoc, fetches_app, Hf, Hf'.
Qed.

(** *** Reconciliation: errors, footprint and the local catalog *)

Lemma reported_errors_lookup (errors : list (string * exn)) (m : gmap string exn)
    (name : string) :
  is_Some (foldl (λ m '(name, error), <[name := error]> m) m errors !! name)
  ↔ is_Some (m !! name) ∨ name ∈ errors.*1.
Proof.
  clear plugin_path answer.
  revert m. induction errors as [|[n e] errors IH]; intros m; simpl.
  - rewrite elem_of_nil. tauto.
  - rewrite IH, elem_of_cons. destruct (decide (n = name)) as [->|Hne].
    + rewrite lookup_insert_eq. split; [intros _; right; by left|].
      intros _. left. eauto.
    + rewrite lookup_insert_ne by done. split; [tauto|].
      intros [?|[?|?]]; [tauto|congruence|tauto].
Qed.

(** X1: reconciliation starts the module error record afresh: afterwards a
    plugin has a module error exactly when [load_all] reported one for it in
    this run, whatever was on record before. *)
Theorem load_plugins_module_errors (w : window R C) (name : string) :
  let w' := (_load_plugins w).2 in
  let errors := (pm_load_all (plugin_manager w)).2 in
  _module_errors w' = reported_errors errors
  ∧ (is_Some (_module_errors w' !! name) ↔ name ∈ errors.*1).
Proof.
  clear plugin_path answer.
  intros w' errors. destruct (_load_plugins_effects w) as (He & _).
  fold w' in He. split; [exact He|]. rewrite He. unfold reported_errors.
  rewrite reported_errors_lookup, lookup_empty. split; [|tauto].
  intros [[? [=]]|?]; done.
Qed.

(** X2: reconciliation never touches the disk, the catalog manager, the
    Enabled Set or the configured catalog URLs, and never asks the transport
    for anything, whether or not its tree building completes. *)
Theorem load_plugins_leaves_alone (w : window R C) :
  let w' := (_load_plugins w).2 in
  disk w' = disk w
  ∧ catalog_plugins w' = catalog_plugins w
  ∧ plugins_enabled (cfg w') = plugins_enabled (cfg w)
  ∧ catalogs (cfg w') = catalogs (cfg w)
  ∧ fetches (drop (length (trace w)) (trace w')) = [].
Proof.
  intros w'. destruct (_load_plugins_effects w) as (_ & Hcp & Hd & evs & Ht & Hf).
  destruct (_load_plugins_cfg w) as (_ & Hc & _ & He).
  fold w' in Hcp, Hd, Ht, Hc, He. split_and!; try done.
  by rewrite Ht, drop_app_length.
Qed.







(** *** The enable toggle *)

(** X4: a toggle of the enable column on a catalog row, a repository row or
    the row of a plugin that the registry has not loaded returns with nothing
    changed and nothing shown. *)
Theorem enable_toggle_ignored (w : window R C) (path : tree_path) (row : tree_row) :
  store_get (_model w) path = Some row →
  r_type (row_model row) ≠ ROW_TYPE_PLUGIN
    ∨ pm_loaded_plugins (plugin_manager w) !! r_id (row_model row) = None →
  signal_renderer_toggled_enable path w = (Ok tt, w).
Proof.
  intros Hget Hwhy. unfold signal_renderer_toggled_enable.
  erewrite bind_Ok by (by apply model_getitem_Some). cbn beta zeta.
  destruct (decide (r_type (row_model row) = ROW_TYPE_PLUGIN)) as [Ht|Ht].
  - rewrite (bool_decide_eq_true_2 _ Ht). simpl.
    destruct Hwhy as [?|Hl]; [done|].
    erewrite bind_Ok by reflexivity. cbn beta. by rewrite Hl.
  - by rewrite (bool_decide_eq_false_2 _ Ht).
Qed.

(** X5: while a module error is on record for a loaded plugin, the toggle of
    its row only shows the "Can Not Enable Plugin" dialog, also when the row
    is shown as enabled: such a plugin cannot be disabled through the toggle
    either. *)
Theorem enable_toggle_blocked_by_module_error (w : window R C) (path : tree_path)
    (row : tree_row) :
  store_get (_model w) path = Some row →
  r_type (row_model row) = ROW_TYPE_PLUGIN →
  is_Some (pm_loaded_plugins (plugin_manager w) !! r_id (row_model row)) →
  is_Some (_module_errors w !! r_id (row_model row)) →
  ∃ w', signal_renderer_toggled_enable path w = (Ok tt, w')
    ∧ only_emitted w w'
        [EvDialogError "Can Not Enable Plugin"
           "Can not enable a plugin which failed to load."].
Proof.
  intros Hget Htype [klass Hl] Herr. unfold signal_renderer_toggled_enable.
  erewrite bind_Ok by (by apply model_getitem_Some). cbn beta zeta.
  rewrite Htype. simpl. erewrite bind_Ok by reflexivity. cbn beta. rewrite Hl.
  erewrite bind_Ok by reflexivity. cbn beta.
  rewrite (bool_decide_eq_true_2 _ Herr).
  eexists. split; [reflexivity|]. done.
Qed.

(** On the row of a loaded plugin that is shown as enabled and has no module
    error, the enable toggle comes down to [_disable_plugin]. *)
Lemma signal_renderer_toggled_enable_enabled_row (w : window R C) (path : tree_path)
    (row : tree_row) :
  store_get (_model w) path = Some row →
  r_type (row_model row) = ROW_TYPE_PLUGIN →
  is_Some (pm_loaded_plugins (plugin_manager w) !! r_id (row_model row)) →
  _module_errors w !! r_id (row_model row) = None →
  r_enabled (row_model row) = true →
  signal_renderer_toggled_enable path w = _disable_plugin path true w.
Proof.
  intros Hget Htype [klass Hl] Herr Hen. unfold signal_renderer_toggled_enable.
  erewrite bind_Ok by (by apply model_getitem_Some). cbn beta zeta.
  rewrite Htype. simpl. erewrite bind_Ok by reflexivity. cbn beta. rewrite Hl.
  erewrite bind_Ok by reflexivity. cbn beta.
  rewrite bool_decide_eq_false_2 by (rewrite Herr; by intros [? [=]]).
  by rewrite Hen.
Qed.

(** X6: a toggle on the row of a loaded plugin that is shown as enabled and
    has no module error disables it: the registry's disable is called, the
    first occurrence of the id leaves the Enabled Set and the row's flag is
    cleared; the Installation Record and the disk are as before. *)
Theorem enable_toggle_disables (w : window R C) (path : tree_path) (row : tree_row) :
  store_get (_model w) path = Some row →
  r_type (row_model row) = ROW_TYPE_PLUGIN →
  is_Some (pm_loaded_plugins (plugin_manager w) !! r_id (row_model row)) →
  _module_errors w !! r_id (row_model row) = None →
  r_enabled (row_model row) = true →
  r_id (row_model row) ∈ plugins_enabled (cfg w) →
  ∃ w', signal_renderer_toggled_enable path w = (Ok tt, w')
    ∧ plugins_enabled (cfg w')
        = without_first (r_id (row_model row)) (plugins_enabled (cfg w))
    ∧ plugins_installed (cfg w') = plugins_installed (cfg w)
    ∧ catalogs (cfg w') = catalogs (cfg w)
    ∧ store_get (_model w') path
        = Some (TreeRow (set_enabled false (row_model row)) (iterchildren row))
    ∧ plugin_manager w' = pm_disable (plugin_manager w) (r_id (row_model row))
    ∧ disk w' = disk w.
Proof.
  intros Hget Htype Hl Herr Hen Hin.
  rewrite (signal_renderer_toggled_enable_enabled_row w path row Hget Htype Hl Herr Hen).
  destruct (_disable_plugin_spec w path true row Hget)
    as (w' & Hrun & Hc & Hi & He & _ & Hm & Hpm & _ & Hd & _).
  simpl in Hrun, He, Hm, Hpm.
  destruct (list_remove (r_id (row_model row)) (plugins_enabled (cfg w)))
    as [enabled'|] eqn:Hrm.
  2: { by apply list_remove_None in Hrm. }
  exists w'. split_and!; try done.
  - rewrite He. unfold without_first. by rewrite Hrm.
  - rewrite Hm. by apply store_get_alter.
Qed.

Lemma list_remove_snoc (x : string) (l : list string) :
  x ∉ l → list_remove x (l ++ [x]) = Some l.
Proof.
  induction l as [|y l IH]; simpl.
  - intros _. by rewrite decide_True.
  - intros [Hne Hnin]%not_elem_of_cons. rewrite decide_False by done.
    by rewrite IH.
Qed.

(** X7: enabling a plugin through the toggle and toggling its row again
    brings the Enabled Set back to what it was, provided the id was not in it
    before; the row shows the plugin as not enabled again. *)
Theorem enable_then_disable (w : window R C) (path : tree_path) (row : tree_row)
    (klass : plugin_class) :
  store_get (_model w) path = Some row →
  r_type (row_model row) = ROW_TYPE_PLUGIN →
  r_enabled (row_model row) = false →
  let id := r_id (row_model row) in
  pm_loaded_plugins (plugin_manager w) !! id = Some klass →
  _module_errors w !! id = None →
  plugin_is_compatible klass = true →
  (pm_enable (plugin_manager w) id).2 = true →
  is_Some (pm_loaded_plugins (pm_enable (plugin_manager w) id).1 !! id) →
  id ∉ plugins_enabled (cfg w) →
  ∃ w1 w2,
    signal_renderer_toggled_enable path w = (Ok tt, w1)
    ∧ plugins_enabled (cfg w1) = plugins_enabled (cfg w) ++ [id]
    ∧ signal_renderer_toggled_enable path w1 = (Ok tt, w2)
    ∧ cfg w2 = cfg w
    ∧ store_get (_model w2) path = Some row
    ∧ plugin_manager w2 = pm_disable (pm_enable (plugin_manager w) id).1 id.
Proof.
  intros Hget Htype Hen id Hl Herr Hcompat Hok Hstill Hnin.
  assert (∃ w1, signal_renderer_toggled_enable path w = (Ok tt, w1)
            ∧ plugins_enabled (cfg w1) = plugins_enabled (cfg w) ++ [id]
            ∧ plugins_installed (cfg w1) = plugins_installed (cfg w)
            ∧ catalogs (cfg w1) = catalogs (cfg w)
            ∧ store_get (_model w1) path
                = Some (TreeRow (set_enabled true (row_model row)) (iterchildren row))
            ∧ plugin_manager w1 = (pm_enable (plugin_manager w) id).1
            ∧ _module_errors w1 = _module_errors w)
    as (w1 & Hrun1 & He1 & Hi1 & Hc1 & Hget1 & Hpm1 & Herr1).
  { unfold signal_renderer_toggled_enable.
    erewrite bind_Ok by (by apply model_getitem_Some). cbn beta zeta.
    rewrite Htype. simpl. erewrite bind_Ok by reflexivity. cbn beta. fold id. rewrite Hl.
    erewrite bind_Ok by reflexivity. cbn beta.
    rewrite bool_decide_eq_false_2 by (rewrite Herr; by intros [? [=]]).
    rewrite Hen, Hcompat. simpl.
    unfold registry_enable, mbind, M_bind. simpl.
    destruct (pm_enable (plugin_manager w) id) as [pm' ok]. simpl in *. subst ok. simpl.
    unfold _set_model_item, mbind, M_bind.
    erewrite model_getitem_Some by (simpl; exact Hget). simpl.
    eexists. split; [reflexivity|]. simpl. split_and!; try done.
    by apply store_get_alter. }
  assert (signal_renderer_toggled_enable path w1 = _disable_plugin path true w1) as Hsame.
  { apply (signal_renderer_toggled_enable_enabled_row w1 path _ Hget1); simpl; fold id.
    - done.
    - rewrite Hpm1. exact Hstill.
    - by rewrite Herr1.
    - done. }
  destruct (_disable_plugin_spec w1 path true _ Hget1)
    as (w2 & Hrun2 & Hc2 & Hi2 & He2 & _ & Hm2 & Hpm2 & _).
  simpl in Hrun2, He2, Hm2, Hpm2. fold id in Hrun2, He2, Hm2, Hpm2.
  rewrite He1, list_remove_snoc in Hrun2, He2, Hm2 by done. simpl in He2.
  exists w1, w2. rewrite Hsame. split_and!; try done.
  - destruct (cfg w2) as [c2 i2 e2], (cfg w) as [c0 i0 e0]. simpl in *. congruence.
  - rewrite Hm2. rewrite (store_get_alter _ _ _ _ Hget1). simpl.
    destruct row as [m c]. simpl in *. destruct m. simpl in *.
    unfold set_enabled. simpl. by rewrite Hen.
  - by rewrite Hpm2, Hpm1.
Qed.

(** *** Uninstall *)


(** What [_uninstall_plugin] does once it has found the plugin on disk. *)
Lemma _uninstall_plugin_effects (w : window R C) (model_path : tree_path)
    (model_row : tree_row) :
  store_get (_model w) model_path = Some model_row →
  let plugin_id := r_id (row_model model_row) in
  on_disk plugin_path (disk w) plugin_id = true →
  ∃ w', _uninstall_plugin plugin_path model_path w =
          (match plugins_installed (cfg w) !! plugin_id with
           | Some _ => Ok true
           | None => Raise KeyError
           end, w')
    ∧ disk w' = disk_without plugin_path (disk w) plugin_id
    ∧ plugin_manager w' = pm_unload (plugin_manager w) plugin_id
    ∧ catalogs (cfg w') = catalogs (cfg w)
    ∧ plugins_enabled (cfg w') = plugins_enabled (cfg w)
    ∧ plugins_installed (cfg w') = delete plugin_id (plugins_installed (cfg w))
    ∧ _module_errors w' = _module_errors w
    ∧ catalog_plugins w' = catalog_plugins w
    ∧ _model w' =
        match plugins_installed (cfg w) !! plugin_id with
        | None => _model w
        | Some _ =>
            if parent_is_local (_model w) model_path
            then store_delete (_model w) model_path
            else store_alter (set_installed false) (_model w) model_path
        end
    ∧ trace w' = trace w ++ EvRegistry (PmUnload plugin_id) ::
        match plugins_installed (cfg w) !! plugin_id with
        | None => []
        | Some _ => [EvLog INFO ("successfully uninstalled plugin " +:+ plugin_id)]
        end.
Proof using Type.
  intros Hget plugin_id Hdisk.
  assert (∀ d, ∃ w',
            _uninstall_plugin_finish model_path plugin_id (set_disk d w) =
              (match plugins_installed (cfg w) !! plugin_id with
               | Some _ => Ok true
               | None => Raise KeyError
               end, w')
            ∧ disk w' = d
            ∧ plugin_manager w' = pm_unload (plugin_manager w) plugin_id
            ∧ catalogs (cfg w') = catalogs (cfg w)
            ∧ plugins_enabled (cfg w') = plugins_enabled (cfg w)
            ∧ plugins_installed (cfg w') = delete plugin_id (plugins_installed (cfg w))
            ∧ _module_errors w' = _module_errors w
            ∧ catalog_plugins w' = catalog_plugins w
            ∧ _model w' =
                match plugins_installed (cfg w) !! plugin_id with
                | None => _model w
                | Some _ =>
                    if parent_is_local (_model w) model_path
                    then store_delete (_model w) model_path
                    else store_alter (set_installed false) (_model w) model_path
                end
            ∧ trace w' = trace w ++ EvRegistry (PmUnload plugin_id) ::
                match plugins_installed (cfg w) !! plugin_id with
                | None => []
                | Some _ => [EvLog INFO ("successfully uninstalled plugin " +:+ plugin_id)]
                end) as Hfinish.
  { intros d. unfold _uninstall_plugin_finish, mbind, M_bind. simpl.
    unfold parent_is_local.
    destruct (plugins_installed (cfg w) !! plugin_id) as [entry|] eqn:Hrec.
    - simpl. destruct (path_parent model_path) as [pp|] eqn:Hpp.
      + destruct (store_get_parent _ _ _ _ Hget Hpp) as [parent Hparent].
        erewrite model_getitem_Some by (simpl; exact Hparent). simpl. rewrite Hparent.
        destruct (decide (r_id (row_model parent) = _LOCAL_REPOSITORY_ID)) as [Hl|Hl]; simpl.
        * rewrite (bool_decide_eq_true_2 _ Hl).
          eexists. split; [reflexivity|]. simpl. split_and!; try done.
          by rewrite <- app_assoc.
        * rewrite (bool_decide_eq_false_2 _ Hl).
          unfold _set_model_item, mbind, M_bind.
          erewrite model_getitem_Some by (simpl; exact Hget). simpl.
          eexists. split; [reflexivity|]. simpl. split_and!; try done.
          by rewrite <- app_assoc.
      + simpl. unfold _set_model_item, mbind, M_bind.
        erewrite model_getitem_Some by (simpl; exact Hget). simpl.
        eexists. split; [reflexivity|]. simpl. split_and!; try done.
        by rewrite <- app_assoc.
    - eexists. split; [reflexivity|]. simpl. split_and!; try done.
      by rewrite delete_id. }
  unfold _uninstall_plugin, mbind, M_bind.
  rewrite (model_getitem_Some _ _ _ Hget). simpl. fold plugin_id.
  unfold on_disk in Hdisk. unfold disk_without.
  destruct (isfile (disk w) (path_join (path_join plugin_path plugin_id) "__init__.py"))
    eqn:Hpkg; simpl.
  - apply Hfinish.
  - simpl in Hdisk. rewrite Hdisk. simpl. apply Hfinish.
Qed.

(** X8: a successful [_uninstall_plugin] (files on disk, record present)
    returns [True]; the package directory, or else the single file, is gone
    from the disk, the registry has unloaded the plugin, the plugin's entry
    is deleted from the Installation Record while the Enabled Set is not
    touched, and the row is removed when it hangs under the local catalog
    and otherwise stays with its installed flag cleared. *)
Theorem uninstall_success (w : window R C) (model_path : tree_path)
    (model_row : tree_row) :
  store_get (_model w) model_path = Some model_row →
  let plugin_id := r_id (row_model model_row) in
  on_disk plugin_path (disk w) plugin_id = true →
  is_Some (plugins_installed (cfg w) !! plugin_id) →
  ∃ w', _uninstall_plugin plugin_path model_path w = (Ok true, w')
    ∧ disk w' = disk_without plugin_path (disk w) plugin_id
    ∧ plugin_manager w' = pm_unload (plugin_manager w) plugin_id
    ∧ plugins_installed (cfg w') = delete plugin_id (plugins_installed (cfg w))
    ∧ plugins_enabled (cfg w') = plugins_enabled (cfg w)
    ∧ _model w' =
        (if parent_is_local (_model w) model_path
         then store_delete (_model w) model_path
         else store_alter (set_installed false) (_model w) model_path).
Proof using Type.
  intros Hget plugin_id Hdisk [entry Hrec].
  destruct (_uninstall_plugin_effects w model_path model_row Hget Hdisk)
    as (w' & Hrun & Hd & Hpm & _ & He & Hi & _ & _ & Hm & _).
  fold plugin_id in Hrun, Hm. rewrite Hrec in Hrun, Hm. by exists w'.
Qed.

(** X9: uninstalling a plugin whose files are on disk but which has no
    Installation Record deletes the files and has the registry unload the
    plugin before [del] raises [KeyError]; the record, the Enabled Set and
    the rows are as before. *)
Theorem uninstall_without_record (w : window R C) (model_path : tree_path)
    (model_row : tree_row) :
  store_get (_model w) model_path = Some model_row →
  let plugin_id := r_id (row_model model_row) in
  on_disk plugin_path (disk w) plugin_id = true →
  plugins_installed (cfg w) !! plugin_id = None →
  ∃ w', _uninstall_plugin plugin_path model_path w = (Raise KeyError, w')
    ∧ disk w' = disk_without plugin_path (disk w) plugin_id
    ∧ plugin_manager w' = pm_unload (plugin_manager w) plugin_id
    ∧ cfg w' = cfg w
    ∧ _model w' = _model w.
Proof using Type.
  intros Hget plugin_id Hdisk Hrec.
  destruct (_uninstall_plugin_effects w model_path model_row Hget Hdisk)
    as (w' & Hrun & Hd & Hpm & Hc & He & Hi & _ & _ & Hm & _).
  fold plugin_id in Hrun, Hm, Hi. rewrite Hrec in Hrun, Hm. rewrite delete_id in Hi by done.
  exists w'. split_and!; try done.
  destruct (cfg w'), (cfg w). simpl in *. congruence.
Qed.


(** *** The install toggle *)

Ltac install_begin Hat :=
  let Hrow := fresh "Hrow" in
  let Hparents := fresh "Hparents" in
  destruct (toggled_install_start _ _ _ _ _ Hat) as [Hrow Hparents];
  unfold signal_renderer_toggled_install, mbind, M_bind;
  rewrite Hrow; simpl; rewrite Hparents; simpl; rewrite Hrow; simpl.

(** What the tail of the install handler does when the download goes
    through. *)
Lemma install_from_effects (w : window R C) (path : tree_path) (row : tree_row)
    (catalog_model repo_model named_row : model_row) (d' : gset string) :
  store_get (_model w) path = Some row →
  install_plugin (catalog_plugins w) (r_id catalog_model) (r_id repo_model)
    (r_id named_row) plugin_path (disk w) = Ok d' →
  let version := collection_version
                   (get_collection (catalog_plugins w) (r_id catalog_model)
                      (r_id repo_model)) (r_id named_row) in
  ∃ w', install_from plugin_path path catalog_model repo_model named_row w =
          (match version with Some _ => Ok tt | None => Raise KeyError end, w')
    ∧ plugins_installed (cfg w') =
        <[r_id named_row := Some (InstallSrc (r_id catalog_model) (r_id repo_model)
                                    (r_id named_row))]> (plugins_installed (cfg w))
    ∧ plugins_enabled (cfg w') = plugins_enabled (cfg w)
    ∧ catalogs (cfg w') = catalogs (cfg w)
    ∧ disk w' = d'
    ∧ catalog_plugins w' = catalog_plugins w
    ∧ plugin_manager w' =
        match version with
        | Some _ => (pm_load_all (plugin_manager w)).1
        | None => plugin_manager w
        end
    ∧ store_get (_model w') path =
        Some (TreeRow
                (match version with
                 | Some v => set_version v (set_installed true (row_model row))
                 | None => set_installed true (row_model row)
                 end) (iterchildren row)).
Proof using Type.
  intros Hget Hinstall version.
  unfold install_from, try_except, mbind, M_bind. simpl.
  rewrite Hinstall. simpl.
  unfold _set_model_item at 1. unfold mbind, M_bind.
  erewrite model_getitem_Some by (simpl; exact Hget). simpl.
  fold version. destruct version as [v|]; simpl.
  - pose proof (store_get_alter (set_installed true) _ _ _ Hget) as Hget1.
    unfold _set_model_item, mbind, M_bind.
    erewrite model_getitem_Some by (simpl; exact Hget1). simpl.
    match goal with
    | |- context [registry_load_all ?w0] =>
        destruct (registry_load_all_effects w0)
          as (w' & Hrun & Hcfg & Hpm & Hm & Hcp & Hd & _)
    end.
    rewrite Hrun. exists w'. split; [done|]. rewrite Hcfg, Hpm, Hm, Hcp, Hd. simpl.
    split_and!; try done.
    by rewrite (store_get_alter (set_version v) _ _ _ Hget1).
  - eexists. split; [reflexivity|]. simpl. split_and!; try done.
    by rewrite (store_get_alter (set_installed true) _ _ _ Hget).
Qed.

(** X11: the install toggle on a row that has no repository row and catalog row
    above it (a top-level row, or a row directly under a top-level row such
    as the plugins of the local catalog) raises [TypeError] before anything
    is changed or shown. *)
Theorem install_toggle_needs_two_parents (w : window R C) (path : tree_path)
    (row : tree_row) :
  store_get (_model w) path = Some row →
  (length path ≤ 2)%nat →
  signal_renderer_toggled_install plugin_path answer path w = (Raise TypeError, w).
Proof using Type.
  intros Hget Hlen.
  unfold signal_renderer_toggled_install, mbind, M_bind.
  rewrite (model_getitem_Some _ _ _ Hget). simpl.
  unfold _get_plugin_model_parents.
  destruct path as [|i [|j [|k rest]]]; simpl in *; try done. lia.
Qed.

(** X12: installing a plugin that has no Installation Record, when the
    download goes through and the repository's collection lists the plugin:
    the handler returns normally, the record names the row's catalog and
    repository as the plugin's source, the Enabled Set is as before, the
    disk is what the catalog manager made of it, the row shows as installed
    with the collection's version, and the registry has loaded all plugins
    again. *)
Theorem install_success (w : window R C) (path : tree_path)
    (row repo catalog : tree_row) (d' : gset string) (v : string) :
  plugin_row_at (_model w) path row repo catalog →
  let id := r_id (row_model row) in
  installed_truthy (row_model row) = false →
  plugins_installed (cfg w) !! id = None →
  install_plugin (catalog_plugins w) (r_id (row_model catalog)) (r_id (row_model repo))
    id plugin_path (disk w) = Ok d' →
  collection_version
    (get_collection (catalog_plugins w) (r_id (row_model catalog))
       (r_id (row_model repo))) id = Some v →
  ∃ w', signal_renderer_toggled_install plugin_path answer path w = (Ok tt, w')
    ∧ plugins_installed (cfg w') =
        <[id := Some (new_src row repo catalog)]> (plugins_installed (cfg w))
    ∧ plugins_enabled (cfg w') = plugins_enabled (cfg w)
    ∧ disk w' = d'
    ∧ plugin_manager w' = (pm_load_all (plugin_manager w)).1
    ∧ store_get (_model w') path =
        Some (TreeRow (set_version v (set_installed true (row_model row)))
                (iterchildren row)).
Proof using Type.
  intros Hat id Hinst Hrec Hinstall Hversion. subst id. install_begin Hat.
  rewrite Hinst. simpl. rewrite Hrec. simpl.
  destruct (install_from_effects w path row (row_model catalog) (row_model repo)
              (row_model row) d' (proj1 Hat) Hinstall)
    as (w' & Hrun & Hi & He & _ & Hd & _ & Hpm & Hm).
  rewrite Hversion in Hrun, Hpm, Hm.
  exists w'. by split_and!.
Qed.

(** X13: when the download goes through but the repository's collection does
    not list the plugin, the handler raises [KeyError] after the files and
    the Installation Record were written: the record names the new source,
    the row shows as installed with its old version, and the registry was
    not asked to load the plugin. *)
Theorem install_version_missing (w : window R C) (path : tree_path)
    (row repo catalog : tree_row) (d' : gset string) :
  plugin_row_at (_model w) path row repo catalog →
  let id := r_id (row_model row) in
  installed_truthy (row_model row) = false →
  plugins_installed (cfg w) !! id = None →
  install_plugin (catalog_plugins w) (r_id (row_model catalog)) (r_id (row_model repo))
    id plugin_path (disk w) = Ok d' →
  collection_version
    (get_collection (catalog_plugins w) (r_id (row_model catalog))
       (r_id (row_model repo))) id = None →
  ∃ w', signal_renderer_toggled_install plugin_path answer path w = (Raise KeyError, w')
    ∧ plugins_installed (cfg w') =
        <[id := Some (new_src row repo catalog)]> (plugins_installed (cfg w))
    ∧ disk w' = d'
    ∧ plugin_manager w' = plugin_manager w
    ∧ store_get (_model w') path =
        Some (TreeRow (set_installed true (row_model row)) (iterchildren row)).
Proof using Type.
  intros Hat id Hinst Hrec Hinstall Hversion. subst id. install_begin Hat.
  rewrite Hinst. simpl. rewrite Hrec. simpl.
  destruct (install_from_effects w path row (row_model catalog) (row_model repo)
              (row_model row) d' (proj1 Hat) Hinstall)
    as (w' & Hrun & Hi & _ & _ & Hd & _ & Hpm & Hm).
  rewrite Hversion in Hrun, Hpm, Hm.
  exists w'. by split_and!.
Qed.

(** X14: the install toggle on an installed, enabled row, the user confirming
    the dialog, with the plugin in the Enabled Set, on disk and recorded:
    the plugin is disabled and then uninstalled.  The first occurrence of
    its id leaves the Enabled Set, its entry leaves the Installation Record,
    the files are gone, and the registry was asked to disable and then to
    unload it, after the dialog was shown. *)
Theorem uninstall_toggle_enabled_confirmed (w : window R C) (path : tree_path)
    (row repo catalog : tree_row) :
  plugin_row_at (_model w) path row repo catalog →
  let id := r_id (row_model row) in
  installed_truthy (row_model row) = true →
  r_enabled (row_model row) = true →
  answer "Plugin is Enabled" = true →
  id ∈ plugins_enabled (cfg w) →
  on_disk plugin_path (disk w) id = true →
  is_Some (plugins_installed (cfg w) !! id) →
  ∃ w', signal_renderer_toggled_install plugin_path answer path w = (Ok tt, w')
    ∧ plugins_enabled (cfg w') = without_first id (plugins_enabled (cfg w))
    ∧ plugins_installed (cfg w') = delete id (plugins_installed (cfg w))
    ∧ disk w' = disk_without plugin_path (disk w) id
    ∧ plugin_manager w' = pm_unload (pm_disable (plugin_manager w) id) id
    ∧ trace w' = trace w ++
        [EvStatus ("Uninstalling plugin " +:+ id +:+ "...");
         EvDialogYesNo "Plugin is Enabled"
           "This will disable the plugin, do you want to continue?";
         EvRegistry (PmDisable id);
         EvRegistry (PmUnload id);
         EvLog INFO ("successfully uninstalled plugin " +:+ id);
         EvStatus ("Uninstalling plugin " +:+ id +:+ " completed.")].
Proof using Type.
  intros Hat id Hinst Hen Hyes Hin Hdisk [entry Hrec]. subst id. install_begin Hat.
  rewrite Hinst, Hen. simpl. rewrite Hyes. simpl.
  match goal with
  | |- context [_disable_plugin path true ?w0] =>
      destruct (_disable_plugin_spec w0 path true row (proj1 Hat))
        as (w1 & Hrun1 & _ & Hi1 & He1 & _ & Hm1 & Hpm1 & _ & Hd1 & Ht1)
  end.
  simpl in Hrun1, Hi1, He1, Hm1, Hd1, Hpm1, Ht1.
  destruct (list_remove (r_id (row_model row)) (plugins_enabled (cfg w)))
    as [enabled'|] eqn:Hrm.
  2: { apply list_remove_None in Hrm. done. }
  rewrite Hrun1.
  assert (store_get (_model w1) path
          = Some (TreeRow (set_enabled false (row_model row)) (iterchildren row))) as Hget1.
  { rewrite Hm1. apply store_get_alter. apply Hat. }
  assert (on_disk plugin_path (disk w1) (r_id (row_model row)) = true) as Hdisk1
    by (by rewrite Hd1).
  destruct (_uninstall_plugin_effects w1 path _ Hget1 Hdisk1)
    as (w2 & Hrun2 & Hd2 & Hpm2 & _ & He2 & Hi2 & _ & _ & _ & Ht2).
  simpl in Hrun2, Hd2, Hpm2, He2, Hi2, Ht2.
  rewrite Hi1, Hrec in Hrun2, Ht2.
  simpl. rewrite Hrun2. simpl. eexists. split; [reflexivity|]. simpl.
  rewrite He2, He1, Hi2, Hi1, Hd2, Hd1, Hpm2, Hpm1, Ht2, Ht1.
  unfold without_first. rewrite Hrm. split_and!; try done.
  by rewrite <- !app_assoc.
Qed.

(** X15: [_remove_matching_plugin] answers [True] as soon as it finds the old
    copy's row, without looking at what [_uninstall_plugin] returned: when the
    old copy's row is not enabled and its files are not on disk, the answer
    is [True] although nothing was uninstalled and the configuration is as
    before. *)
Theorem remove_matching_ignores_uninstall_result (w : window R C) (path : tree_path)
    (row : tree_row) (plugin_src : option install_src)
    (repo_path : tree_path) (repo_model : tree_row) (pi : nat) (plugin_model : tree_row) :
  store_get (_model w) path = Some row →
  let id := r_id (row_model row) in
  matching_repo_model (_model w) plugin_src = Some (repo_path, repo_model) →
  list_find (λ t, r_id (row_model t) = id) (iterchildren repo_model)
    = Some (pi, plugin_model) →
  r_enabled (row_model plugin_model) = false →
  on_disk plugin_path (disk w) id = false →
  ∃ w', _remove_matching_plugin plugin_path path plugin_src w = (Ok true, w')
    ∧ only_emitted w w'
        [EvLog WARNING ("failed to find plugin " +:+ id +:+ " on disk for removal")].
Proof using Type.
  intros Hget id Hrepo Hfind Hen Hdisk.
  pose proof (matching_repo_model_get _ _ _ _ Hrepo) as Hrp.
  apply list_find_Some in Hfind as Hf. destruct Hf as (Hpi & Hid & _).
  pose proof (store_get_snoc _ _ _ pi Hrp) as Hold. rewrite Hpi in Hold.
  unfold _remove_matching_plugin, mbind, M_bind.
  rewrite (model_getitem_Some _ _ _ Hget). simpl. fold id.
  rewrite Hrepo, Hfind, Hen.
  unfold _uninstall_plugin, mbind, M_bind. simpl.
  rewrite (model_getitem_Some _ _ _ Hold). simpl. rewrite Hid.
  unfold on_disk in Hdisk. apply orb_false_iff in Hdisk as [H1 H2].
  rewrite H1, H2. simpl. eexists. split; [reflexivity|].
  unfold only_emitted. simpl. done.
Qed.

(** *** Loading the catalogs *)

(** What [download_catalog] does: it never raises, asks the transport once,
    and touches nothing but the catalog manager. *)
Lemma download_catalog_effects (w : window R C) (catalog_url : string) :
  ∃ w', download_catalog catalog_url w = (Ok tt, w')
    ∧ cfg w' = cfg w ∧ _module_errors w' = _module_errors w
    ∧ _model w' = _model w ∧ plugin_manager w' = plugin_manager w
    ∧ disk w' = disk w
    ∧ catalog_plugins w' = after_download (catalog_plugins w) catalog_url
    ∧ ∃ evs, trace w' = trace w ++ evs ∧ fetches evs = [catalog_url].
Proof.
  unfold download_catalog, _load_catalog_from_url, after_download, mbind, M_bind. simpl.
  destruct (Catalog_from_url catalog_url) as [catalog|e]; simpl;
    [|destruct (decide (e = ConnectionError)); simpl];
    (eexists; split; [reflexivity|]); simpl; split_and!; try done;
    rewrite <- !app_assoc; eexists; (split; [reflexivity|done]).
Qed.

(** X16: a round of [_load_catalogs] for a URL that is refreshed or has no
    cache entry never raises, whatever the transport raised: the transport
    is asked for the URL exactly once, the catalog is added to the manager
    and written to the cache when it arrived and the manager is left as it
    was when it did not, and the configuration, the rows, the registry and
    the disk are as before. *)
Theorem download_round (w : window R C) (refresh : bool) (now : Z)
    (catalog_url : string) :
  refresh = true ∨ get_catalog_by_url (catalog_plugins w) catalog_url = None →
  ∃ w', _load_catalogs_url refresh now catalog_url w = (Ok tt, w')
    ∧ fetches (drop (length (trace w)) (trace w')) = [catalog_url]
    ∧ catalog_plugins w' = after_download (catalog_plugins w) catalog_url
    ∧ cfg w' = cfg w ∧ _model w' = _model w
    ∧ plugin_manager w' = plugin_manager w ∧ disk w' = disk w.
Proof.
  intros Hwhy.
  destruct (download_catalog_effects w catalog_url)
    as (w' & Hrun & Hcfg & _ & Hm & Hpm & Hd & Hcp & evs & Ht & Hf).
  exists w'. split.
  - unfold _load_catalogs_url, mbind, M_bind. simpl.
    destruct (get_catalog_by_url (catalog_plugins w) catalog_url) as [entry|] eqn:Hentry;
      [|done].
    destruct Hwhy as [->|?]; [done|congruence].
  - split_and!; try done. by rewrite Ht, drop_app_length.
Qed.

(** X17: a cached document that is still fresh but that the [Catalog]
    constructor rejects with [KeyError] or [TypeError] stops catalog
    loading: formatting the warning reads [error.__class__.__name], which
    raises [AttributeError], so when this happens at the first configured
    URL [_load_catalogs] raises before any catalog is fetched and before
    the rows are rebuilt, and the registry is not asked to load anything. *)
Theorem stale_document_stops_loading (w : window R C) (now : Z)
    (catalog_url : string) (rest : list string) (entry : cache_entry Doc) (e : exn) :
  catalogs (cfg w) = catalog_url :: rest →
  get_catalog_by_url (ClientCatalogManager (catalog_plugins w)) catalog_url = Some entry →
  (now < created entry + expiration)%Z →
  Catalog (value entry) = Raise e →
  e = KeyError ∨ e = TypeError →
  ∃ w', _load_catalogs false now w = (Raise AttributeError, w')
    ∧ _model w' = _model w
    ∧ cfg w' = cfg w
    ∧ plugin_manager w' = plugin_manager w
    ∧ trace w' = trace w ++ [EvStatus "Loading, catalogs..."].
Proof.
  intros Hurls Hentry Hfresh Hparse He.
  unfold _load_catalogs, mbind, M_bind. simpl. rewrite Hurls. simpl.
  unfold _load_catalogs_url, mbind, M_bind. simpl. rewrite Hentry.
  rewrite (bool_decide_eq_true_2 _ Hfresh). simpl. rewrite Hparse.
  rewrite (bool_decide_eq_true_2 _ He). simpl.
  eexists. split; [reflexivity|]. done.
Qed.

Lemma for_each_refresh (now : Z) (urls : list string) (w : window R C) :
  ∃ w', for_each urls (_load_catalogs_url true now) w = (Ok tt, w')
    ∧ cfg w' = cfg w ∧ _model w' = _model w
    ∧ plugin_manager w' = plugin_manager w ∧ disk w' = disk w
    ∧ catalog_plugins w' = foldl after_download (catalog_plugins w) urls
    ∧ ∃ evs, trace w' = trace w ++ evs ∧ fetches evs = urls.
Proof.
  revert w. induction urls as [|catalog_url urls IH]; intros w; simpl.
  - exists w. split_and!; try done. exists []. by rewrite app_nil_r.
  - assert (_load_catalogs_url true now catalog_url w = download_catalog catalog_url w)
      as Hsame.
    { unfold _load_catalogs_url, mbind, M_bind. simpl.
      by destruct (get_catalog_by_url (catalog_plugins w) catalog_url). }
    destruct (download_catalog_effects w catalog_url)
      as (w1 & Hrun1 & Hcfg1 & _ & Hm1 & Hpm1 & Hd1 & Hcp1 & evs1 & Ht1 & Hf1).
    rewrite <- Hsame in Hrun1.
    erewrite bind_Ok by exact Hrun1.
    destruct (IH w1) as (w' & Hrun & Hcfg & Hm & Hpm & Hd & Hcp & evs & Ht & Hf).
    exists w'. rewrite Hrun, Hcfg, Hm, Hpm, Hd, Hcp, Hcfg1, Hm1, Hpm1, Hd1, Hcp1.
    split_and!; try done.
    exists (evs1 ++ evs). rewrite Ht, Ht1, <- app_assoc. split; [done|].
    by rewrite fetches_app, Hf1, Hf.
Qed.

(** X18: [_load_catalogs] with [refresh] set asks the transport for every
    configured catalog URL, once each and in the configured order, whatever
    the cache holds and whether or not the fetches succeed; the manager it
    ends with is the fresh one with every catalog that arrived added and
    cached; the Enabled Set, the configured URLs and the disk are as
    before. *)
Theorem refresh_fetches_every_catalog (w : window R C) (now : Z) :
  let w' := (_load_catalogs true now w).2 in
  fetches (drop (length (trace w)) (trace w')) = catalogs (cfg w)
  ∧ catalog_plugins w'
      = foldl after_download (ClientCatalogManager (catalog_plugins w)) (catalogs (cfg w))
  ∧ plugins_enabled (cfg w') = plugins_enabled (cfg w)
  ∧ catalogs (cfg w') = catalogs (cfg w)
  ∧ disk w' = disk w.
Proof.
  intros w'. unfold w', _load_catalogs, mbind, M_bind. simpl.
  match goal with
  | |- context [for_each _ _ ?w0] =>
      destruct (for_each_refresh now (catalogs (cfg w)) w0)
        as (w1 & Hrun1 & Hcfg1 & _ & _ & Hd1 & Hcp1 & evs1 & Ht1 & Hf1)
  end.
  simpl in Hcfg1, Hd1, Hcp1, Ht1. rewrite Hrun1.
  destruct (_load_plugins_effects w1) as (_ & Hcp & Hd & evs & Ht & Hf).
  destruct (_load_plugins_cfg w1) as (_ & Hc & _ & He).
  rewrite Ht, Hcp, Hd, Hc, He, Hcfg1, Hd1, Hcp1, Ht1.
  split_and!; try done.
  rewrite <- !app_assoc, drop_app_length. simpl.
  by rewrite fetches_app, Hf1, Hf, app_nil_r.
Qed.

(** *** Reloading what is selected *)

Lemma settings_ret {A} (a : A) : keeps_settings (mret a : M R C A).
Proof. done. Qed.

Lemma settings_raise {A} (e : exn) : keeps_settings (raise e : M R C A).
Proof. done. Qed.

Lemma settings_gets {A} (f : window R C → A) : keeps_settings (gets f).
Proof. done. Qed.

Lemma settings_emit (e : event) : keeps_settings (emit (R:=R) (C:=C) e).
Proof. done. Qed.

Lemma settings_modify (f : window R C → window R C) :
  (∀ w, cfg (f w) = cfg w ∧ disk (f w) = disk w) → keeps_settings (modify f).
Proof. intros Hf w. simpl. destruct (Hf w) as [-> ->]. done. Qed.

Lemma settings_bind {A B} (m : M R C A) (k : A → M R C B) :
  keeps_settings m → (∀ a, keeps_settings (k a)) → keeps_settings (m ≫= k).
Proof.
  intros Hm Hk w. unfold mbind, M_bind. specialize (Hm w).
  destruct (m w) as [[a|e] w1]; simpl in *; [|done].
  destruct (Hk a w1) as (-> & -> & ->). done.
Qed.

Lemma settings_try_except {A} (body : M R C A) (handler : exn → M R C A) :
  keeps_settings body → (∀ e, keeps_settings (handler e)) →
  keeps_settings (try_except body handler).
Proof.
  intros Hm Hk w. unfold try_except. specialize (Hm w).
  destruct (body w) as [[a|e] w1]; simpl in *; [done|].
  destruct (Hk e w1) as (-> & -> & ->). done.
Qed.

Lemma settings_for_each {A} (l : list A) (body : A → M R C unit) :
  (∀ a, keeps_settings (body a)) → keeps_settings (for_each l body).
Proof.
  intros Hbody. induction l as [|a l IH]; simpl; [apply settings_ret|].
  apply settings_bind; [apply Hbody|]. intros _. apply IH.
Qed.

Lemma settings_model_getitem (path : tree_path) :
  keeps_settings (model_getitem (R:=R) (C:=C) path).
Proof.
  unfold model_getitem. apply settings_bind; [apply settings_gets|]. intros s.
  destruct (store_get s path); [apply settings_ret|apply settings_raise].
Qed.

Lemma settings_set_model_item (path : tree_path) (item : model_row → model_row) :
  keeps_settings (_set_model_item (R:=R) (C:=C) path item).
Proof.
  unfold _set_model_item. apply settings_bind; [apply settings_model_getitem|].
  intros _. by apply settings_modify.
Qed.

Lemma settings_load_plugins : keeps_settings (_load_plugins (R:=R) (C:=C)).
Proof.
  intros w. destruct (_load_plugins_effects w) as (_ & _ & Hd & _).
  destruct (_load_plugins_cfg w) as (_ & Hc & _ & He). done.
Qed.

Lemma settings_load_catalog_from_url (catalog_url : string) :
  keeps_settings (_load_catalog_from_url (R:=R) catalog_url).
Proof.
  unfold _load_catalog_from_url. apply settings_bind; [apply settings_emit|]. intros _.
  destruct (Catalog_from_url catalog_url) as [catalog|e]; [apply settings_ret|].
  destruct (decide (e = ConnectionError));
    (apply settings_bind; [apply settings_emit|]; intros _;
     apply settings_bind; [apply settings_emit|]; intros _; apply settings_ret).
Qed.

Lemma settings_reload_catalog (named_row : model_row) (tree_iter : tree_path) :
  keeps_settings (_reload_catalog (R:=R) named_row tree_iter).
Proof.
  unfold _reload_catalog.
  apply settings_bind; [by apply settings_modify|]. intros _.
  apply settings_bind; [apply settings_gets|]. intros cp.
  destruct (get_catalog_by_id cp (r_id named_row)) as [entry|]; [|apply settings_raise].
  destruct (decide (url entry = "")); [apply settings_ret|].
  apply settings_bind; [apply settings_load_catalog_from_url|]. intros [catalog|];
    [|apply settings_ret].
  apply settings_bind; [by apply settings_modify|]. intros _.
  apply settings_load_plugins.
Qed.

Lemma settings_registry_enable (name : string) :
  keeps_settings (registry_enable (R:=R) (C:=C) name).
Proof.
  unfold registry_enable. apply settings_bind; [apply settings_emit|]. intros _.
  apply settings_bind; [apply settings_gets|]. intros pm.
  destruct (pm_enable pm name) as [pm' ok].
  apply settings_bind; [by apply settings_modify|]. intros _. apply settings_ret.
Qed.

Lemma settings_registry_load (name : string) :
  keeps_settings (registry_load (R:=R) (C:=C) name).
Proof.
  unfold registry_load. apply settings_bind; [apply settings_emit|]. intros _.
  apply settings_bind; [apply settings_gets|]. intros pm.
  destruct (pm_load pm name) as [pm' [klass|e]];
    (apply settings_bind; [by apply settings_modify|]; intros _);
    [apply settings_ret|apply settings_raise].
Qed.

Lemma settings_set_info_if (b : Prop) `{Decision b} (id : string) :
  keeps_settings ((if decide b then _set_info id else mret tt) : M R C unit).
Proof. destruct (decide b); [apply settings_emit|apply settings_ret]. Qed.

Lemma settings_reload_plugin (tree_iter : tree_path) (selected_plugin : option string) :
  keeps_settings (_reload_plugin (R:=R) (C:=C) tree_iter selected_plugin).
Proof.
  unfold _reload_plugin.
  apply settings_bind; [apply settings_model_getitem|]. intros model_row.
  apply settings_bind; [apply settings_gets|]. intros pm.
  apply settings_bind.
  { unfold registry_unload. apply settings_bind; [apply settings_emit|]. intros _.
    by apply settings_modify. }
  intros _. apply settings_bind.
  { apply settings_try_except.
    - apply settings_bind; [apply settings_registry_load|]. intros klass.
      apply settings_ret.
    - intros error. apply settings_bind; [by apply settings_modify|]. intros _.
      apply settings_bind; [apply settings_set_info_if|]. intros _.
      apply settings_bind; [apply settings_set_model_item|]. intros _.
      apply settings_ret. }
  intros [klass|]; [|apply settings_ret].
  apply settings_bind; [by apply settings_modify|]. intros _.
  apply settings_bind; [apply settings_set_model_item|]. intros _.
  apply settings_bind; [apply settings_set_model_item|]. intros _.
  apply settings_bind; [apply settings_set_model_item|]. intros _.
  apply settings_bind; [apply settings_set_info_if|]. intros _.
  destruct (list_in _ _); [|apply settings_ret].
  apply settings_bind; [apply settings_registry_enable|]. intros _. apply settings_ret.
Qed.

Lemma settings_reload_row (tree_iter : tree_path) (selected_plugin : option string) :
  keeps_settings (_reload_row (R:=R) (C:=C) tree_iter selected_plugin).
Proof.
  unfold _reload_row.
  apply settings_bind; [apply settings_model_getitem|]. intros model_row.
  destruct (_ && _); [apply settings_reload_catalog|].
  destruct (bool_decide (r_type (row_model model_row) = ROW_TYPE_REPOSITORY)).
  { unfold _reload_repository.
    destruct (path_parent tree_iter) as [parent_row|]; [|apply settings_raise].
    apply settings_bind; [apply settings_model_getitem|]. intros parent.
    destruct (negb _); [apply settings_emit|apply settings_reload_catalog]. }
  destruct (bool_decide (r_type (row_model model_row) = ROW_TYPE_PLUGIN));
    [|apply settings_emit].
  destruct (negb _); [apply settings_emit|apply settings_reload_plugin].
Qed.

(** X19: [_reload] never changes the Enabled Set, the configured catalog URLs
    or the files on disk, whatever rows are selected, whatever the registry
    and the transport do, and whether it returns or raises. *)
Theorem reload_keeps_settings (selection : list tree_path) (w : window R C) :
  let w' := (_reload selection w).2 in
  plugins_enabled (cfg w') = plugins_enabled (cfg w)
  ∧ catalogs (cfg w') = catalogs (cfg w)
  ∧ disk w' = disk w.
Proof.
  revert w. change (keeps_settings (_reload (R:=R) (C:=C) selection)).
  unfold _reload.
  apply settings_bind; [apply settings_emit|]. intros _.
  apply settings_bind.
  { destruct selection as [|first ?]; [apply settings_ret|].
    apply settings_bind; [apply settings_model_getitem|]. intros row.
    apply settings_ret. }
  intros selected_plugin. apply settings_for_each. intros tree_iter.
  apply settings_reload_row.
Qed.

Lemma reload_catalog_failed_fetch_aux (w : window R C) (named_row : model_row)
    (tree_iter : tree_path) (entry : cache_entry Doc) (e : exn) :
  get_catalog_by_id (catalog_plugins w) (r_id named_row) = Some entry →
  url entry ≠ "" →
  Catalog_from_url (url entry) = Raise e →
  ∃ w', _reload_catalog named_row tree_iter w = (Ok tt, w')
    ∧ _model w' = store_delete (_model w) tree_iter
    ∧ catalog_plugins w' = catalog_plugins w
    ∧ cfg w' = cfg w.
Proof.
  intros Hentry Hurl Hfetch.
  unfold _reload_catalog, _load_catalog_from_url, mbind, M_bind. simpl.
  rewrite Hentry. rewrite decide_False by done. simpl. rewrite Hfetch.
  destruct (decide (e = ConnectionError)); simpl;
    (eexists; split; [reflexivity|]); simpl; done.
Qed.

(** X20: reloading a catalog whose cache entry has a URL: the catalog's row is
    taken out of the tree first and the transport is asked for that URL;
    when the fetch fails the call returns normally with the row still
    gone, and the catalog manager, the configuration and the registry as
    before. *)
Theorem reload_catalog_failed_fetch (w : window R C) (named_row : model_row)
    (tree_iter : tree_path) (entry : cache_entry Doc) (e : exn) :
  get_catalog_by_id (catalog_plugins w) (r_id named_row) = Some entry →
  url entry ≠ "" →
  Catalog_from_url (url entry) = Raise e →
  ∃ w', _reload_catalog named_row tree_iter w = (Ok tt, w')
    ∧ _model w' = store_delete (_model w) tree_iter
    ∧ fetches (drop (length (trace w)) (trace w')) = [url entry]
    ∧ catalog_plugins w' = catalog_plugins w
    ∧ cfg w' = cfg w
    ∧ plugin_manager w' = plugin_manager w.
Proof.
  intros Hentry Hurl Hfetch.
  unfold _reload_catalog, _load_catalog_from_url, mbind, M_bind. simpl.
  rewrite Hentry. rewrite decide_False by done. simpl. rewrite Hfetch.
  destruct (decide (e = ConnectionError)); simpl;
    (eexists; split; [reflexivity|]); simpl; split_and!; try done;
    by rewrite <- !app_assoc, drop_app_length.
Qed.

(** X21: reloading a catalog when the fetch succeeds: the catalog is added to
    the manager and written to the cache, and the rows are then rebuilt by
    reconciliation, so that the module errors are those of this run's
    [load_all]; the transport is asked exactly once. *)
Theorem reload_catalog_fetched (w : window R C) (named_row : model_row)
    (tree_iter : tree_path) (entry : cache_entry Doc) (catalog : Cat) :
  get_catalog_by_id (catalog_plugins w) (r_id named_row) = Some entry →
  url entry ≠ "" →
  Catalog_from_url (url entry) = Ok catalog →
  let w' := (_reload_catalog named_row tree_iter w).2 in
  catalog_plugins w' = add_catalog (catalog_plugins w) catalog (url entry) true
  ∧ fetches (drop (length (trace w)) (trace w')) = [url entry]
  ∧ plugin_manager w' = (pm_load_all (plugin_manager w)).1
  ∧ _module_errors w' = reported_errors (pm_load_all (plugin_manager w)).2.
Proof.
  intros Hentry Hurl Hfetch w'.
  unfold w', _reload_catalog, _load_catalog_from_url, mbind, M_bind. simpl.
  rewrite Hentry. rewrite decide_False by done. simpl. rewrite Hfetch. simpl.
  match goal with
  | |- context [_load_plugins ?w0] =>
      destruct (_load_plugins_effects w0) as (He & Hcp & _ & evs & Ht & Hf);
      destruct (_load_plugins_cfg w0) as (Hpm & _)
  end.
  simpl in He, Hcp, Ht, Hpm. rewrite He, Hcp, Ht, Hpm. split_and!; try done.
  rewrite <- app_assoc, drop_app_length. simpl. by rewrite Hf.
Qed.

(** X22: reloading a repository row reloads the catalog above it: the parent
    catalog's row, with every repository below it, is removed from the tree,
    and when the catalog cannot be fetched again the call returns normally
    with that row still gone. *)
Theorem reload_repository_removes_catalog (w : window R C)
    (tree_iter parent_row : tree_path) (row parent : tree_row)
    (entry : cache_entry Doc) (e : exn) (selected_plugin : option string) :
  store_get (_model w) tree_iter = Some row →
  r_type (row_model row) = ROW_TYPE_REPOSITORY →
  path_parent tree_iter = Some parent_row →
  store_get (_model w) parent_row = Some parent →
  r_type (row_model parent) = ROW_TYPE_CATALOG →
  get_catalog_by_id (catalog_plugins w) (r_id (row_model parent)) = Some entry →
  url entry ≠ "" →
  Catalog_from_url (url entry) = Raise e →
  ∃ w', _reload_row tree_iter selected_plugin w = (Ok tt, w')
    ∧ _model w' = store_delete (_model w) parent_row
    ∧ cfg w' = cfg w
    ∧ catalog_plugins w' = catalog_plugins w.
Proof.
  intros Hget Hrepo Hpp Hparent Hcat Hentry Hurl Hfetch.
  destruct (reload_catalog_failed_fetch_aux w (row_model parent) parent_row entry e
              Hentry Hurl Hfetch) as (w' & Hrun & Hm & Hcp & Hcfg).
  exists w'. split; [|done].
  unfold _reload_row, mbind, M_bind.
  rewrite (model_getitem_Some _ _ _ Hget). simpl. rewrite Hrepo. simpl.
  unfold _reload_repository, mbind, M_bind. rewrite Hpp.
  rewrite (model_getitem_Some _ _ _ Hparent). simpl. rewrite Hcat. simpl.
  exact Hrun.
Qed.

(** X23: [_reload] with one row selected that it does not support changes
    nothing: for a plugin row that is not installed the status bar says so,
    for the row of the local catalog a warning is logged; the registry and
    the transport are not asked for anything. *)
Theorem reload_skips_row (w : window R C) (tree_iter : tree_path) (row : tree_row) :
  store_get (_model w) tree_iter = Some row →
  (r_type (row_model row) = ROW_TYPE_PLUGIN ∧ installed_truthy (row_model row) = false)
  ∨ (r_type (row_model row) = ROW_TYPE_CATALOG
     ∧ r_id (row_model row) = _LOCAL_REPOSITORY_ID) →
  ∃ w', _reload [tree_iter] w = (Ok tt, w')
    ∧ only_emitted w w'
        [EvStatus "Reloading... ";
         if bool_decide (r_type (row_model row) = ROW_TYPE_PLUGIN)
         then EvStatus "Cannot reload a plugin that is not installed."
         else EvLog WARNING "reload selected for an unsupported row type"].
Proof.
  intros Hget Hwhy.
  assert (∀ (w1 : window R C) selected_plugin, _model w1 = _model w →
            _reload_row tree_iter selected_plugin w1 =
              emit (if bool_decide (r_type (row_model row) = ROW_TYPE_PLUGIN)
                    then EvStatus "Cannot reload a plugin that is not installed."
                    else EvLog WARNING "reload selected for an unsupported row type") w1)
    as Hrow.
  { intros w1 selected_plugin Hm. rewrite <- Hm in Hget.
    unfold _reload_row, mbind, M_bind.
    rewrite (model_getitem_Some _ _ _ Hget). simpl.
    destruct Hwhy as [[Ht Hi]|[Ht Hi]]; rewrite Ht; simpl.
    - by rewrite Hi.
    - by rewrite (bool_decide_eq_true_2 _ Hi). }
  unfold _reload. unfold mbind at 1 2, M_bind. simpl.
  erewrite bind_Ok by (apply model_getitem_Some; simpl; exact Hget).
  simpl. unfold mbind, M_bind. rewrite Hrow by done. simpl.
  eexists. split; [reflexivity|].
  unfold only_emitted. simpl. split_and!; try done. by rewrite <- app_assoc.
Qed.

End Further.

(** *** The claims on the example windows *)

Ltac computed := vm_compute; reflexivity.

(** Against C1 as stated: [foo] is installed from A/B; the user installs it
    from C/D, confirms the replacement, and the download fails for want of a
    network.  The handler returns, the failure dialog is shown, and the
    Installation Record has lost the entry of [foo]. *)
Lemma replace_source_failure_loses_record :
  let w := two_sources [] in
  let out := signal_renderer_toggled_install (CM:=offline) "/plugins" (λ _, true)
               [2; 0; 0]%nat w in
  plugins_installed (cfg w) !! "foo" = Some (Some (InstallSrc "A" "B" "foo"))
  ∧ out.1 = Ok tt
  ∧ last (trace out.2)
      = Some (EvDialogError "Failed To Install"
                "Failed to download foo plugin, check your internet connection.")
  ∧ plugins_installed (cfg out.2) !! "foo" = None
  ∧ plugins_installed (cfg out.2) ≠ plugins_installed (cfg w).
Proof.
  intros w out.
  assert (plugins_installed (cfg w) !! "foo" = Some (Some (InstallSrc "A" "B" "foo")))
    as H1 by (vm_compute; reflexivity).
  assert (plugins_installed (cfg out.2) !! "foo" = None) as H2 by (vm_compute; reflexivity).
  split; [exact H1|]. split; [vm_compute; reflexivity|].
  split; [vm_compute; reflexivity|]. split; [exact H2|].
  intros Heq. rewrite Heq, H1 in H2. discriminate H2.
Qed.

(** Against C7 as stated: disabling a plugin whose id is not in the Enabled
    Set raises [ValueError]. *)
Lemma disable_absent_raises :
  let w := two_sources [] in
  store_get (_model w) [1; 0; 0]%nat = Some (foo_row true false "1.0")
  ∧ ("foo" ∉ plugins_enabled (cfg w))
  ∧ (_disable_plugin [1; 0; 0]%nat true w).1 = Raise ValueError.
Proof.
  intros w.
  assert (plugins_enabled (cfg w) = []) as He by (vm_compute; reflexivity).
  split; [vm_compute; reflexivity|]. split; [|vm_compute; reflexivity].
  rewrite He. apply not_elem_of_nil.
Qed.


(** Against C8 as stated: [foo] is loaded and enabled, and its module now
    declares requirements that are not met.  The reload succeeds (no module
    error, the new class is loaded) and asks the registry to enable [foo]
    again; the registry refuses, the answer is not looked at, and [foo] ends
    up not enabled in the registry while the Enabled Set still lists it. *)
Lemma reload_enable_refused_not_restored :
  let w := enabled_then (Ok foo_class_incompatible) in
  let out := _reload_plugin [1; 0; 0]%nat None w in
  store_get (_model w) [1; 0; 0]%nat = Some (foo_row true true "1.0")
  ∧ "foo" ∈ pm_enabled_plugins (plugin_manager w)
  ∧ out.1 = Ok tt
  ∧ _module_errors out.2 !! "foo" = None
  ∧ pm_loaded_plugins (plugin_manager out.2) !! "foo" = Some foo_class_incompatible
  ∧ last (trace out.2) = Some (EvRegistry (PmEnable "foo"))
  ∧ ("foo" ∉ pm_enabled_plugins (plugin_manager out.2))
  ∧ plugins_enabled (cfg out.2) = ["foo"].
Proof.
  intros w out.
  assert (pm_enabled_plugins (plugin_manager w) = ["foo"]) as H1 by computed.
  assert (pm_enabled_plugins (plugin_manager out.2) = []) as H2 by computed.
  split; [computed|]. split; [rewrite H1; apply list_elem_of_singleton; reflexivity|].
  split; [computed|]. split; [computed|]. split; [computed|]. split; [computed|].
  split; [rewrite H2; apply not_elem_of_nil|computed].
Qed.

(** C2 fails on the code: after a failed reload, a refresh and a
    replace-source, [foo] is installed from C/D and still in the Enabled Set,
    while its row, built before the install, is shown as not enabled.
    Uninstalling through that row skips the disable, completes, and leaves
    [foo] in the Enabled Set without an Installation Record. *)
Theorem uninstall_leaves_enabled_plugin_without_record :
  let before := (replace_broken_plugin broken_plugin_initial).2 in
  let out := signal_renderer_toggled_install (CM:=online) "/plugins" (λ _, true)
               [1; 0; 0]%nat before in
  enabled_have_records (cfg broken_plugin_initial)
  ∧ (replace_broken_plugin broken_plugin_initial).1 = Ok tt
  ∧ store_get (_model before) [1; 0; 0]%nat = Some (foo_row true false "1.1")
  ∧ plugins_enabled (cfg before) = ["foo"]
  ∧ plugins_installed (cfg before) !! "foo" = Some (Some (InstallSrc "C" "D" "foo"))
  ∧ enabled_have_records (cfg before)
  ∧ out.1 = Ok tt
  ∧ plugins_enabled (cfg out.2) = ["foo"]
  ∧ plugins_installed (cfg out.2) !! "foo" = None
  ∧ ¬ enabled_have_records (cfg out.2).
Proof.
  intros before out.
  assert (plugins_enabled (cfg before) = ["foo"]) as He by (vm_compute; reflexivity).
  assert (plugins_installed (cfg before) !! "foo" = Some (Some (InstallSrc "C" "D" "foo")))
    as Hi by (vm_compute; reflexivity).
  assert (plugins_enabled (cfg out.2) = ["foo"]) as He' by (vm_compute; reflexivity).
  assert (plugins_installed (cfg out.2) !! "foo" = None) as Hi' by (vm_compute; reflexivity).
  split.
  { intros p Hp. change (p ∈ ["foo"]) in Hp. apply list_elem_of_singleton in Hp.
    subst p. exists None. vm_compute. reflexivity. }
  split; [vm_compute; reflexivity|]. split; [vm_compute; reflexivity|].
  split; [exact He|]. split; [exact Hi|].
  split.
  { intros p Hp. rewrite He in Hp. apply list_elem_of_singleton in Hp. subst p.
    rewrite Hi. eexists. reflexivity. }
  split; [vm_compute; reflexivity|]. split; [exact He'|]. split; [exact Hi'|].
  intros Hinv. destruct (Hinv "foo") as [x Hx].
  - rewrite He'. apply list_elem_of_singleton. reflexivity.
  - rewrite Hi' in Hx. discriminate Hx.
Qed.


Lemma uninstall_not_on_disk_witness :
  let w := set_disk ∅ (two_sources []) in
  store_get (_model w) [1; 0; 0]%nat = Some (foo_row true false "1.0")
  ∧ isfile (disk w) (path_join (path_join "/plugins" "foo") "__init__.py") = false
  ∧ isfile (disk w) (path_join "/plugins" ("foo" +:+ ".py")) = false
  ∧ ∃ w', _uninstall_plugin "/plugins" [1; 0; 0]%nat w = (Ok false, w')
      ∧ cfg w' = cfg w ∧ plugin_manager w' = plugin_manager w.
Proof.
  intros w.
  assert (store_get (_model w) [1; 0; 0]%nat = Some (foo_row true false "1.0"))
    as H1 by computed.
  assert (isfile (disk w) (path_join (path_join "/plugins" "foo") "__init__.py") = false)
    as H2 by computed.
  assert (isfile (disk w) (path_join "/plugins" ("foo" +:+ ".py")) = false)
    as H3 by computed.
  split; [exact H1|]. split; [exact H2|]. split; [exact H3|].
  destruct (uninstall_not_on_disk "/plugins" w [1; 0; 0]%nat _ H1 H2 H3)
    as (w' & Hrun & Hquiet & _ & Hpm & _).
  exists w'. split; [exact Hrun|]. split; [apply Hquiet|exact Hpm].
Defined.

Lemma disable_removes_first_occurrence_witness :
  let w := two_sources ["foo"] in
  store_get (_model w) [1; 0; 0]%nat = Some (foo_row true true "1.0")
  ∧ ∃ w', _disable_plugin [1; 0; 0]%nat true w = (Ok tt, w')
      ∧ ("foo" ∉ plugins_enabled (cfg w')).
Proof.
  intros w.
  assert (store_get (_model w) [1; 0; 0]%nat = Some (foo_row true true "1.0"))
    as H1 by computed.
  assert (plugins_enabled (cfg w) = ["foo"]) as He by computed.
  split; [exact H1|].
  destruct (disable_removes_first_occurrence w [1; 0; 0]%nat true _ H1)
    as (w' & Hin & _).
  destruct Hin as (Hrun & _ & Hgone).
  { rewrite He. apply list_elem_of_singleton. reflexivity. }
  exists w'. split; [exact Hrun|]. apply Hgone. rewrite He. apply NoDup_singleton.
Defined.

Lemma enable_attempt_witness :
  let w := two_sources [] in
  store_get (_model w) [1; 0; 0]%nat = Some (foo_row true false "1.0")
  ∧ pm_loaded_plugins (plugin_manager w) !! "foo" = Some foo_class
  ∧ ∃ w', signal_renderer_toggled_enable [1; 0; 0]%nat w = (Ok tt, w')
      ∧ plugins_enabled (cfg w') = plugins_enabled (cfg w) ++ ["foo"].
Proof.
  intros w.
  assert (store_get (_model w) [1; 0; 0]%nat = Some (foo_row true false "1.0"))
    as H1 by computed.
  assert (pm_loaded_plugins (plugin_manager w) !! "foo" = Some foo_class)
    as H2 by computed.
  split; [exact H1|]. split; [exact H2|].
  destruct (enable_attempt w [1; 0; 0]%nat _ foo_class H1 eq_refl eq_refl H2)
    as (w' & Hrun & _ & _ & Haccept & _).
  exists w'. split; [exact Hrun|].
  apply Haccept; computed.
Defined.

Lemma reload_plugin_witness :
  let failing := enabled_then (Raise OtherException) in
  let working := enabled_with_error in
  let row := foo_row true true "1.0" in
  (store_get (_model failing) [1; 0; 0]%nat = Some row
   ∧ plugins_enabled (cfg failing) = ["foo"]
   ∧ ∃ w', _reload_plugin [1; 0; 0]%nat None failing = (Ok tt, w')
       ∧ _module_errors w' !! "foo" = Some OtherException
       ∧ (r_title ∘ row_model) <$> store_get (_model w') [1; 0; 0]%nat
           = Some "foo (Reload Failed)"
       ∧ (EvRegistry (PmEnable "foo") ∉ drop (length (trace failing)) (trace w'))
       ∧ plugins_enabled (cfg w') = ["foo"])
  ∧ (store_get (_model working) [1; 0; 0]%nat = Some row
     ∧ _module_errors working !! "foo" = Some OtherException
     ∧ "foo" ∈ pm_enabled_plugins (plugin_manager working)
     ∧ ∃ w', _reload_plugin [1; 0; 0]%nat None working = (Ok tt, w')
         ∧ _module_errors w' !! "foo" = None
         ∧ "foo" ∈ pm_enabled_plugins (plugin_manager w')
         ∧ plugins_enabled (cfg w') = ["foo"]).
Proof.
  intros failing working row. split.
  - assert (store_get (_model failing) [1; 0; 0]%nat = Some row) as H1 by computed.
    assert (plugins_enabled (cfg failing) = ["foo"]) as H2 by computed.
    assert ((pm_load (pm_unload (plugin_manager failing) (r_id (row_model row)))
               (r_id (row_model row))).2 = Raise OtherException) as Hload by computed.
    split; [exact H1|]. split; [exact H2|].
    destruct (reload_plugin failing [1; 0; 0]%nat row None H1)
      as (w' & Hrun & Hcfg & Hcase).
    rewrite Hload in Hcase.
    destruct Hcase as (Herr & Htitle & _ & _ & Hasked).
    exists w'. split; [exact Hrun|]. split.
    { rewrite Herr. apply lookup_insert_eq. }
    split; [exact Htitle|]. split; [exact Hasked|]. rewrite Hcfg. exact H2.
  - assert (store_get (_model working) [1; 0; 0]%nat = Some row) as H1 by computed.
    assert (_module_errors working !! "foo" = Some OtherException) as H2 by computed.
    assert (pm_enabled_plugins (plugin_manager working) = ["foo"]) as H3 by computed.
    assert (plugins_enabled (cfg working) = ["foo"]) as H4 by computed.
    assert ((pm_load (pm_unload (plugin_manager working) (r_id (row_model row)))
               (r_id (row_model row))).2 = Ok foo_class) as Hload by computed.
    assert (list_in (r_id (row_model row)) (pm_enabled_plugins (plugin_manager working))
            = true) as Hwas by computed.
    assert (pm_enabled_plugins
              (pm_enable (pm_load (pm_unload (plugin_manager working) (r_id (row_model row)))
                            (r_id (row_model row))).1 (r_id (row_model row))).1
            = ["foo"]) as H5 by computed.
    split; [exact H1|]. split; [exact H2|].
    split; [rewrite H3; apply list_elem_of_singleton; reflexivity|].
    destruct (reload_plugin working [1; 0; 0]%nat row None H1)
      as (w' & Hrun & Hcfg & Hcase).
    rewrite Hload in Hcase.
    destruct Hcase as (Herr & _ & _ & _ & Hrestored & _).
    exists w'. split; [exact Hrun|]. split.
    { rewrite Herr. apply lookup_delete_eq. }
    split; [|rewrite Hcfg; exact H4].
    apply (Hrestored Hwas). rewrite H5. apply list_elem_of_singleton. reflexivity.
Defined.

Lemma install_connectivity_error_witness :
  let w := offered in
  let row := foo_row false false "1.1" in
  let repo := repository_row "D" "Repo D" [row] in
  let catalog := catalog_row "C" [repo] in
  store_get (_model w) [1; 0; 0]%nat = Some row
  ∧ store_get (_model w) [1; 0]%nat = Some repo
  ∧ store_get (_model w) [1]%nat = Some catalog
  ∧ plugins_installed (cfg w) !! "foo" = None
  ∧ install_plugin (CatalogManager:=offline) (catalog_plugins w) "C" "D" "foo" "/plugins"
      (disk w) = Raise ConnectionError
  ∧ ∃ w', signal_renderer_toggled_install (CM:=offline) "/plugins" (λ _, true)
            [1; 0; 0]%nat w = (Ok tt, w')
      ∧ plugins_installed (cfg w') !! "foo" = None.
Proof.
  intros w row repo catalog.
  assert (store_get (_model w) [1; 0; 0]%nat = Some row) as H1 by computed.
  assert (store_get (_model w) [1; 0]%nat = Some repo) as H2 by computed.
  assert (store_get (_model w) [1]%nat = Some catalog) as H3 by computed.
  assert (plugins_installed (cfg w) !! "foo" = None) as H4 by computed.
  assert (install_plugin (CatalogManager:=offline) (catalog_plugins w) "C" "D" "foo"
            "/plugins" (disk w) = Raise ConnectionError) as H5 by computed.
  split; [exact H1|]. split; [exact H2|]. split; [exact H3|]. split; [exact H4|].
  split; [exact H5|].
  destruct (install_connectivity_error (CM:=offline) "/plugins" (λ _, true) w
              [1; 0; 0]%nat [1; 0]%nat [1]%nat row repo catalog
              H1 eq_refl eq_refl H2 H3 eq_refl H4 H5)
    as (w' & Hrun & Hnone & _).
  exists w'. split; [exact Hrun|exact Hnone].
Defined.

Lemma remote_plugin_rows_witness :
  let w := two_sources [] in
  let m := ModelRow "D" None true "Repo D" None None false false false
             ROW_TYPE_REPOSITORY in
  store_get (_model w) [2; 0]%nat = Some (TreeRow m [foo_row false false "1.1"])
  ∧ ∃ w' rows,
      _add_plugins_to_tree (CM:=offline) "C" (Repository "D" "Repo D") [2; 0]%nat
        [("foo", PluginInfo "foo" "Foo" "1.1")] w = (Ok tt, w')
      ∧ map r_id rows = ["foo"]
      ∧ ∀ row, row ∈ rows → row_flags_match (cfg w) "C" "D" row.
Proof.
  intros w m.
  assert (store_get (_model w) [2; 0]%nat = Some (TreeRow m [foo_row false false "1.1"]))
    as H1 by computed.
  split; [exact H1|].
  destruct (remote_plugin_rows (CM:=offline) w "C" (Repository "D" "Repo D") [2; 0]%nat
              [("foo", PluginInfo "foo" "Foo" "1.1")] m _ H1)
    as [(w' & rows & Hrun & _ & Hids & _ & Hflags) _].
  exists w', rows. split; [exact Hrun|]. split; [exact Hids|].
  intros row Hrow. apply (Hflags row Hrow).
Defined.


Lemma failed_transition_configuration_witness :
  let w := two_sources [] in
  store_get (_model w) [2; 0; 0]%nat = Some (foo_row false false "1.1")
  ∧ ∃ w', signal_renderer_toggled_install (CM:=offline) "/plugins" (λ _, true)
            [2; 0; 0]%nat w = (Ok tt, w')
      ∧ plugins_installed (cfg w') = delete "foo" (plugins_installed (cfg w))
      ∧ plugins_enabled (cfg w') = plugins_enabled (cfg w).
Proof.
  intros w.
  set (row := foo_row false false "1.1").
  set (repo := repository_row "D" "Repo D" [row]).
  set (catalog := catalog_row "C" [repo]).
  set (old_row := foo_row true false "1.0").
  set (old_repo := repository_row "B" "Repo B" [old_row]).
  assert (store_get (_model w) [2; 0; 0]%nat = Some row) as H1 by computed.
  assert (store_get (_model w) [2; 0]%nat = Some repo) as H2 by computed.
  assert (store_get (_model w) [2]%nat = Some catalog) as H3 by computed.
  assert (plugins_installed (cfg w) !! "foo" = Some (Some (InstallSrc "A" "B" "foo")))
    as H4 by computed.
  assert (matching_repo_model (_model w) (Some (InstallSrc "A" "B" "foo"))
          = Some ([1; 0]%nat, old_repo)) as H5 by computed.
  assert (list_find (λ t, r_id (row_model t) = "foo") (iterchildren old_repo)
          = Some (0%nat, old_row)) as H6 by computed.
  assert (on_disk "/plugins" (disk w) "foo" = true) as H7 by computed.
  split; [exact H1|].
  destruct (failed_transition_configuration (CM:=offline) "/plugins" (λ _, true) w
              [2; 0; 0]%nat row H1) as (_ & _ & _ & Hinstall).
  assert (plugin_row_at (_model w) [2; 0; 0]%nat row repo catalog) as Hat.
  { split; [exact H1|]. exists [2; 0]%nat, [2]%nat. repeat split; assumption. }
  destruct (Hinstall repo catalog Hat) as (_ & _ & _ & _ & _ & Hreplace).
  destruct (Hreplace (Some (InstallSrc "A" "B" "foo")) [1; 0]%nat old_repo 0%nat old_row
              eq_refl H4) as (w' & Hrun & Hi & He).
  - intros [=].
  - reflexivity.
  - exact H5.
  - exact H6.
  - intros [=].
  - intros d. exists ConnectionError. reflexivity.
  - exists w'. split; [exact Hrun|]. split.
    + rewrite Hi. change (r_id (row_model row)) with "foo". rewrite H7. reflexivity.
    + exact He.
Defined.

(** ** Witnesses of the further properties *)


Lemma enable_toggle_ignored_witness :
  let w := two_sources [] in
  let row := repository_row "B" "Repo B" [foo_row true false "1.0"] in
  store_get (_model w) [1; 0]%nat = Some row
  ∧ r_type (row_model row) ≠ ROW_TYPE_PLUGIN
  ∧ signal_renderer_toggled_enable [1; 0]%nat w = (Ok tt, w).
Proof.
  intros w row.
  assert (store_get (_model w) [1; 0]%nat = Some row) as H1 by computed.
  assert (r_type (row_model row) ≠ ROW_TYPE_PLUGIN) as H2 by (intros [=]).
  split; [exact H1|]. split; [exact H2|].
  exact (enable_toggle_ignored w [1; 0]%nat row H1 (or_introl H2)).
Defined.

Lemma enable_toggle_blocked_by_module_error_witness :
  let w := set_module_errors {["foo" := OtherException]} (two_sources ["foo"]) in
  let row := foo_row true true "1.0" in
  store_get (_model w) [1; 0; 0]%nat = Some row
  ∧ _module_errors w !! "foo" = Some OtherException
  ∧ ∃ w', signal_renderer_toggled_enable [1; 0; 0]%nat w = (Ok tt, w')
      ∧ cfg w' = cfg w.
Proof.
  intros w row.
  assert (store_get (_model w) [1; 0; 0]%nat = Some row) as H1 by computed.
  assert (_module_errors w !! "foo" = Some OtherException) as H2 by computed.
  assert (pm_loaded_plugins (plugin_manager w) !! "foo" = Some foo_class) as H3 by computed.
  split; [exact H1|]. split; [exact H2|].
  destruct (enable_toggle_blocked_by_module_error w [1; 0; 0]%nat row H1 eq_refl
              (ex_intro _ foo_class H3) (ex_intro _ OtherException H2))
    as (w' & Hrun & Hcfg & _).
  exists w'. split; [exact Hrun|exact Hcfg].
Defined.

Lemma enable_toggle_disables_witness :
  let w := two_sources ["foo"] in
  let row := foo_row true true "1.0" in
  store_get (_model w) [1; 0; 0]%nat = Some row
  ∧ plugins_enabled (cfg w) = ["foo"]
  ∧ ∃ w', signal_renderer_toggled_enable [1; 0; 0]%nat w = (Ok tt, w')
      ∧ plugins_enabled (cfg w') = without_first "foo" (plugins_enabled (cfg w)).
Proof.
  intros w row.
  assert (store_get (_model w) [1; 0; 0]%nat = Some row) as H1 by computed.
  assert (plugins_enabled (cfg w) = ["foo"]) as H2 by computed.
  assert (pm_loaded_plugins (plugin_manager w) !! "foo" = Some foo_class) as H3 by computed.
  assert (_module_errors w !! "foo" = None) as H4 by computed.
  split; [exact H1|]. split; [exact H2|].
  destruct (enable_toggle_disables w [1; 0; 0]%nat row H1 eq_refl
              (ex_intro _ foo_class H3) H4 eq_refl) as (w' & Hrun & He & _).
  { change (r_id (row_model row)) with "foo". rewrite H2.
    apply list_elem_of_singleton. reflexivity. }
  exists w'. split; [exact Hrun|exact He].
Defined.

Lemma enable_then_disable_witness :
  let w := two_sources [] in
  let row := foo_row true false "1.0" in
  store_get (_model w) [1; 0; 0]%nat = Some row
  ∧ plugins_enabled (cfg w) = []
  ∧ ∃ w1 w2, signal_renderer_toggled_enable [1; 0; 0]%nat w = (Ok tt, w1)
      ∧ plugins_enabled (cfg w1) = ["foo"]
      ∧ signal_renderer_toggled_enable [1; 0; 0]%nat w1 = (Ok tt, w2)
      ∧ cfg w2 = cfg w.
Proof.
  intros w row.
  assert (store_get (_model w) [1; 0; 0]%nat = Some row) as H1 by computed.
  assert (plugins_enabled (cfg w) = []) as H2 by computed.
  assert (pm_loaded_plugins (plugin_manager w) !! "foo" = Some foo_class) as H3 by computed.
  assert (_module_errors w !! "foo" = None) as H4 by computed.
  assert ((pm_enable (plugin_manager w) "foo").2 = true) as H5 by computed.
  assert (pm_loaded_plugins (pm_enable (plugin_manager w) "foo").1 !! "foo"
          = Some foo_class) as H6 by computed.
  split; [exact H1|]. split; [exact H2|].
  destruct (enable_then_disable w [1; 0; 0]%nat row foo_class H1 eq_refl eq_refl
              H3 H4 eq_refl H5 (ex_intro _ foo_class H6))
    as (w1 & w2 & Hrun1 & He1 & Hrun2 & Hcfg & _).
  { change (r_id (row_model row)) with "foo". rewrite H2. apply not_elem_of_nil. }
  exists w1, w2. split; [exact Hrun1|]. split; [|split; [exact Hrun2|exact Hcfg]].
  rewrite He1, H2. reflexivity.
Defined.

Lemma uninstall_success_witness :
  let w := two_sources [] in
  let row := foo_row true false "1.0" in
  store_get (_model w) [1; 0; 0]%nat = Some row
  ∧ on_disk "/plugins" (disk w) "foo" = true
  ∧ plugins_installed (cfg w) !! "foo" = Some (Some (InstallSrc "A" "B" "foo"))
  ∧ ∃ w', _uninstall_plugin "/plugins" [1; 0; 0]%nat w = (Ok true, w')
      ∧ plugins_installed (cfg w') = delete "foo" (plugins_installed (cfg w)).
Proof.
  intros w row.
  assert (store_get (_model w) [1; 0; 0]%nat = Some row) as H1 by computed.
  assert (on_disk "/plugins" (disk w) "foo" = true) as H2 by computed.
  assert (plugins_installed (cfg w) !! "foo" = Some (Some (InstallSrc "A" "B" "foo")))
    as H3 by computed.
  split; [exact H1|]. split; [exact H2|]. split; [exact H3|].
  destruct (uninstall_success "/plugins" w [1; 0; 0]%nat row H1 H2 (ex_intro _ _ H3))
    as (w' & Hrun & _ & _ & Hi & _).
  exists w'. split; [exact Hrun|exact Hi].
Defined.

Lemma uninstall_without_record_witness :
  let w := set_disk {[ "/plugins/foo.py" ]} offered in
  let row := foo_row false false "1.1" in
  store_get (_model w) [1; 0; 0]%nat = Some row
  ∧ on_disk "/plugins" (disk w) "foo" = true
  ∧ plugins_installed (cfg w) !! "foo" = None
  ∧ ∃ w', _uninstall_plugin "/plugins" [1; 0; 0]%nat w = (Raise KeyError, w')
      ∧ disk w' = disk_without "/plugins" (disk w) "foo"
      ∧ cfg w' = cfg w.
Proof.
  intros w row.
  assert (store_get (_model w) [1; 0; 0]%nat = Some row) as H1 by computed.
  assert (on_disk "/plugins" (disk w) "foo" = true) as H2 by computed.
  assert (plugins_installed (cfg w) !! "foo" = None) as H3 by computed.
  split; [exact H1|]. split; [exact H2|]. split; [exact H3|].
  destruct (uninstall_without_record "/plugins" w [1; 0; 0]%nat row H1 H2 H3)
    as (w' & Hrun & Hd & _ & Hcfg & _).
  exists w'. split; [exact Hrun|]. split; [exact Hd|exact Hcfg].
Defined.


Lemma install_toggle_needs_two_parents_witness :
  let w := two_sources [] in
  let row := repository_row "B" "Repo B" [foo_row true false "1.0"] in
  store_get (_model w) [1; 0]%nat = Some row
  ∧ signal_renderer_toggled_install (CM:=offline) "/plugins" (λ _, true) [1; 0]%nat w
      = (Raise TypeError, w).
Proof.
  intros w row.
  assert (store_get (_model w) [1; 0]%nat = Some row) as H1 by computed.
  split; [exact H1|].
  apply (install_toggle_needs_two_parents (CM:=offline) "/plugins" (λ _, true) w
           [1; 0]%nat row H1).
  simpl. lia.
Defined.

Lemma install_success_witness :
  let w := offered in
  let row := foo_row false false "1.1" in
  let repo := repository_row "D" "Repo D" [row] in
  let catalog := catalog_row "C" [repo] in
  store_get (_model w) [1; 0; 0]%nat = Some row
  ∧ store_get (_model w) [1; 0]%nat = Some repo
  ∧ store_get (_model w) [1]%nat = Some catalog
  ∧ plugins_installed (cfg w) !! "foo" = None
  ∧ ∃ w', signal_renderer_toggled_install (CM:=online) "/plugins" (λ _, true)
            [1; 0; 0]%nat w = (Ok tt, w')
      ∧ plugins_installed (cfg w')
          = <["foo" := Some (InstallSrc "C" "D" "foo")]> (plugins_installed (cfg w))
      ∧ store_get (_model w') [1; 0; 0]%nat = Some (foo_row true false "1.1").
Proof.
  intros w row repo catalog.
  assert (store_get (_model w) [1; 0; 0]%nat = Some row) as H1 by computed.
  assert (store_get (_model w) [1; 0]%nat = Some repo) as H2 by computed.
  assert (store_get (_model w) [1]%nat = Some catalog) as H3 by computed.
  assert (plugins_installed (cfg w) !! "foo" = None) as H4 by computed.
  assert (install_plugin (CatalogManager:=online) (catalog_plugins w) "C" "D" "foo"
            "/plugins" (disk w) = Ok ({[ "/plugins/foo.py" ]} ∪ ∅)) as H5 by computed.
  assert (collection_version
            (get_collection (CatalogManager:=online) (catalog_plugins w) "C" "D") "foo"
          = Some "1.1") as H6 by computed.
  assert (plugin_row_at (_model w) [1; 0; 0]%nat row repo catalog) as Hat.
  { split; [exact H1|]. exists [1; 0]%nat, [1]%nat. repeat split; assumption. }
  split; [exact H1|]. split; [exact H2|]. split; [exact H3|]. split; [exact H4|].
  destruct (install_success (CM:=online) "/plugins" (λ _, true) w [1; 0; 0]%nat
              row repo catalog _ "1.1" Hat eq_refl H4 H5 H6)
    as (w' & Hrun & Hi & _ & _ & _ & Hm).
  exists w'. split; [exact Hrun|]. split; [exact Hi|exact Hm].
Defined.

Lemma install_version_missing_witness :
  let w := set_catalog_plugins (CatalogMgr [] [] 0) offered in
  let row := foo_row false false "1.1" in
  let repo := repository_row "D" "Repo D" [row] in
  let catalog := catalog_row "C" [repo] in
  store_get (_model w) [1; 0; 0]%nat = Some row
  ∧ plugins_installed (cfg w) !! "foo" = None
  ∧ collection_version
      (get_collection (CatalogManager:=online) (catalog_plugins w) "C" "D") "foo" = None
  ∧ ∃ w', signal_renderer_toggled_install (CM:=online) "/plugins" (λ _, true)
            [1; 0; 0]%nat w = (Raise KeyError, w')
      ∧ plugins_installed (cfg w')
          = <["foo" := Some (InstallSrc "C" "D" "foo")]> (plugins_installed (cfg w))
      ∧ plugin_manager w' = plugin_manager w.
Proof.
  intros w row repo catalog.
  assert (store_get (_model w) [1; 0; 0]%nat = Some row) as H1 by computed.
  assert (store_get (_model w) [1; 0]%nat = Some repo) as H2 by computed.
  assert (store_get (_model w) [1]%nat = Some catalog) as H3 by computed.
  assert (plugins_installed (cfg w) !! "foo" = None) as H4 by computed.
  assert (install_plugin (CatalogManager:=online) (catalog_plugins w) "C" "D" "foo"
            "/plugins" (disk w) = Ok ({[ "/plugins/foo.py" ]} ∪ ∅)) as H5 by computed.
  assert (collection_version
            (get_collection (CatalogManager:=online) (catalog_plugins w) "C" "D") "foo"
          = None) as H6 by computed.
  assert (plugin_row_at (_model w) [1; 0; 0]%nat row repo catalog) as Hat.
  { split; [exact H1|]. exists [1; 0]%nat, [1]%nat. repeat split; assumption. }
  split; [exact H1|]. split; [exact H4|]. split; [exact H6|].
  destruct (install_version_missing (CM:=online) "/plugins" (λ _, true) w [1; 0; 0]%nat
              row repo catalog _ Hat eq_refl H4 H5 H6)
    as (w' & Hrun & Hi & _ & Hpm & _).
  exists w'. split; [exact Hrun|]. split; [exact Hi|exact Hpm].
Defined.

Lemma uninstall_toggle_enabled_confirmed_witness :
  let w := two_sources ["foo"] in
  let row := foo_row true true "1.0" in
  store_get (_model w) [1; 0; 0]%nat = Some row
  ∧ plugins_enabled (cfg w) = ["foo"]
  ∧ on_disk "/plugins" (disk w) "foo" = true
  ∧ ∃ w', signal_renderer_toggled_install (CM:=offline) "/plugins" (λ _, true)
            [1; 0; 0]%nat w = (Ok tt, w')
      ∧ plugins_enabled (cfg w') = without_first "foo" (plugins_enabled (cfg w))
      ∧ plugins_installed (cfg w') = delete "foo" (plugins_installed (cfg w)).
Proof.
  intros w row.
  set (repo := repository_row "B" "Repo B" [row]).
  set (catalog := catalog_row "A" [repo]).
  assert (store_get (_model w) [1; 0; 0]%nat = Some row) as H1 by computed.
  assert (store_get (_model w) [1; 0]%nat = Some repo) as H2 by computed.
  assert (store_get (_model w) [1]%nat = Some catalog) as H3 by computed.
  assert (plugins_enabled (cfg w) = ["foo"]) as H4 by computed.
  assert (on_disk "/plugins" (disk w) "foo" = true) as H5 by computed.
  assert (plugins_installed (cfg w) !! "foo" = Some (Some (InstallSrc "A" "B" "foo")))
    as H6 by computed.
  assert (plugin_row_at (_model w) [1; 0; 0]%nat row repo catalog) as Hat.
  { split; [exact H1|]. exists [1; 0]%nat, [1]%nat. repeat split; assumption. }
  split; [exact H1|]. split; [exact H4|]. split; [exact H5|].
  destruct (uninstall_toggle_enabled_confirmed (CM:=offline) "/plugins" (λ _, true) w
              [1; 0; 0]%nat row repo catalog Hat eq_refl eq_refl eq_refl)
    as (w' & Hrun & He & Hi & _).
  { change (r_id (row_model row)) with "foo". rewrite H4.
    apply list_elem_of_singleton. reflexivity. }
  { exact H5. }
  { exact (ex_intro _ _ H6). }
  exists w'. split; [exact Hrun|]. split; [exact He|exact Hi].
Defined.

Lemma remove_matching_ignores_uninstall_result_witness :
  let w := set_disk ∅ (two_sources []) in
  let row := foo_row false false "1.1" in
  let old_row := foo_row true false "1.0" in
  let old_repo := repository_row "B" "Repo B" [old_row] in
  store_get (_model w) [2; 0; 0]%nat = Some row
  ∧ matching_repo_model (_model w) (Some (InstallSrc "A" "B" "foo"))
      = Some ([1; 0]%nat, old_repo)
  ∧ on_disk "/plugins" (disk w) "foo" = false
  ∧ ∃ w', _remove_matching_plugin "/plugins" [2; 0; 0]%nat
            (Some (InstallSrc "A" "B" "foo")) w = (Ok true, w')
      ∧ cfg w' = cfg w ∧ disk w' = disk w.
Proof.
  intros w row old_row old_repo.
  assert (store_get (_model w) [2; 0; 0]%nat = Some row) as H1 by computed.
  assert (matching_repo_model (_model w) (Some (InstallSrc "A" "B" "foo"))
          = Some ([1; 0]%nat, old_repo)) as H2 by computed.
  assert (list_find (λ t, r_id (row_model t) = "foo") (iterchildren old_repo)
          = Some (0%nat, old_row)) as H3 by computed.
  assert (on_disk "/plugins" (disk w) "foo" = false) as H4 by computed.
  split; [exact H1|]. split; [exact H2|]. split; [exact H4|].
  destruct (remove_matching_ignores_uninstall_result "/plugins" w [2; 0; 0]%nat row
              (Some (InstallSrc "A" "B" "foo")) [1; 0]%nat old_repo 0%nat old_row
              H1 H2 H3 eq_refl H4)
    as (w' & Hrun & Hcfg & _ & _ & _ & _ & Hd & _).
  exists w'. split; [exact Hrun|]. split; [exact Hcfg|exact Hd].
Defined.

Lemma download_round_witness :
  let w := offered in
  ∃ w', _load_catalogs_url (CM:=offline) true 0 "https://x/C.json" w = (Ok tt, w')
    ∧ fetches (drop (length (trace w)) (trace w')) = ["https://x/C.json"]
    ∧ catalog_plugins w' = catalog_plugins w.
Proof.
  intros w.
  destruct (download_round (CM:=offline) w true 0 "https://x/C.json" (or_introl eq_refl))
    as (w' & Hrun & Hf & Hcp & _).
  exists w'. split; [exact Hrun|]. split; [exact Hf|exact Hcp].
Defined.

Lemma stale_document_stops_loading_witness :
  let w := stale_doc_window in
  let entry := CacheEntry 3600000000 (None : option catalog) "https://x/catalog.json" in
  catalogs (cfg w) = ["https://x/catalog.json"]
  ∧ get_catalog_by_url (CatalogManager:=offline)
      (ClientCatalogManager (CatalogManager:=offline) (catalog_plugins w))
      "https://x/catalog.json" = Some entry
  ∧ ∃ w', _load_catalogs (CM:=offline) false 7200000000 w = (Raise AttributeError, w')
      ∧ _model w' = _model w.
Proof.
  intros w entry.
  assert (catalogs (cfg w) = ["https://x/catalog.json"]) as H1 by computed.
  assert (get_catalog_by_url (CatalogManager:=offline)
            (ClientCatalogManager (CatalogManager:=offline) (catalog_plugins w))
            "https://x/catalog.json" = Some entry) as H2 by computed.
  split; [exact H1|]. split; [exact H2|].
  destruct (stale_document_stops_loading (CM:=offline) w 7200000000
              "https://x/catalog.json" [] entry KeyError H1 H2)
    as (w' & Hrun & Hm & _).
  { unfold expiration. simpl. lia. }
  { reflexivity. }
  { left. reflexivity. }
  exists w'. split; [exact Hrun|exact Hm].
Defined.

Lemma reload_catalog_failed_fetch_witness :
  let w := cached_C in
  let entry := CacheEntry 0 (Some catalog_C) "https://x/C.json" in
  let row := catalog_row "C" [repository_row "D" "Repo D" [foo_row false false "1.1"]] in
  store_get (_model w) [1]%nat = Some row
  ∧ get_catalog_by_id (CatalogManager:=offline) (catalog_plugins w) "C" = Some entry
  ∧ ∃ w', _reload_catalog (CM:=offline) (row_model row) [1]%nat w = (Ok tt, w')
      ∧ store_get (_model w') [1]%nat = None
      ∧ fetches (drop (length (trace w)) (trace w')) = ["https://x/C.json"].
Proof.
  intros w entry row.
  assert (store_get (_model w) [1]%nat = Some row) as H1 by computed.
  assert (get_catalog_by_id (CatalogManager:=offline) (catalog_plugins w) "C" = Some entry)
    as H2 by computed.
  assert (store_get (store_delete (_model w) [1]%nat) [1]%nat = None) as H3 by computed.
  split; [exact H1|]. split; [exact H2|].
  destruct (reload_catalog_failed_fetch (CM:=offline) w (row_model row) [1]%nat entry
              ConnectionError H2)
    as (w' & Hrun & Hm & Hf & _).
  { intros [=]. }
  { reflexivity. }
  exists w'. split; [exact Hrun|]. split; [rewrite Hm; exact H3|exact Hf].
Defined.

Lemma reload_catalog_fetched_witness :
  let w := cached_C in
  let entry := CacheEntry 0 (Some catalog_C) "https://x/C.json" in
  let row := catalog_row "C" [repository_row "D" "Repo D" [foo_row false false "1.1"]] in
  let w' := (_reload_catalog (CM:=online) (row_model row) [1]%nat w).2 in
  get_catalog_by_id (CatalogManager:=online) (catalog_plugins w) "C" = Some entry
  ∧ Catalog_from_url (CatalogManager:=online) "https://x/C.json" = Ok catalog_A
  ∧ catalog_plugins w'
      = add_catalog (CatalogManager:=online) (catalog_plugins w) catalog_A
          "https://x/C.json" true
  ∧ fetches (drop (length (trace w)) (trace w')) = ["https://x/C.json"].
Proof.
  intros w entry row w'.
  assert (get_catalog_by_id (CatalogManager:=online) (catalog_plugins w) "C" = Some entry)
    as H1 by computed.
  assert (Catalog_from_url (CatalogManager:=online) "https://x/C.json" = Ok catalog_A)
    as H2 by reflexivity.
  split; [exact H1|]. split; [exact H2|].
  destruct (reload_catalog_fetched (CM:=online) w (row_model row) [1]%nat entry catalog_A
              H1)
    as (Hcp & Hf & _).
  { intros [=]. }
  { exact H2. }
  split; [exact Hcp|exact Hf].
Defined.

Lemma reload_repository_removes_catalog_witness :
  let w := cached_C in
  let entry := CacheEntry 0 (Some catalog_C) "https://x/C.json" in
  let row := repository_row "D" "Repo D" [foo_row false false "1.1"] in
  let parent := catalog_row "C" [row] in
  store_get (_model w) [1; 0]%nat = Some row
  ∧ store_get (_model w) [1]%nat = Some parent
  ∧ get_catalog_by_id (CatalogManager:=offline) (catalog_plugins w) "C" = Some entry
  ∧ ∃ w', _reload_row (CM:=offline) [1; 0]%nat None w = (Ok tt, w')
      ∧ store_get (_model w') [1]%nat = None.
Proof.
  intros w entry row parent.
  assert (store_get (_model w) [1; 0]%nat = Some row) as H1 by computed.
  assert (store_get (_model w) [1]%nat = Some parent) as H2 by computed.
  assert (get_catalog_by_id (CatalogManager:=offline) (catalog_plugins w) "C" = Some entry)
    as H3 by computed.
  assert (store_get (store_delete (_model w) [1]%nat) [1]%nat = None) as H4 by computed.
  split; [exact H1|]. split; [exact H2|]. split; [exact H3|].
  destruct (reload_repository_removes_catalog (CM:=offline) w [1; 0]%nat [1]%nat row parent
              entry ConnectionError None H1 eq_refl eq_refl H2 eq_refl H3)
    as (w' & Hrun & Hm & _).
  { intros [=]. }
  { reflexivity. }
  exists w'. split; [exact Hrun|]. rewrite Hm. exact H4.
Defined.

Lemma reload_skips_row_witness :
  let w := offered in
  let row := foo_row false false "1.1" in
  store_get (_model w) [1; 0; 0]%nat = Some row
  ∧ ∃ w', _reload (CM:=offline) [[1; 0; 0]%nat] w = (Ok tt, w')
      ∧ plugin_manager w' = plugin_manager w
      ∧ trace w' = trace w ++
          [EvStatus "Reloading... ";
           EvStatus "Cannot reload a plugin that is not installed."].
Proof.
  intros w row.
  assert (store_get (_model w) [1; 0; 0]%nat = Some row) as H1 by computed.
  split; [exact H1|].
  destruct (reload_skips_row (CM:=offline) w [1; 0; 0]%nat row H1
              (or_introl (conj eq_refl eq_refl)))
    as (w' & Hrun & _ & _ & _ & Hpm & _ & _ & Ht).
  exists w'. split; [exact Hrun|]. split; [exact Hpm|exact Ht].
Defined.
